(** * Salaaz CSV converter: a shallow embedding of [app.py]

    The development follows the class [SalaazConverter]:

    - [PyStr]: the [str] methods and regular expressions the converter uses;
    - [PyFloat]: [float(text)], [int(text)] and [repr] of a binary64 number,
      computed exactly over [Z];
    - [Frame]: the cells and columns of a pandas [DataFrame];
    - [Converter]: the methods of the class, the pure ones as functions and
      the ones that build or update frames as programs over a store of
      frame objects;
    - [Denotation]: the frames these programs compute, as functions;
    - [Stated]: two rules in the words of the specification;
    - the properties of these methods, and the claims C1 to C10.

    Conventions.  A Python [str] is a [string] of ASCII characters; the
    character classes ([lower], [isspace], [\d], [\w]) are the ASCII ones.
    A frame holds Python values cell by cell, as a pandas column of object
    dtype does, under the default positional index [0 .. n-1] that
    [read_csv] builds; [None] and [NaN] are the one missing value [VNull]. *)

From Stdlib Require Import ZArith QArith Lia Bool Ascii String DecimalString.
From stdpp Require Import base option list strings.

Open Scope string_scope.
Open Scope Z_scope.

(** ** Python strings *)

Module PyStr.

Definition code (c : ascii) : N := N_of_ascii c.

Definition in_range (lo hi : N) (c : ascii) : bool :=
  ((lo <=? code c) && (code c <=? hi))%N.

Definition is_upper (c : ascii) : bool := in_range 65 90 c.
Definition is_lower (c : ascii) : bool := in_range 97 122 c.
Definition is_digit (c : ascii) : bool := in_range 48 57 c.

(** [str.isspace] on ASCII: TAB, LF, VT, FF, CR, the separators FS, GS, RS,
    US, and the space. *)
Definition is_space (c : ascii) : bool :=
  in_range 9 13 c || in_range 28 32 c.

(** The class [\w]: letters, digits and the underscore. *)
Definition is_word (c : ascii) : bool :=
  is_upper c || is_lower c || is_digit c || Ascii.eqb c "_".

Definition lower_char (c : ascii) : ascii :=
  if is_upper c then ascii_of_N (code c + 32) else c.

Fixpoint smap (f : ascii -> ascii) (s : string) : string :=
  match s with
  | EmptyString => EmptyString
  | String c s' => String (f c) (smap f s')
  end.

Fixpoint sfilter (p : ascii -> bool) (s : string) : string :=
  match s with
  | EmptyString => EmptyString
  | String c s' => if p c then String c (sfilter p s') else sfilter p s'
  end.

Fixpoint sexists (p : ascii -> bool) (s : string) : bool :=
  match s with
  | EmptyString => false
  | String c s' => p c || sexists p s'
  end.

(** [s.lower()] *)
Definition lower (s : string) : string := smap lower_char s.

Fixpoint lstrip (s : string) : string :=
  match s with
  | EmptyString => EmptyString
  | String c s' => if is_space c then lstrip s' else s
  end.

Fixpoint rstrip (s : string) : string :=
  match s with
  | EmptyString => EmptyString
  | String c s' =>
      let r := rstrip s' in
      if is_space c && String.eqb r "" then "" else String c r
  end.

(** [s.strip()] *)
Definition strip (s : string) : string := rstrip (lstrip s).

(** [needle in hay] *)
Fixpoint contains (needle hay : string) : bool :=
  String.prefix needle hay ||
  match hay with
  | EmptyString => false
  | String _ hay' => contains needle hay'
  end.

(** [s.startswith(p)] *)
Definition startswith (p s : string) : bool := String.prefix p s.

(** [c in s] for a single character. *)
Definition has_char (c : ascii) (s : string) : bool := sexists (Ascii.eqb c) s.

(** [s.replace(a, b)] for single characters, and [s.replace(a, '')]. *)
Definition replace_char (a b : ascii) (s : string) : string :=
  smap (fun c => if Ascii.eqb c a then b else c) s.

Definition remove_char (a : ascii) (s : string) : string :=
  sfilter (fun c => negb (Ascii.eqb c a)) s.

(** [s.split(sep)] for a non-empty separator: [skip] counts the characters
    of a separator occurrence still to be passed over, [cur] is the piece
    being read. *)
Fixpoint split_go (sep : string) (skip : nat) (cur s : string) : list string :=
  match s with
  | EmptyString => [cur]
  | String c s' =>
      match skip with
      | S k => split_go sep k cur s'
      | O =>
          if String.prefix sep s
          then cur :: split_go sep (String.length sep - 1) "" s'
          else split_go sep 0 (cur ++ String c "") s'
      end
  end.

Definition split (sep s : string) : list string := split_go sep 0 "" s.

(** [re.split('[...]', s)] for a class of single characters. *)
Fixpoint split_chars_go (p : ascii -> bool) (cur s : string) : list string :=
  match s with
  | EmptyString => [cur]
  | String c s' =>
      if p c then cur :: split_chars_go p "" s'
      else split_chars_go p (cur ++ String c "") s'
  end.

Definition split_chars (p : ascii -> bool) (s : string) : list string :=
  split_chars_go p "" s.

(** [sep.join(l)] *)
Definition join (sep : string) (l : list string) : string := String.concat sep l.

(** [str(n)] for an integer. *)
Definition str_of_Z (z : Z) : string := NilZero.string_of_int (Z.to_int z).

(** [s in l] for a list of strings, and [l.index(s)]. *)
Definition mem (s : string) (l : list string) : bool :=
  existsb (String.eqb s) l.

Fixpoint index_of (s : string) (l : list string) : option nat :=
  match l with
  | [] => None
  | x :: l' => if String.eqb x s then Some O else S <$> index_of s l'
  end.

(** *** [json.dumps] of a [dict] from [str] to [str] *)

Definition dquote : ascii := "034"%char.

Definition hex_digit (n : N) : ascii :=
  if (n <? 10)%N then ascii_of_N (48 + n) else ascii_of_N (87 + n).

(** One character of a JSON string under [ensure_ascii]: the quote and the
    backslash are escaped, the five short escapes are used, and every other
    character outside [' ' .. '~'] is written as a [\u] escape. *)
Definition json_escape_char (c : ascii) : string :=
  let n := code c in
  if Ascii.eqb c dquote then String "\" (String dquote "")
  else if Ascii.eqb c "\" then "\\"
  else if (n =? 10)%N then "\n"
  else if (n =? 13)%N then "\r"
  else if (n =? 9)%N then "\t"
  else if (n =? 8)%N then "\b"
  else if (n =? 12)%N then "\f"
  else if in_range 32 126 c then String c ""
  else "\u00" ++ String (hex_digit (n / 16)) (String (hex_digit (n mod 16)) "").

Fixpoint json_escape (s : string) : string :=
  match s with
  | EmptyString => EmptyString
  | String c s' => json_escape_char c ++ json_escape s'
  end.

Definition json_string (s : string) : string :=
  String dquote (json_escape s) ++ String dquote "".

Definition json_dumps (d : list (string * string)) : string :=
  "{" ++ join ", " (List.map (fun kv => json_string kv.1 ++ ": " ++ json_string kv.2) d) ++ "}".

End PyStr.

(** ** Python numbers: [float(text)], [int(text)], [repr(float)] *)

Module PyFloat.
Import PyStr.

(** A binary64 number that is not a NaN: [DFin neg m e] is
    [(-1)^neg * m * 2^e], with [2^52 <= m < 2^53] and [-1074 <= e <= 971]
    for a normal number, [m < 2^52] and [e = -1074] for a subnormal one or
    zero. *)
Inductive double :=
  | DFin (neg : bool) (m e : Z)
  | DInf (neg : bool).

Inductive float_parse :=
  | FloatError            (* ValueError *)
  | FloatNaN
  | FloatVal (d : double).

(** [num / den] rounded to the nearest integer, ties to even. *)
Definition round_half_even (num den : Z) : Z :=
  let q := num / den in
  let r := num mod den in
  if 2 * r <? den then q
  else if den <? 2 * r then q + 1
  else if Z.even q then q else q + 1.

(** [2^d <= num / den] and [10^d <= num / den], for [0 < num], [0 < den]. *)
Definition ge_pow (b num den d : Z) : bool :=
  if 0 <=? d then den * b ^ d <=? num else den <=? num * b ^ (- d).

Definition floor_log2 (num den : Z) : Z :=
  let d := Z.log2 num - Z.log2 den in
  if ge_pow 2 num den d then d else d - 1.

(** The binary64 number nearest to [num / den] ([0 <= num], [0 < den]),
    ties to even, overflowing to infinity. *)
Definition nearest_double (neg : bool) (num den : Z) : double :=
  if num =? 0 then DFin neg 0 (-1074)
  else
    let e := Z.max (-1074) (floor_log2 num den - 52) in
    let m :=
      if 0 <=? e then round_half_even num (den * 2 ^ e)
      else round_half_even (num * 2 ^ (- e)) den in
    let '(m, e) := if m =? 2 ^ 53 then (2 ^ 52, e + 1) else (m, e) in
    if 971 <? e then DInf neg else DFin neg m e.

(** [n * 10^x] as a binary64 number. *)
Definition double_of_decimal (neg : bool) (n x : Z) : double :=
  if 0 <=? x then nearest_double neg (n * 10 ^ x) 1
  else nearest_double neg n (10 ^ (- x)).

Definition digit_val (c : ascii) : Z := Z.of_N (code c) - 48.

(** Reads a run of digits: the number read so far, how many digits were
    read, and the rest of the text. *)
Fixpoint read_digits (acc : Z) (cnt : nat) (s : string) : Z * nat * string :=
  match s with
  | String c s' =>
      if is_digit c then read_digits (10 * acc + digit_val c) (S cnt) s'
      else (acc, cnt, s)
  | EmptyString => (acc, cnt, s)
  end.

(** Underscores in a numeric literal: each one stands between two digits;
    the literal is then read without them. *)
Fixpoint underscores_ok (prev_digit : bool) (s : string) : bool :=
  match s with
  | EmptyString => true
  | String c s' =>
      if Ascii.eqb c "_" then
        prev_digit &&
        match s' with String d _ => is_digit d | EmptyString => false end &&
        underscores_ok false s'
      else underscores_ok (is_digit c) s'
  end.

Definition read_sign (s : string) : bool * string :=
  match s with
  | String "-" s' => (true, s')
  | String "+" s' => (false, s')
  | _ => (false, s)
  end.

(** The exponent part of a float literal, [None] when the text is not one. *)
Definition read_exponent (s : string) : option Z :=
  match s with
  | EmptyString => Some 0
  | String c s' =>
      if Ascii.eqb (lower_char c) "e" then
        let '(neg, s1) := read_sign s' in
        let '(x, cnt, rest) := read_digits 0 0 s1 in
        match cnt, rest with
        | S _, EmptyString => Some (if neg then - x else x)
        | _, _ => None
        end
      else None
  end.

(** [float(s)] for a [str]. *)
Definition py_float (s : string) : float_parse :=
  let t := strip s in
  if negb (underscores_ok false t) then FloatError
  else
    let '(neg, u) := read_sign (remove_char "_" t) in
    let lu := lower u in
    if String.eqb lu "inf" || String.eqb lu "infinity" then FloatVal (DInf neg)
    else if String.eqb lu "nan" then FloatNaN
    else
      let '(ip, icnt, r1) := read_digits 0 0 u in
      let '(n, fcnt, r2) :=
        match r1 with
        | String "." r => read_digits ip 0 r
        | _ => (ip, O, r1)
        end in
      match (icnt + fcnt)%nat with
      | O => FloatError
      | S _ =>
          match read_exponent r2 with
          | Some x => FloatVal (double_of_decimal neg n (x - Z.of_nat fcnt))
          | None => FloatError
          end
      end.

(** [int(s)] for a [str], [None] on ValueError.  CPython 3.11 refuses a
    text of more than 4300 digits (leading zeros counted, sign and
    underscores not) with ValueError. *)
Definition py_int (s : string) : option Z :=
  let t := strip s in
  if negb (underscores_ok false t) then None
  else
    let '(neg, u) := read_sign (remove_char "_" t) in
    let '(n, cnt, rest) := read_digits 0 0 u in
    match cnt, rest with
    | S _, EmptyString =>
        if (4300 <? cnt)%nat then None else Some (if neg then - n else n)
    | _, _ => None
    end.

(** *** [repr] of a binary64 number *)

(** The number of decimal digits of [n >= 1]. *)
Fixpoint ndigits_go (fuel : nat) (n : Z) : Z :=
  match fuel with
  | O => 0
  | S f => if n <? 10 then 1 else 1 + ndigits_go f (n / 10)
  end.

Definition ndigits (n : Z) : Z := ndigits_go (S (Z.to_nat (Z.log2 n))) n.

(** The largest [r] with [10^r <= num / den]. *)
Definition floor_log10 (num den : Z) : Z :=
  if den <=? num then ndigits (num / den) - 1
  else - ndigits ((den + num - 1) / num - 1).

(** The decimal with [nd] significant digits that reads back as [x] and is
    nearest to [x = num / den], when there is one: its digits and the power
    of ten they are scaled by. *)
Definition shortest_at (x : double) (num den nd : Z) : option (Z * Z) :=
  let k := floor_log10 num den - (nd - 1) in
  let '(snum, sden) :=
    if 0 <=? k then (num, den * 10 ^ k) else (num * 10 ^ (- k), den) in
  let lo := snum / sden in
  let r := snum mod sden in
  let hi := lo + 1 in
  let back c :=
    match double_of_decimal false c k, x with
    | DFin _ m1 e1, DFin _ m2 e2 => (m1 =? m2) && (e1 =? e2)
    | _, _ => false
    end in
  let lo_first :=
    if 2 * r <? sden then true
    else if sden <? 2 * r then false
    else Z.even lo in
  match back lo, back hi with
  | true, true => Some (if lo_first then lo else hi, k)
  | true, false => Some (lo, k)
  | false, true => Some (hi, k)
  | false, false => None
  end.

Fixpoint shortest_go (x : double) (num den : Z) (tries : nat) (nd : Z) : Z * Z :=
  match tries with
  | O => (0, 0)
  | S t =>
      match shortest_at x num den nd with
      | Some r => r
      | None => shortest_go x num den t (nd + 1)
      end
  end.

Fixpoint strip_zeros (fuel : nat) (d k : Z) : Z * Z :=
  match fuel with
  | O => (d, k)
  | S f => if (d mod 10 =? 0) && (0 <? d) then strip_zeros f (d / 10) (k + 1) else (d, k)
  end.

Definition zeros (n : Z) : string :=
  string_of_list_ascii (List.repeat "0"%char (Z.to_nat n)).

(** The text of a non-negative finite number from its shortest digits [ds]
    and the position [decpt] of the decimal point: fixed notation when
    [-4 < decpt <= 16], scientific otherwise. *)
Definition format_short (ds : string) (decpt : Z) : string :=
  let nd := Z.of_nat (String.length ds) in
  if (decpt <=? -4) || (16 <? decpt) then
    let x := decpt - 1 in
    let ax := str_of_Z (Z.abs x) in
    String.substring 0 1 ds ++
    (if 1 <? nd then "." ++ String.substring 1 (String.length ds - 1) ds else "") ++
    "e" ++ (if x <? 0 then "-" else "+") ++
    (if Z.abs x <? 10 then "0" else "") ++ ax
  else if decpt <=? 0 then "0." ++ zeros (- decpt) ++ ds
  else if nd <=? decpt then ds ++ zeros (decpt - nd) ++ ".0"
  else String.substring 0 (Z.to_nat decpt) ds ++ "." ++
       String.substring (Z.to_nat decpt) (String.length ds - Z.to_nat decpt) ds.

(** [repr(x)], which is also [str(x)]. *)
Definition repr (x : double) : string :=
  match x with
  | DInf neg => if neg then "-inf" else "inf"
  | DFin neg m e =>
      (if neg then "-" else "") ++
      if m =? 0 then "0.0"
      else
        let '(num, den) := if 0 <=? e then (m * 2 ^ e, 1) else (m, 2 ^ (- e)) in
        let '(d0, k0) := shortest_go (DFin false m e) num den 17 1 in
        let '(d, k) := strip_zeros 17 d0 k0 in
        let ds := str_of_Z d in
        format_short ds (k + Z.of_nat (String.length ds))
  end.

(** [a / b] for two ints, [0 <= a] and [0 < b]: the quotient, correctly
    rounded. *)
Definition int_truediv (a b : Z) : double := nearest_double false a b.

(** A float literal of the program text. *)
Definition float_literal (s : string) : double :=
  match py_float s with
  | FloatVal d => d
  | _ => DFin false 0 (-1074)
  end.

(** [x < y] *)
Definition double_ltb (x y : double) : bool :=
  match x, y with
  | DInf true, DInf true => false
  | DInf true, _ => true
  | _, DInf true => false
  | DInf false, _ => false
  | _, DInf false => true
  | DFin n1 m1 e1, DFin n2 m2 e2 =>
      let e := Z.min e1 e2 in
      let v1 := (if n1 then - m1 else m1) * 2 ^ (e1 - e) in
      let v2 := (if n2 then - m2 else m2) * 2 ^ (e2 - e) in
      v1 <? v2
  end.

(** [str(float(s))], [None] on ValueError. *)
Definition str_float (s : string) : option string :=
  match py_float s with
  | FloatError => None
  | FloatNaN => Some "nan"
  | FloatVal d => Some (repr d)
  end.

End PyFloat.

(** ** Frames *)

Module Frame.
Import PyStr PyFloat.

(** The value of a cell. *)
Inductive value :=
  | VNull
  | VStr (s : string)
  | VInt (z : Z)
  | VFloat (d : double)
  | VBool (b : bool).

(** [pd.isna(v)] and [pd.notna(v)] *)
Definition isna (v : value) : bool :=
  match v with VNull => true | _ => false end.

Definition notna (v : value) : bool := negb (isna v).

(** [str(v)].  The converter tests a cell for a missing value before it
    takes its text, so the text given to [VNull] is never looked at. *)
Definition py_str (v : value) : string :=
  match v with
  | VNull => "nan"
  | VStr s => s
  | VInt z => str_of_Z z
  | VFloat d => repr d
  | VBool b => if b then "True" else "False"
  end.

(** The truth value of a cell, as [if v:] and [not v] take it. *)
Definition truthy (v : value) : bool :=
  match v with
  | VNull => false
  | VStr s => negb (String.eqb s "")
  | VInt z => negb (z =? 0)
  | VFloat (DFin _ m _) => negb (m =? 0)
  | VFloat (DInf _) => true
  | VBool b => b
  end.

(** A frame: the length of its index and its columns, in order.  In a
    well-formed frame every column has [nrows] cells. *)
Record DataFrame := mkFrame {
  nrows : nat;
  columns : list (string * list value)
}.

(** A [dict] with string keys, in insertion order. *)
Fixpoint assoc {A} (k : string) (l : list (string * A)) : option A :=
  match l with
  | [] => None
  | (k', v) :: l' => if String.eqb k' k then Some v else assoc k l'
  end.

(** [d[k] = v]: the value of an existing key is replaced where it stands, a
    new key goes to the end. *)
Fixpoint assoc_set {A} (k : string) (v : A) (l : list (string * A)) : list (string * A) :=
  match l with
  | [] => [(k, v)]
  | (k', v') :: l' =>
      if String.eqb k' k then (k', v) :: l' else (k', v') :: assoc_set k v l'
  end.

Definition has_key {A} (k : string) (l : list (string * A)) : bool :=
  match assoc k l with Some _ => true | None => false end.

(** [df.columns], [c in df.columns], [df[c]], [df[c] = vs] *)
Definition names (df : DataFrame) : list string := (columns df).*1.

Definition has_col (c : string) (df : DataFrame) : bool := has_key c (columns df).

Definition col (c : string) (df : DataFrame) : list value :=
  default [] (assoc c (columns df)).

Definition set_col (c : string) (vs : list value) (df : DataFrame) : DataFrame :=
  mkFrame (nrows df) (assoc_set c vs (columns df)).

(** [df[c] = v] for a scalar [v] *)
Definition fill_col (c : string) (v : value) (df : DataFrame) : DataFrame :=
  set_col c (replicate (nrows df) v) df.

(** The cell of row [i] in column [c], and [df.at[i, c] = v]. *)
Definition cell (c : string) (i : nat) (df : DataFrame) : value :=
  default VNull (col c df !! i).

Definition set_at (i : nat) (c : string) (v : value) (df : DataFrame) : DataFrame :=
  set_col c (<[i := v]> (col c df)) df.

(** *** [df.iterrows()]

    A row is built from [df.values], whose dtype is the common dtype of the
    columns.  When every column is a column of integers (int64) or a column
    of floats (float64: floats and missing cells), and not all of them are
    columns of integers, the rows are rows of floats: an integer cell is
    read as the float nearest to it.  A column that holds a text, a
    boolean, or an integer outside int64 is a column of objects, and makes
    the rows rows of objects, which keep the cells as they are stored. *)
Definition is_text (v : value) : bool :=
  match v with VStr _ => true | _ => false end.

(** Some cell of the frame holds a text. *)
Definition has_text (df : DataFrame) : bool :=
  existsb (fun cv => existsb is_text cv.2) (columns df).

Definition int64_cell (v : value) : bool :=
  match v with VInt z => (- 2 ^ 63 <=? z) && (z <? 2 ^ 63) | _ => false end.

Definition float64_cell (v : value) : bool :=
  match v with VFloat _ | VNull => true | _ => false end.

Definition int64_column (vs : list value) : bool := forallb int64_cell vs.

Definition float64_column (vs : list value) : bool := forallb float64_cell vs.

Definition float_rows (df : DataFrame) : bool :=
  forallb (fun cv => int64_column cv.2 || float64_column cv.2) (columns df) &&
  negb (forallb (fun cv => int64_column cv.2) (columns df)).

(** [row[c]] for the row [i] that [df.iterrows()] yields. *)
Definition row_cell (c : string) (i : nat) (df : DataFrame) : value :=
  match cell c i df with
  | VInt z =>
      if float_rows df then VFloat (nearest_double (z <? 0) (Z.abs z) 1) else VInt z
  | v => v
  end.

(** [series.fillna(v)] *)
Definition fillna (v : value) (vs : list value) : list value :=
  List.map (fun x => if isna x then v else x) vs.

(** The rows a boolean mask keeps. *)
Fixpoint keep {A} (mask : list bool) (l : list A) : list A :=
  match mask, l with
  | b :: mask', x :: l' => if b then x :: keep mask' l' else keep mask' l'
  | _, _ => []
  end.

Definition count_true (mask : list bool) : nat :=
  length (List.filter id mask).

(** [df[mask]] *)
Definition select (mask : list bool) (df : DataFrame) : DataFrame :=
  mkFrame (count_true mask) (List.map (fun cv => (cv.1, keep mask cv.2)) (columns df)).

Definition row_mask (f : nat -> bool) (df : DataFrame) : list bool :=
  List.map f (seq 0 (nrows df)).

(** [df.dropna(how='all')]: a row stays when some column is not missing. *)
Definition dropna_all (df : DataFrame) : DataFrame :=
  select (row_mask (fun i => existsb (fun c => notna (cell c i df)) (names df)) df) df.

(** [df.dropna(subset=cs)] for columns [cs] of the frame: a row stays when
    none of them is missing. *)
Definition dropna_subset (cs : list string) (df : DataFrame) : DataFrame :=
  select (row_mask (fun i => forallb (fun c => notna (cell c i df)) cs) df) df.

End Frame.

(** ** The converter: methods that do not touch a frame *)

Module Converter.
Import PyStr PyFloat Frame.

Definition SALAAZ_REQUIRED_COLUMNS : list string :=
  ["name"; "description"; "price"; "brand"; "category_id"].

Definition SALAAZ_OPTIONAL_COLUMNS : list string :=
  ["sub_category_id"; "sub_sub_category_id"; "certification";
   "country_of_origin"; "details"; "care"; "size_fit";
   "variant_attributes"; "variant_quantity"; "image_urls"].

Definition ALL_SALAAZ_COLUMNS : list string :=
  SALAAZ_REQUIRED_COLUMNS ++ SALAAZ_OPTIONAL_COLUMNS.

(** A platform profile: target field to candidate source columns. *)
Definition profile := list (string * list string).

Definition PLATFORM_MAPPINGS : list (string * profile) :=
  [("shopify",
    [("name", ["Title"; "Product Title"; "title"]);
     ("description", ["Body (HTML)"; "Description"; "body_html"]);
     ("price", ["Variant Price"; "Price"; "price"]);
     ("brand", ["Vendor"; "Brand"; "vendor"]);
     ("variant_attributes",
      ["Option1 Name"; "Option1 Value"; "Option2 Name"; "Option2 Value"]);
     ("variant_quantity",
      ["Variant Inventory Qty"; "Inventory Quantity"; "inventory_quantity"]);
     ("image_urls", ["Image Src"; "Image URL"; "image_src"]);
     ("category_source", ["Product Category"; "Type"; "Tags"; "Category"])]);
   ("amazon",
    [("name", ["Product Name"; "Title"; "item-name"]);
     ("description", ["Product Description"; "Description"; "product-description"]);
     ("price", ["Price"; "Standard Price"; "standard-price"]);
     ("brand", ["Brand Name"; "Brand"; "brand-name"]);
     ("variant_attributes", ["Color"; "Size"; "Style"]);
     ("variant_quantity", ["Quantity"; "Stock Quantity"; "quantity"]);
     ("image_urls", ["Main Image URL"; "Image URL"; "main-image-url"]);
     ("category_source", ["Category"; "Product Type"; "Department"])]);
   ("woocommerce",
    [("name", ["Name"; "Product Name"; "post_title"]);
     ("description", ["Description"; "Product Description"; "post_content"]);
     ("price", ["Regular Price"; "Price"; "regular_price"]);
     ("brand", ["Brand"; "Manufacturer"; "brand"]);
     ("variant_attributes", ["Attribute 1 name"; "Attribute 1 value(s)"]);
     ("variant_quantity", ["Stock"; "Stock Quantity"; "stock"]);
     ("image_urls", ["Images"; "Gallery Images"; "images"]);
     ("category_source", ["Categories"; "Product categories"; "Category"])])].

(** *** [detect_platform] *)

(** The inner loops of [detect_platform]: the number of fields of a profile
    one of whose candidates, lowercased, is in [column_set]. *)
Definition field_hit (column_set : list string) (possible_columns : list string) : bool :=
  existsb (fun possible_col => mem (lower possible_col) column_set) possible_columns.

Definition profile_score (column_set : list string) (mappings : profile) : nat :=
  length (List.filter (fun f => field_hit column_set f.2) mappings).

(** [score / total_possible if total_possible > 0 else 0] *)
Definition score_of (column_set : list string) (mappings : profile) : double :=
  let score := profile_score column_set mappings in
  let total_possible := length mappings in
  match total_possible with
  | O => DFin false 0 (-1074)
  | S _ => int_truediv (Z.of_nat score) (Z.of_nat total_possible)
  end.

(** [max(items, key=...)]: the first item whose key no later one exceeds. *)
Fixpoint max_by_score (best : string * double) (l : list (string * double))
  : string * double :=
  match l with
  | [] => best
  | x :: l' => max_by_score (if double_ltb best.2 x.2 then x else best) l'
  end.

Definition scores (columns : list string) : list (string * double) :=
  let column_set := List.map lower columns in
  List.map (fun pm => (pm.1, score_of column_set pm.2)) PLATFORM_MAPPINGS.

Definition detect_platform (columns : list string) : option string :=
  match scores columns with
  | [] => None
  | x :: l =>
      let best_platform := max_by_score x l in
      if double_ltb (float_literal "0.3") best_platform.2
      then Some best_platform.1 else None
  end.

(** *** [suggest_mapping] *)

Definition keywords : list (string * list string) :=
  [("name", ["title"; "name"; "product"]);
   ("description", ["description"; "body"; "content"; "details"]);
   ("price", ["price"; "cost"; "amount"]);
   ("brand", ["brand"; "vendor"; "manufacturer"]);
   ("category_id", ["category"; "type"; "classification"]);
   ("variant_quantity", ["quantity"; "stock"; "inventory"; "qty"]);
   ("image_urls", ["image"; "photo"; "picture"; "url"]);
   ("category_source", ["category"; "type"; "tags"; "classification"; "department"])].

(** The first element of a list that passes a test. *)
Fixpoint first_such {A} (p : A -> bool) (l : list A) : option A :=
  match l with
  | [] => None
  | x :: l' => if p x then Some x else first_such p l'
  end.

(** The first result a function gives along a list. *)
Fixpoint first_some {A B} (f : A -> option B) (l : list A) : option B :=
  match l with
  | [] => None
  | x :: l' => match f x with Some y => Some y | None => first_some f l' end
  end.

Definition _fuzzy_match_column (target : string) (source_columns : list string)
  : option string :=
  let target_lower := lower target in
  match first_such (fun c => String.eqb (lower c) target_lower) source_columns with
  | Some c => Some c
  | None =>
  match first_such (fun c => contains target_lower (lower c) ||
                             contains (lower c) target_lower) source_columns with
  | Some c => Some c
  | None =>
  match assoc target keywords with
  | Some kws =>
      first_some (fun keyword =>
        first_such (fun c => contains keyword (lower c)) source_columns) kws
  | None => None
  end end end.

(** The platform part of [suggest_mapping]: for each field of the profile,
    the source column at the position where the first candidate found in
    [source_lower] stands. *)
Definition platform_pick (source_columns source_lower possible_columns : list string)
  : option string :=
  first_some (fun possible_col =>
    i ← index_of (lower possible_col) source_lower; source_columns !! i)
    possible_columns.

Definition suggest_platform (source_columns : list string) (platform_mappings : profile)
  : list (string * string) :=
  let source_lower := List.map lower source_columns in
  fold_left (fun mapping f =>
      match platform_pick source_columns source_lower f.2 with
      | Some original_col => assoc_set f.1 original_col mapping
      | None => mapping
      end) platform_mappings [].

Definition suggest_fallback (source_columns : list string) (mapping : list (string * string))
  : list (string * string) :=
  fold_left (fun mapping salaaz_field =>
      if has_key salaaz_field mapping then mapping
      else match _fuzzy_match_column salaaz_field source_columns with
           | Some best_match =>
               if String.eqb best_match "" then mapping
               else assoc_set salaaz_field best_match mapping
           | None => mapping
           end) ALL_SALAAZ_COLUMNS mapping.

Definition suggest_mapping (source_columns : list string) (platform : option string)
  : list (string * string) :=
  let mapping :=
    match platform with
    | Some p =>
        if negb (String.eqb p "") then
          match assoc p PLATFORM_MAPPINGS with
          | Some platform_mappings => suggest_platform source_columns platform_mappings
          | None => []
          end
        else []
    | None => []
    end in
  suggest_fallback source_columns mapping.

(** *** The category resolver *)

(** A row of a reference table as [_load_category_mappings] reads it with
    [pd.read_csv]: the columns the resolver reads.  The name is a text;
    [row_id] and [row_parent] are integers, [None] where the file has no
    value (the cell is then NaN).  Tables whose name column holds no text
    at all, on which the [.str] accessor of the exact stage fails, are not
    among them. *)
Record cat_row := mkRow {
  row_id : option Z;
  row_name : string;
  row_parent : option Z
}.

Inductive exn :=
  | KeyError (keys : list string)
  | ValueError
  | OverflowError.

Inductive outcome (A : Type) :=
  | Ok (a : A)
  | Raise (e : exn).
Arguments Ok {A} a.
Arguments Raise {A} e.

#[global] Instance outcome_ret : MRet outcome := @Ok.
#[global] Instance outcome_bind : MBind outcome := fun A B k o =>
  match o with
  | Ok a => k a
  | Raise e => Raise e
  end.

(** [parse_shopify_category] *)
Definition parse_shopify_category (category_string : value)
  : option string * option string * option string :=
  if negb (truthy category_string) || isna category_string then (None, None, None)
  else
    let parts := List.map strip (split " > " (py_str category_string)) in
    (parts !! 0%nat, parts !! 1%nat, parts !! 2%nat).

Definition keyword_mappings : list (string * list string) :=
  [("apparel", ["clothing"; "clothes"]);
   ("clothing", ["apparel"; "clothes"; "fashion"]);
   ("accessories", ["jewelry"; "jewellery"; "watches"]);
   ("traditional", ["ceremonial"; "cultural"]);
   ("health", ["beauty"; "wellness"]);
   ("home", ["house"; "living"; "decor"]);
   ("electronics", ["tech"; "digital"]);
   ("books", ["literature"; "reading"])].

(** [int(row[return_column])]: [int] of NaN raises ValueError. *)
Definition int_of_id (r : cat_row) : outcome (option Z) :=
  match row_id r with
  | Some z => Ok (Some z)
  | None => Raise ValueError
  end.

(** The three tests of [_find_best_match] on one row. *)
Definition exact_hit (search_term_lower : string) (r : cat_row) : bool :=
  String.eqb (lower (row_name r)) search_term_lower.

Definition partial_hit (search_term_lower : string) (r : cat_row) : bool :=
  let category_name := strip (lower (row_name r)) in
  contains category_name search_term_lower || contains search_term_lower category_name.

Definition keyword_hit (search_term_lower : string) (r : cat_row) : bool :=
  let category_name := strip (lower (row_name r)) in
  existsb (fun ks =>
      let keyword := ks.1 in
      let synonyms := (ks.2 ++ [keyword])%list in
      (contains keyword search_term_lower &&
       existsb (fun synonym => contains synonym category_name) synonyms) ||
      (contains keyword category_name &&
       existsb (fun synonym => contains synonym search_term_lower) synonyms))
    keyword_mappings.

Definition _find_best_match (search_term : string) (df : list cat_row)
  : outcome (option Z) :=
  match df with
  | [] => Ok None
  | _ :: _ =>
  if String.eqb search_term "" then Ok None
  else
    let search_term_lower := strip (lower search_term) in
    match first_such (exact_hit search_term_lower) df with
    | Some r => int_of_id r
    | None =>
    match first_such (partial_hit search_term_lower) df with
    | Some r => int_of_id r
    | None =>
    match first_such (keyword_hit search_term_lower) df with
    | Some r => int_of_id r
    | None => Ok None
    end end end
  end.

(** *** Cell clean-up *)

Definition keep_price_char (c : ascii) : bool :=
  is_digit c || Ascii.eqb c "." || Ascii.eqb c ",".

Definition _clean_price (price_value : value) : value :=
  if isna price_value then VNull
  else
    let price_str := strip (py_str price_value) in
    let price_str := sfilter keep_price_char price_str in
    let price_str :=
      if has_char "," price_str && has_char "." price_str then remove_char "," price_str
      else if has_char "," price_str then replace_char "," "." price_str
      else price_str in
    match str_float price_str with
    | Some t => VStr t
    | None => VNull
    end.

Definition url_separator (c : ascii) : bool :=
  Ascii.eqb c ";" || Ascii.eqb c "," || Ascii.eqb c "|" || (code c =? 10)%N.

Definition _clean_image_urls (image_value : value) : value :=
  if isna image_value then VNull
  else
    let image_str := strip (py_str image_value) in
    if String.eqb image_str "" then VNull
    else
      let urls := split_chars url_separator image_str in
      let clean_urls :=
        List.filter (fun url => negb (String.eqb url "") &&
                                (startswith "http" url || startswith "https" url))
                    (List.map strip urls) in
      match clean_urls with
      | [] => VNull
      | _ :: _ => VStr (join "," clean_urls)
      end.

(** The columns [_process_variant_attributes] reads, and the cell it
    writes for one row. *)
Definition variant_keywords : list string :=
  ["color"; "size"; "style"; "option"; "variant"; "attribute"].

Definition is_variant_column (c : string) : bool :=
  let col_lower := lower c in
  existsb (fun keyword => contains keyword col_lower) variant_keywords.

Definition attr_name_of (c : string) : string :=
  sfilter is_word (replace_char " " "_" (lower c)).

Definition row_attrs (source_df : DataFrame) (variant_columns : list string) (idx : nat)
  : list (string * string) :=
  fold_left (fun attrs c =>
      let value := row_cell c idx source_df in
      if notna value && negb (String.eqb (strip (py_str value)) "")
      then assoc_set (attr_name_of c) (strip (py_str value)) attrs
      else attrs) variant_columns [].

Definition variant_cell (source_df : DataFrame) (variant_columns : list string) (idx : nat)
  : value :=
  match row_attrs source_df variant_columns idx with
  | [] => VNull
  | attrs => VStr (json_dumps attrs)
  end.

(** ** The converter: methods over the store of frames

    A [DataFrame] of the program is an object: a variable holds a reference
    to it, and an assignment to a column or a cell changes the object every
    holder of the reference sees.  The store keeps the frames by reference;
    [df.copy()], [df[mask]], [df.dropna(...)] and [pd.DataFrame(...)] make a
    new object, [df[c] = ...] and [df.at[i, c] = ...] update one in place. *)

Definition ref := nat.

(** What [st.warning] shows. *)
Inductive warning :=
  | WColumnNotFound (category_column : string)
  | WMappingFailed (e : exn).

(** The converter instance: the reference tables [__init__] loaded, each
    [None] when its file was not there. *)
Record SalaazConverter := mkConverter {
  categories_df : option (list cat_row);
  sub_categories_df : option (list cat_row);
  sub_sub_categories_df : option (list cat_row)
}.

(** The converter instance, the frames allocated so far, and the warnings
    shown so far. *)
Record world := mkWorld {
  converter : SalaazConverter;
  frames : list DataFrame;
  shown : list warning
}.

Definition with_frames (fs : list DataFrame) (w : world) : world :=
  mkWorld (converter w) fs (shown w).

Definition with_shown (ws : list warning) (w : world) : world :=
  mkWorld (converter w) (frames w) ws.

(** A method: it runs in a world, ends normally or by raising, and leaves
    a world. *)
Definition M (A : Type) : Type := world -> outcome A * world.

Definition ret {A} (a : A) : M A := fun w => (Ok a, w).

Definition raise {A} (e : exn) : M A := fun w => (Raise e, w).

Definition bind {A B} (c : M A) (k : A -> M B) : M B :=
  fun w =>
    match c w with
    | (Ok a, w') => k a w'
    | (Raise e, w') => (Raise e, w')
    end.

(** [try: c  except Exception as e: h e] *)
Definition try_except {A} (c : M A) (h : exn -> M A) : M A :=
  fun w =>
    match c w with
    | (Ok a, w') => (Ok a, w')
    | (Raise e, w') => h e w'
    end.

Definition lift {A} (o : outcome A) : M A := fun w => (o, w).

(** [self.field] *)
Definition self {A} (field : SalaazConverter -> A) : M A :=
  fun w => (Ok (field (converter w)), w).

#[global] Instance M_ret : MRet M := @ret.
#[global] Instance M_bind : MBind M := fun A B k c => bind c k.

(** Reading a frame, making a new one, and updating one in place.  A
    reference always comes from [alloc] or from the caller, who holds it
    for a frame of the store. *)
Definition read (r : ref) : M DataFrame :=
  fun w => (Ok (default (mkFrame 0 []) (frames w !! r)), w).

Definition alloc (df : DataFrame) : M ref :=
  fun w => (Ok (length (frames w)), with_frames (frames w ++ [df])%list w).

Definition update (r : ref) (f : DataFrame -> DataFrame) : M unit :=
  fun w => (Ok tt, with_frames (alter f r (frames w)) w).

Definition st_warning (x : warning) : M unit :=
  fun w => (Ok tt, with_shown (shown w ++ [x])%list w).

Fixpoint for_each {A} (l : list A) (body : A -> M unit) : M unit :=
  match l with
  | [] => ret tt
  | x :: l' => body x;; for_each l' body
  end.

Definition nonempty (o : option string) : option string :=
  match o with
  | Some s => if String.eqb s "" then None else Some s
  | None => None
  end.

Definition id_truthy (o : option Z) : option Z :=
  match o with
  | Some z => if z =? 0 then None else Some z
  | None => None
  end.

Definition with_parent (p : Z) (df : list cat_row) : list cat_row :=
  List.filter (fun r => match row_parent r with Some q => q =? p | None => false end) df.

(** One of the two lower levels of [find_category_ids]: the table is
    filtered by the parent id when one was found. *)
Definition find_level (name : option string) (table : option (list cat_row))
    (parent : option Z) : outcome (option Z) :=
  match nonempty name, table with
  | Some n, Some df =>
      let filtered_df :=
        match id_truthy parent with
        | Some p => with_parent p df
        | None => df
        end in
      _find_best_match n filtered_df
  | _, _ => Ok None
  end.

Definition find_top (name : option string) (table : option (list cat_row))
  : outcome (option Z) :=
  match nonempty name, table with
  | Some n, Some df => _find_best_match n df
  | _, _ => Ok None
  end.

Definition find_category_ids (category_name sub_category_name sub_sub_category_name : option string)
  : M (option Z * option Z * option Z) :=
  cats ← self categories_df;
  category_id ← lift (find_top category_name cats);
  subs ← self sub_categories_df;
  sub_category_id ← lift (find_level sub_category_name subs category_id);
  subsubs ← self sub_sub_categories_df;
  sub_sub_category_id ← lift (find_level sub_sub_category_name subsubs sub_category_id);
  mret (category_id, sub_category_id, sub_sub_category_id).

(** [x if x else 1] for an id. *)
Definition id_or_1 (o : option Z) : value :=
  match id_truthy o with
  | Some z => VInt z
  | None => VInt 1
  end.

(** The body of the loop of [map_shopify_categories] for the row [idx] of
    the source frame [d]. *)
Definition map_row (d : DataFrame) (category_column : string) (result_df : ref)
    (idx : nat) : M unit :=
  let category_string := row_cell category_column idx d in
  let '(category, sub_category, sub_sub_category) :=
    parse_shopify_category category_string in
  '(category_id, sub_category_id, sub_sub_category_id) ←
    find_category_ids category sub_category sub_sub_category;
  update result_df (set_at idx "category_id" (id_or_1 category_id));;
  update result_df (set_at idx "sub_category_id" (id_or_1 sub_category_id));;
  update result_df (set_at idx "sub_sub_category_id" (id_or_1 sub_sub_category_id)).

Definition map_shopify_categories (df : ref) (category_column : string) : M ref :=
  d ← read df;
  result_df ← alloc d;
  update result_df (fill_col "category_id" VNull);;
  update result_df (fill_col "sub_category_id" VNull);;
  update result_df (fill_col "sub_sub_category_id" VNull);;
  if negb (has_col category_column d) then
    st_warning (WColumnNotFound category_column);;
    update result_df (fill_col "category_id" (VInt 1));;
    ret result_df
  else
    for_each (seq 0 (nrows d)) (map_row d category_column result_df);;
    ret result_df.

(** [result_df[c] = mapped_df[c]] when [mapped_df] has the column. *)
Definition copy_col (c : string) (mapped_df result_df : ref) : M unit :=
  m ← read mapped_df;
  if has_col c m then update result_df (set_col c (col c m)) else ret tt.

Definition _process_variant_attributes (result_df source_df : ref)
    (mapping : list (string * string)) : M ref :=
  s ← read source_df;
  let variant_columns := List.filter is_variant_column (names s) in
  match variant_columns with
  | [] => ret result_df
  | _ :: _ =>
      let variant_attrs := List.map (variant_cell s variant_columns) (seq 0 (nrows s)) in
      update result_df (set_col "variant_attributes" variant_attrs);;
      ret result_df
  end.

(** [df[c] = f(df[c])] when the frame has the column. *)
Definition map_col (c : string) (f : list value -> list value) (df : DataFrame) : DataFrame :=
  if has_col c df then set_col c (f (col c df)) df else df.

Definition _set_default_values (result_df : ref) : M ref :=
  update result_df (map_col "category_id" (fillna (VStr "1")));;
  update result_df (map_col "variant_quantity" (fillna (VStr "0")));;
  ret result_df.

(** The test of the required-field filter on one cell. *)
Definition filled (v : value) : bool :=
  notna v && negb (String.eqb (strip (py_str v)) "").

Definition required_mask (r : DataFrame) : list bool :=
  row_mask (fun i => filled (cell "name" i r) && filled (cell "description" i r)) r.

Definition _post_process_data (result_df source_df : ref)
    (mapping : list (string * string)) : M ref :=
  update result_df (map_col "price" (List.map _clean_price));;
  result_df ← _process_variant_attributes result_df source_df mapping;
  update result_df (map_col "image_urls" (List.map _clean_image_urls));;
  result_df ← _set_default_values result_df;
  r ← read result_df;
  result_df ←
    (if has_col "name" r && has_col "description" r
     then alloc (select (required_mask r) r)
     else ret result_df);
  r ← read result_df;
  alloc (dropna_all r).

(** The dictionary [result_data] of [transform_data]. *)
Definition init_result_data (n : nat) : list (string * list value) :=
  fold_left (fun result_data c => assoc_set c (replicate n VNull) result_data)
            ALL_SALAAZ_COLUMNS [].

Definition map_result_data (d : DataFrame) (mapping : list (string * string))
    (result_data : list (string * list value)) : list (string * list value) :=
  fold_left (fun result_data m =>
      if negb (String.eqb m.2 "") && has_col m.2 d
      then assoc_set m.1 (col m.2 d) result_data
      else result_data) mapping result_data.

(** [pd.DataFrame(result_data)]: [result_data] always has the fifteen
    target columns, each of the length of the source frame. *)
Definition frame_of_dict (n : nat) (result_data : list (string * list value)) : DataFrame :=
  mkFrame n result_data.

(** The profile of a platform, when [platform and platform in
    self.PLATFORM_MAPPINGS]. *)
Definition known_platform (platform : option string) : option profile :=
  p ← nonempty platform; assoc p PLATFORM_MAPPINGS.

(** The category step of [transform_data], for the source frame [d] that
    [df] refers to. *)
Definition category_step (df : ref) (d : DataFrame) (result_df : ref)
    (platform : option string) : M unit :=
  match known_platform platform with
  | Some pm =>
      let category_source_candidates := default [] (assoc "category_source" pm) in
      match nonempty (first_such (fun candidate => has_col candidate d)
                                 category_source_candidates) with
      | Some category_source_col =>
          try_except
            (mapped_df ← map_shopify_categories df category_source_col;
             copy_col "category_id" mapped_df result_df;;
             copy_col "sub_category_id" mapped_df result_df;;
             copy_col "sub_sub_category_id" mapped_df result_df)
            (fun e => st_warning (WMappingFailed e))
      | None => ret tt
      end
  | None => ret tt
  end.

Definition transform_data (df : ref) (mapping : list (string * string))
    (platform : option string) : M ref :=
  d ← read df;
  let result_data := map_result_data d mapping (init_result_data (nrows d)) in
  result_df ← alloc (frame_of_dict (nrows d) result_data);
  category_step df d result_df platform;;
  _post_process_data result_df df mapping.

(** *** [validate_salaaz_data] *)

Record report := mkReport {
  valid : bool;
  issues : list string;
  warnings : list string;
  total_rows : nat;
  complete_rows : nat
}.

Definition count_na (vs : list value) : nat := length (List.filter isna vs).

(** The issues one required column adds. *)
Definition column_issues (df : DataFrame) (c : string) : list string :=
  if negb (has_col c df) then ["Missing required column: " ++ c]
  else
    let missing_count := count_na (col c df) in
    match missing_count with
    | O => []
    | S _ => ["Column '" ++ c ++ "' has " ++ str_of_Z (Z.of_nat missing_count) ++
              " missing values"]
    end.

(** [float(price)] in the [try] of the price check: [Ok true] when it
    succeeds, [Ok false] on ValueError or TypeError, and OverflowError is
    not caught. *)
Definition float_check (v : value) : outcome bool :=
  match v with
  | VStr s => Ok (match py_float s with FloatError => false | _ => true end)
  | VInt z =>
      match nearest_double false (Z.abs z) 1 with
      | DInf _ => Raise OverflowError
      | DFin _ _ _ => Ok true
      end
  | VFloat _ | VBool _ => Ok true
  | VNull => Ok false
  end.

Definition int_check (v : value) : outcome bool :=
  match v with
  | VStr s => Ok (match py_int s with Some _ => true | None => false end)
  | VFloat (DInf _) => Raise OverflowError
  | VFloat (DFin _ _ _) | VInt _ | VBool _ => Ok true
  | VNull => Ok false
  end.

(** The number of cells a check refuses; an exception ends the count. *)
Fixpoint count_invalid (check : value -> outcome bool) (vs : list value) : outcome nat :=
  match vs with
  | [] => Ok O
  | v :: vs' =>
      match check v with
      | Raise e => Raise e
      | Ok b =>
          match count_invalid check vs' with
          | Raise e => Raise e
          | Ok n => Ok (if b then n else S n)
          end
      end
  end.

Definition format_warning (df : DataFrame) (c : string) (check : value -> outcome bool)
    (what : string) : M (list string) :=
  if has_col c df then
    n ← lift (count_invalid check (List.filter notna (col c df)));
    match n with
    | O => ret []
    | S _ => ret [str_of_Z (Z.of_nat n) ++ " rows have invalid " ++ what ++ " format"]
    end
  else ret [].

Definition validate_salaaz_data (df : ref) : M report :=
  d ← read df;
  let issues := flat_map (column_issues d) SALAAZ_REQUIRED_COLUMNS in
  w1 ← format_warning d "price" float_check "price";
  w2 ← format_warning d "category_id" int_check "category_id";
  let missing := List.filter (fun c => negb (has_col c d)) SALAAZ_REQUIRED_COLUMNS in
  complete ←
    match missing with
    | [] => ret (nrows (dropna_subset SALAAZ_REQUIRED_COLUMNS d))
    | _ :: _ => raise (KeyError missing)
    end;
  ret (mkReport (match issues with [] => true | _ => false end) issues
                (w1 ++ w2)%list (nrows d) complete).

End Converter.

(** ** What the frame methods compute

    The frame a run of [transform_data] returns, as a function of the
    converter, the source frame, the mapping and the platform.  The run
    lemmas below show that the methods compute these frames, and which
    objects of the store they touch. *)

Module Denotation.
Import PyStr PyFloat Frame Converter.

(** A world after a method has run in [w]: the frames [G] it made follow
    those of [w], the warnings [S] it showed follow those of [w]. *)
Definition grow (w : world) (G : list DataFrame) (S : list warning) : world :=
  mkWorld (converter w) (frames w ++ G) (shown w ++ S).

(** The ids [find_category_ids] returns under a converter. *)
Definition find_ids (c : SalaazConverter) (category sub_category sub_sub_category : option string)
  : outcome (option Z * option Z * option Z) :=
  i ← find_top category (categories_df c);
  j ← find_level sub_category (sub_categories_df c) i;
  k ← find_level sub_sub_category (sub_sub_categories_df c) j;
  mret (i, j, k).

(** The three cells [map_shopify_categories] writes for one row. *)
Definition row_ids (c : SalaazConverter) (d : DataFrame) (category_column : string)
    (idx : nat) : outcome (value * value * value) :=
  let '(category, sub_category, sub_sub_category) :=
    parse_shopify_category (row_cell category_column idx d) in
  '(i, j, k) ← find_ids c category sub_category sub_sub_category;
  mret (id_or_1 i, id_or_1 j, id_or_1 k).

Definition set_ids (idx : nat) (ids : value * value * value) (r : DataFrame) : DataFrame :=
  set_at idx "sub_sub_category_id" ids.2
    (set_at idx "sub_category_id" ids.1.2
      (set_at idx "category_id" ids.1.1 r)).

(** The loop of [map_shopify_categories] over the rows [idxs], on the copy
    [r]: how it ends and the copy it leaves. *)
Fixpoint map_rows (c : SalaazConverter) (d : DataFrame) (category_column : string)
    (idxs : list nat) (r : DataFrame) : outcome unit * DataFrame :=
  match idxs with
  | [] => (Ok tt, r)
  | idx :: rest =>
      match row_ids c d category_column idx with
      | Ok ids => map_rows c d category_column rest (set_ids idx ids r)
      | Raise e => (Raise e, r)
      end
  end.

Definition blank_ids (d : DataFrame) : DataFrame :=
  fill_col "sub_sub_category_id" VNull
    (fill_col "sub_category_id" VNull (fill_col "category_id" VNull d)).

Definition mapped (c : SalaazConverter) (d : DataFrame) (category_column : string)
  : outcome unit * DataFrame :=
  map_rows c d category_column (seq 0 (nrows d)) (blank_ids d).

Definition result0 (d : DataFrame) (mapping : list (string * string)) : DataFrame :=
  frame_of_dict (nrows d) (map_result_data d mapping (init_result_data (nrows d))).

(** The category source column [transform_data] settles on. *)
Definition category_source_col (d : DataFrame) (platform : option string) : option string :=
  pm ← known_platform platform;
  nonempty (first_such (fun candidate => has_col candidate d)
                       (default [] (assoc "category_source" pm))).

Definition copy_from (c : string) (m r : DataFrame) : DataFrame :=
  if has_col c m then set_col c (col c m) r else r.

Definition copy_ids (m r : DataFrame) : DataFrame :=
  copy_from "sub_sub_category_id" m
    (copy_from "sub_category_id" m (copy_from "category_id" m r)).

(** [result_df] when [_post_process_data] is called. *)
Definition with_categories (c : SalaazConverter) (d : DataFrame)
    (mapping : list (string * string)) (platform : option string) : DataFrame :=
  match category_source_col d platform with
  | Some category_column =>
      match mapped c d category_column with
      | (Ok _, m) => copy_ids m (result0 d mapping)
      | (Raise _, _) => result0 d mapping
      end
  | None => result0 d mapping
  end.

Definition variant_columns (s : DataFrame) : list string :=
  List.filter is_variant_column (names s).

Definition with_variants (s r : DataFrame) : DataFrame :=
  match variant_columns s with
  | [] => r
  | _ :: _ =>
      set_col "variant_attributes"
        (List.map (variant_cell s (variant_columns s)) (seq 0 (nrows s))) r
  end.

Definition with_defaults (r : DataFrame) : DataFrame :=
  map_col "variant_quantity" (fillna (VStr "0"))
    (map_col "category_id" (fillna (VStr "1")) r).

(** [result_df] before the rows are filtered. *)
Definition cleaned (s r : DataFrame) : DataFrame :=
  with_defaults
    (map_col "image_urls" (List.map _clean_image_urls)
      (with_variants s (map_col "price" (List.map _clean_price) r))).

Definition required_rows (r : DataFrame) : DataFrame :=
  if has_col "name" r && has_col "description" r
  then select (required_mask r) r else r.

Definition transform_frame (c : SalaazConverter) (d : DataFrame)
    (mapping : list (string * string)) (platform : option string) : DataFrame :=
  dropna_all (required_rows (cleaned d (with_categories c d mapping platform))).

(** The frames [_post_process_data] leaves: [result_df] cleaned in place,
    then the frame of the rows that pass the required-field filter, then
    its copy without the empty rows, which is returned. *)
Definition post_frames (s r : DataFrame) : list DataFrame :=
  let c := cleaned s r in
  if has_col "name" c && has_col "description" c
  then [select (required_mask c) c; dropna_all (select (required_mask c) c)]
  else [dropna_all c].


(** A frame is rectangular: every column has one cell per row. *)
Definition rectangular (df : DataFrame) : Prop :=
  Forall (fun cv => length cv.2 = nrows df) (columns df).


(** A frame of the pipeline: rectangular, with the rows of the source
    frame, and with the column [c]. *)
Definition shaped (n : nat) (c : string) (r : DataFrame) : Prop :=
  rectangular r /\ nrows r = n /\ has_col c r = true.


Definition id_shaped (n : nat) (r : DataFrame) : Prop :=
  shaped n "category_id" r /\ shaped n "sub_category_id" r /\
  shaped n "sub_sub_category_id" r.


(** The column [variant_attributes] before the rows are filtered. *)
Definition variant_source (d : DataFrame) (mapping : list (string * string)) (i : nat) : value :=
  match variant_columns d with
  | [] => cell "variant_attributes" i (result0 d mapping)
  | _ :: _ => variant_cell d (variant_columns d) i
  end.

(** The rows of the source frame [transform_data] keeps: those whose name
    and description, as the mapping copies them, are present and not
    blank. *)
Definition kept_rows (d : DataFrame) (mapping : list (string * string)) : list nat :=
  List.filter (fun i => filled (cell "name" i (result0 d mapping)) &&
                        filled (cell "description" i (result0 d mapping)))
              (seq 0 (nrows d)).

End Denotation.

(** ** The rules as the specification words them *)

Module Stated.
Import PyStr PyFloat Frame Converter.

(** The price rules as the specification words them, on the text of a
    cell. *)
Definition price_by_the_rules (text : string) : value :=
  let kept := sfilter keep_price_char text in
  let has_comma := has_char "," kept in
  let has_dot := has_char "." kept in
  let number :=
    if has_comma && has_dot then remove_char "," kept
    else if has_comma && negb has_dot then replace_char "," "." kept
    else kept in
  match str_float number with
  | Some t => VStr t
  | None => VNull
  end.


(** A target field of a profile is covered by the source columns when one
    of its synonyms equals one of the columns, case put aside. *)
Definition covered (columns : list string) (field : string * list string) : bool :=
  existsb (fun synonym =>
    existsb (fun column => String.eqb (lower column) (lower synonym)) columns) field.2.

(** The score of a profile: covered fields over all its fields. *)
Definition coverage (columns : list string) (mappings : profile) : Q :=
  Z.of_nat (length (List.filter (covered columns) mappings)) #
  Pos.of_nat (length mappings).

(** A column name that contains color, size, style, option, variant or
    attribute, case put aside. *)
Definition variant_named (column : string) : bool :=
  existsb (fun word => contains word (lower column))
          ["color"; "size"; "style"; "option"; "variant"; "attribute"].

(** The variant attributes of the row [i] of a source table as the
    specification words them: over the columns named like a variant, the
    pairs of the sanitized name (lowercased, spaces to underscores,
    non-word characters dropped) and the trimmed value of the cell, empty
    values skipped; their JSON object, or null when there is none. *)
Definition attributes_by_the_rules (d : DataFrame) (i : nat) : value :=
  let pairs :=
    fold_left (fun pairs column =>
        let text := strip (py_str (cell column i d)) in
        if isna (cell column i d) || String.eqb text "" then pairs
        else assoc_set (sfilter is_word (replace_char " " "_" (lower column))) text pairs)
      (List.filter variant_named (names d)) [] in
  match pairs with
  | [] => VNull
  | _ :: _ => VStr (json_dumps pairs)
  end.

End Stated.

(** ** Shapes of cells, frames and mappings

    Predicates the further properties are stated with. *)
Module Observed.
Import PyStr PyFloat Frame Converter Denotation.
Local Open Scope list_scope.

(** The three id columns [map_shopify_categories] writes. *)
Definition id_columns : list string :=
  ["category_id"; "sub_category_id"; "sub_sub_category_id"].

(** A cell that holds an id: an integer that is not 0. *)
Definition is_id (v : value) : Prop := exists z, v = VInt z /\ z <> 0%Z.

(** A key of the mapping whose source column the frame has. *)
Definition mapped_key (d : DataFrame) (mapping : list (string * string)) (k : string) : Prop :=
  exists src, In (k, src) mapping /\ src <> "" /\ has_col src d = true.

(** A string of [k] dots. *)
Fixpoint dots (k : nat) : string :=
  match k with
  | O => ""
  | S k' => String "." (dots k')
  end.

(** A cell that is missing or holds text. *)
Definition null_or_text (v : value) : Prop := v = VNull \/ exists t, v = VStr t.

(** A cell that is missing or holds a text that begins with http. *)
Definition null_or_urls (v : value) : Prop :=
  v = VNull \/ exists t, v = VStr t /\ startswith "http" t = true.

(** A cell that holds an infinite float. *)
Definition is_inf (v : value) : bool :=
  match v with VFloat (DInf _) => true | _ => false end.

(** A frame none of whose cells holds an infinite float. *)
Definition no_inf (d : DataFrame) : Prop :=
  Forall (fun cv => Forall (fun v => is_inf v = false) cv.2) (columns d).

(** A warning of a failed category mapping. *)
Definition mapping_failure (x : warning) : Prop :=
  match x with WMappingFailed _ => True | WColumnNotFound _ => False end.

End Observed.

(** ** Concrete tables *)

Module Scenario.
Import PyStr PyFloat Frame Converter.

Definition shirt_columns : list string :=
  ["Title"; "Body (HTML)"; "Vendor"; "Variant Price"; "Product Category"].

Definition shirt : DataFrame :=
  mkFrame 1 [("Title", [VStr "Shirt"]); ("Body (HTML)", [VStr "Nice"]);
             ("Vendor", [VStr "Acme"]); ("Variant Price", [VStr "$9.99"]);
             ("Product Category", [VStr "Apparel > Shirts"])].

Definition shirt_mapping : list (string * string) :=
  suggest_mapping shirt_columns (Some "shopify").

Definition no_tables : SalaazConverter := mkConverter None None None.

Definition shirt_world : world := mkWorld no_tables [shirt] [].

(** The row of the end-to-end scenario, with [id] in its two category
    cells. *)
Definition shirt_row (id : value) (out : DataFrame) : Prop :=
  nrows out = 1%nat /\
  col "name" out = [VStr "Shirt"] /\
  col "description" out = [VStr "Nice"] /\
  col "brand" out = [VStr "Acme"] /\
  col "price" out = [VStr "9.99"] /\
  col "category_id" out = [id] /\
  col "sub_category_id" out = [id].

End Scenario.

Module VariantScenario.
Import PyStr PyFloat Frame Converter.

Definition extras : DataFrame :=
  mkFrame 1 [("Title", [VStr "Shirt"]); ("Body", [VStr "Nice"]);
             ("Extras", [VStr "blue"])].

Definition extras_mapping : list (string * string) :=
  [("name", "Title"); ("description", "Body"); ("variant_attributes", "Extras")].

Definition extras_world : world := mkWorld (mkConverter None None None) [extras] [].

End VariantScenario.


Module ValidateScenario.
Import PyStr PyFloat Frame Converter.

(** A table with four of the five required columns. *)
Definition no_category : DataFrame :=
  mkFrame 1 [("name", [VStr "Shirt"]); ("description", [VStr "Nice"]);
             ("price", [VStr "9.99"]); ("brand", [VStr "Acme"])].

Definition no_category_world : world :=
  mkWorld (mkConverter None None None) [no_category] [].

End ValidateScenario.

Module MatchScenario.
Import PyStr PyFloat Frame Converter.

Definition padded_table : list cat_row :=
  [mkRow (Some 1) "App" None; mkRow (Some 2) " Apparel " None].

Definition spaced_table : list cat_row :=
  [mkRow (Some 1) "app" None; mkRow (Some 2) " apparel" None].

End MatchScenario.

(** A converter with two levels of reference tables. *)
Module TreeScenario.
Import PyStr PyFloat Frame Converter.

Definition tree : SalaazConverter :=
  mkConverter
    (Some [mkRow (Some 1) "Apparel" None; mkRow (Some 2) "Home" None])
    (Some [mkRow (Some 10) "Shirts" (Some 2); mkRow (Some 11) "Shirts" (Some 1)])
    None.

Definition tree_world : world := mkWorld tree [] [].

End TreeScenario.

Module ReportScenario.
Import PyStr PyFloat Frame Converter.

(** A table with the five required columns, the brand of its second row
    missing. *)
Definition listing : DataFrame :=
  mkFrame 2 [("name", [VStr "Shirt"; VStr "Mug"]);
             ("description", [VStr "Nice"; VStr "Big"]);
             ("price", [VStr "9.99"; VStr "4.5"]);
             ("brand", [VStr "Acme"; VNull]);
             ("category_id", [VInt 1; VInt 2])].

Definition listing_world : world :=
  mkWorld (mkConverter None None None) [listing] [].

End ReportScenario.

Import PyStr PyFloat Frame Converter Denotation Stated.
Import Scenario VariantScenario ValidateScenario MatchScenario.

(** * Properties *)

(** ** The model on the examples of the specification *)

Example lower_ex : PyStr.lower "Body (HTML)" = "body (html)".
Proof. reflexivity. Qed.

Example strip_ex : PyStr.strip "  a b 	" = "a b".
Proof. reflexivity. Qed.

Example split_ex : PyStr.split " > " "A > B >  > C >" = ["A"; "B"; ""; "C >"].
Proof. reflexivity. Qed.

Example json_ex :
  PyStr.json_dumps [("a_b", "x\y"); ("c", "")] =
  let q := String PyStr.dquote "" in
  "{" ++ q ++ "a_b" ++ q ++ ": " ++ q ++ "x\\y" ++ q ++ ", " ++
  q ++ "c" ++ q ++ ": " ++ q ++ q ++ "}".
Proof. reflexivity. Qed.

Example iterrows_ex :
  py_str (row_cell "Size" 0 (mkFrame 1 [("Size", [VInt 42]); ("Weight", [VNull])])) = "42.0" /\
  py_str (row_cell "Size" 0 (mkFrame 1 [("Size", [VInt 42]); ("Stock", [VInt 7])])) = "42" /\
  py_str (row_cell "Size" 0 (mkFrame 1 [("Size", [VInt 42]); ("Title", [VStr "Shirt"])])) = "42".
Proof. by vm_compute. Qed.

Example int_limit_ex :
  py_int "0042" = Some 42 /\
  py_int (String.concat "" (repeat "1" 4301)) = None.
Proof. by vm_compute. Qed.

Example parse_ex :
  parse_shopify_category (VStr "A > B > C") = (Some "A", Some "B", Some "C") /\
  parse_shopify_category (VStr "A") = (Some "A", None, None) /\
  parse_shopify_category (VStr "") = (None, None, None) /\
  parse_shopify_category VNull = (None, None, None).
Proof. by vm_compute. Qed.

Example image_ex :
  _clean_image_urls (VStr "http://a.jpg; ftp://b.jpg,http://c.jpg") =
  VStr "http://a.jpg,http://c.jpg".
Proof. by vm_compute. Qed.

Example detect_ex :
  detect_platform shirt_columns = Some "shopify" /\
  detect_platform ["Title"; "Price"] = None /\
  detect_platform ["Description"; "Price"; "Brand"; "Category"] = Some "shopify".
Proof. by vm_compute. Qed.

Example suggest_ex :
  shirt_mapping =
  [("name", "Title"); ("description", "Body (HTML)"); ("price", "Variant Price");
   ("brand", "Vendor"); ("category_source", "Product Category");
   ("category_id", "Product Category")].
Proof. by vm_compute. Qed.

Example best_match_ex :
  _find_best_match "Clothing" [mkRow (Some 7) "Apparel & Accessories" None] = Ok (Some 7) /\
  _find_best_match "Toys" [mkRow (Some 7) "Apparel & Accessories" None] = Ok None /\
  _find_best_match "Toys" [] = Ok None.
Proof. by vm_compute. Qed.

Example str_float_ex :
  List.map PyFloat.str_float
    ["9.99"; "1234.56"; "19.99"; ""; "100"; "0.1"; "1234.50"; ".5"; "5."; ".";
     "1.2.3"; "123456789012345678"; "10000000000000000"; "0.00001"; "0.0001";
     "1e16"; "1_000"; " -2.5e-3 "; "0"; "9007199254740993"; "4.9e-324"; "2e-324";
     "1.7976931348623157e308"; "1.7976931348623159e308"; "1e23"; "0.3";
     "5e-324"; "2.2250738585072014e-308"; "123456789.123456789"; "1e22"; "inf"; "1_"] =
  [Some "9.99"; Some "1234.56"; Some "19.99"; None; Some "100.0"; Some "0.1";
   Some "1234.5"; Some "0.5"; Some "5.0"; None; None;
   Some "1.2345678901234568e+17"; Some "1e+16"; Some "1e-05"; Some "0.0001";
   Some "1e+16"; Some "1000.0"; Some "-0.0025"; Some "0.0";
   Some "9007199254740992.0"; Some "5e-324"; Some "0.0";
   Some "1.7976931348623157e+308"; Some "inf"; Some "1e+23"; Some "0.3";
   Some "5e-324"; Some "2.2250738585072014e-308"; Some "123456789.12345679";
   Some "1e+22"; Some "inf"; None].
Proof. vm_compute. reflexivity. Qed.

(** ** Strings *)

Section StringFacts.

Lemma sfilter_lstrip p s :
  (forall c, is_space c = true -> p c = false) ->
  sfilter p (lstrip s) = sfilter p s.
Proof.
  intros Hp. induction s as [|c s IH]; simpl; [done|].
  destruct (is_space c) eqn:Hc; simpl; [|done].
  by rewrite (Hp c Hc).
Qed.

Lemma sfilter_rstrip p s :
  (forall c, is_space c = true -> p c = false) ->
  sfilter p (rstrip s) = sfilter p s.
Proof.
  intros Hp. induction s as [|c s IH]; simpl; [done|].
  destruct (is_space c) eqn:Hc; simpl.
  - rewrite (Hp c Hc). destruct (String.eqb_spec (rstrip s) "") as [He|He]; simpl.
    + by rewrite <- IH, He.
    + by rewrite (Hp c Hc).
  - by rewrite IH.
Qed.

Lemma sfilter_strip p s :
  (forall c, is_space c = true -> p c = false) ->
  sfilter p (strip s) = sfilter p s.
Proof.
  intros Hp. unfold strip. by rewrite sfilter_rstrip, sfilter_lstrip.
Qed.

Lemma space_not_kept c : is_space c = true -> keep_price_char c = false.
Proof.
  destruct c as [[] [] [] [] [] [] [] []]; vm_compute; congruence.
Qed.

End StringFacts.


(** ** Dictionaries *)

Section Dicts.
Context {A : Type}.
Implicit Types (l : list (string * A)) (k : string) (v : A).

Lemma assoc_set_keys k v l x :
  In x (assoc_set k v l).*1 -> x = k \/ In x l.*1.
Proof.
  induction l as [|[k' v'] l IH]; simpl.
  - intros [<-|[]]. by left.
  - destruct (String.eqb k' k); simpl; intros [<-|H]; auto.
    destruct (IH H); auto.
Qed.

Lemma assoc_set_same k v l : assoc k (assoc_set k v l) = Some v.
Proof.
  induction l as [|[k' v'] l IH]; simpl.
  - by rewrite String.eqb_refl.
  - destruct (String.eqb k' k) eqn:E; simpl; by rewrite E.
Qed.

Lemma assoc_set_other k k' v l : k' <> k -> assoc k' (assoc_set k v l) = assoc k' l.
Proof.
  intros Hne. induction l as [|[k0 v0] l IH]; simpl.
  - destruct (String.eqb_spec k k'); [congruence|done].
  - destruct (String.eqb_spec k0 k) as [->|]; simpl.
    + destruct (String.eqb_spec k k'); [congruence|done].
    + by rewrite IH.
Qed.

Lemma assoc_In k v l : assoc k l = Some v -> In k l.*1.
Proof.
  induction l as [|[k' v'] l IH]; simpl; [done|].
  destruct (String.eqb_spec k' k); auto.
Qed.

End Dicts.


(** ** Frames *)

Section Frames.
Local Open Scope nat_scope.
Local Open Scope list_scope.
Implicit Types (df r : DataFrame) (c : string) (vs : list value) (mask : list bool).

Lemma has_key_set {A} k k' (v : A) l :
  has_key k' (assoc_set k v l) = String.eqb k k' || has_key k' l.
Proof.
  unfold has_key. destruct (String.eqb_spec k k') as [->|Hne].
  - by rewrite assoc_set_same.
  - by rewrite assoc_set_other.
Qed.

Lemma assoc_set_Forall {A} (P : string * A -> Prop) k (v : A) l :
  Forall P l -> (forall k', P (k', v)) -> Forall P (assoc_set k v l).
Proof.
  intros Hl Hv. induction Hl as [|[k' v'] l Hx Hl IH]; simpl.
  - by constructor.
  - destruct (String.eqb k' k); constructor; auto.
Qed.

Lemma assoc_Forall {A} (P : string * A -> Prop) k (v : A) l :
  Forall P l -> assoc k l = Some v -> P (k, v).
Proof.
  induction 1 as [|[k' v'] l Hx Hl IH]; simpl; [done|].
  destruct (String.eqb_spec k' k) as [->|]; [by intros [= <-]|done].
Qed.

Lemma has_col_set_col c c' vs df :
  has_col c' (set_col c vs df) = String.eqb c c' || has_col c' df.
Proof. apply has_key_set. Qed.

Lemma col_set_col_same c vs df : col c (set_col c vs df) = vs.
Proof. unfold col, set_col; simpl. by rewrite assoc_set_same. Qed.

Lemma col_set_col_other c c' vs df : c' <> c -> col c' (set_col c vs df) = col c' df.
Proof. intros H. unfold col, set_col; simpl. by rewrite assoc_set_other. Qed.

Lemma rectangular_set_col c vs df :
  rectangular df -> length vs = nrows df -> rectangular (set_col c vs df).
Proof. intros Hdf Hvs. by apply assoc_set_Forall. Qed.

Lemma rectangular_col c df :
  rectangular df -> has_col c df = true -> length (col c df) = nrows df.
Proof.
  unfold has_col, has_key, col. intros Hdf Hc.
  destruct (assoc c (columns df)) as [vs|] eqn:E; [|done].
  exact (assoc_Forall _ _ _ _ Hdf E).
Qed.

Lemma rectangular_fill_col c v df : rectangular df -> rectangular (fill_col c v df).
Proof. intros H. apply rectangular_set_col; [done|]. apply length_replicate. Qed.

Lemma rectangular_set_at i c v df : rectangular df -> has_col c df = true ->
  rectangular (set_at i c v df).
Proof.
  intros H Hc. apply rectangular_set_col; [done|].
  rewrite length_insert. by apply rectangular_col.
Qed.

Lemma has_col_map_col c c' f df : has_col c' (map_col c f df) = has_col c' df.
Proof.
  unfold map_col. destruct (has_col c df) eqn:E; [|done].
  rewrite has_col_set_col. destruct (String.eqb_spec c c') as [<-|]; [by rewrite E|done].
Qed.

Lemma col_map_col_same c f df :
  has_col c df = true -> col c (map_col c f df) = f (col c df).
Proof. intros E. unfold map_col. rewrite E. apply col_set_col_same. Qed.

Lemma col_map_col_other c c' f df : c' <> c -> col c' (map_col c f df) = col c' df.
Proof.
  intros H. unfold map_col. destruct (has_col c df); [|done]. by apply col_set_col_other.
Qed.

Lemma nrows_map_col c f df : nrows (map_col c f df) = nrows df.
Proof. unfold map_col. by destruct (has_col c df). Qed.

Lemma rectangular_map_col c f df :
  (forall vs, length (f vs) = length vs) ->
  rectangular df -> rectangular (map_col c f df).
Proof.
  intros Hf H. unfold map_col. destruct (has_col c df) eqn:E; [|done].
  apply rectangular_set_col; [done|]. rewrite Hf. by apply rectangular_col.
Qed.

(** *** Row selection *)

Lemma keep_nil {A} mask : keep mask (@nil A) = [].
Proof. by destruct mask. Qed.

Lemma keep_map {A B} (f : A -> B) mask (l : list A) :
  keep mask (List.map f l) = List.map f (keep mask l).
Proof.
  revert l; induction mask as [|b mask IH]; intros [|x l]; simpl; try done.
  destruct b; simpl; by rewrite IH.
Qed.

Lemma keep_length {A} mask (l : list A) :
  length mask = length l -> length (keep mask l) = count_true mask.
Proof.
  unfold count_true.
  revert l; induction mask as [|b mask IH]; intros [|x l]; simpl; try done.
  intros [= H]. destruct b; simpl; by rewrite IH.
Qed.

Lemma keep_sublist {A} mask (l : list A) : sublist (keep mask l) l.
Proof.
  revert l; induction mask as [|b mask IH]; intros [|x l]; simpl;
    try apply sublist_nil_l.
  destruct b; [by apply sublist_skip|by apply sublist_cons].
Qed.

Lemma keep_Forall {A} (P : A -> Prop) mask (l : list A) :
  Forall P l -> Forall P (keep mask l).
Proof.
  intros H. revert mask. induction H as [|x l Hx Hl IH]; intros [|b mask]; simpl;
    try constructor.
  destruct b; [constructor|]; auto.
Qed.

Lemma assoc_map_keep k mask (l : list (string * list value)) :
  assoc k (List.map (fun cv => (cv.1, keep mask cv.2)) l) = keep mask <$> assoc k l.
Proof.
  induction l as [|[k' v] l IH]; simpl; [done|].
  destruct (String.eqb k' k); [done|apply IH].
Qed.

Lemma col_select c mask df : col c (select mask df) = keep mask (col c df).
Proof.
  unfold col, select; simpl. rewrite assoc_map_keep.
  destruct (assoc c (columns df)); simpl; [done|by rewrite keep_nil].
Qed.

Lemma has_col_select c mask df : has_col c (select mask df) = has_col c df.
Proof.
  unfold has_col, has_key, select; simpl. rewrite assoc_map_keep.
  by destruct (assoc c (columns df)).
Qed.

Lemma rectangular_select mask df :
  rectangular df -> length mask = nrows df -> rectangular (select mask df).
Proof.
  unfold rectangular, select; simpl. intros H Hm.
  apply Forall_map. eapply Forall_impl; [exact H|].
  intros [c vs] Hvs; simpl in *. apply keep_length. congruence.
Qed.

Lemma row_mask_length f df : length (row_mask f df) = nrows df.
Proof. unfold row_mask. by rewrite length_map, length_seq. Qed.

Lemma rectangular_dropna_all df : rectangular df -> rectangular (dropna_all df).
Proof. intros H. apply rectangular_select; [done|apply row_mask_length]. Qed.

Lemma rectangular_required_rows df : rectangular df -> rectangular (required_rows df).
Proof.
  intros H. unfold required_rows.
  destruct (_ && _); [|done]. apply rectangular_select; [done|apply row_mask_length].
Qed.

End Frames.

(** ** Running the methods *)

Section Run.
Local Open Scope nat_scope.
Local Open Scope list_scope.

(** The primitives of [M] on a world that has grown by the frames [G]:
    a reference below [length (frames w)] is to a frame of [w], the
    reference [length (frames w) + i] to the new frame [G !! i]. *)
Lemma grow_nil w : grow w [] [] = w.
Proof. destruct w; unfold grow; simpl. by rewrite !app_nil_r. Qed.

Lemma grow_grow w G S G' S' : grow (grow w G S) G' S' = grow w (G ++ G') (S ++ S').
Proof. unfold grow; simpl. by rewrite !app_assoc. Qed.

Lemma run_bind {A B} (c : M A) (k : A -> M B) w :
  (c ≫= k) w =
  match c w with
  | (Ok a, w') => k a w'
  | (Raise e, w') => (Raise e, w')
  end.
Proof. reflexivity. Qed.

Lemma run_ret {A} (a : A) w : mret (M := M) a w = (Ok a, w).
Proof. reflexivity. Qed.

Lemma read_old w G S l d :
  frames w !! l = Some d -> read l (grow w G S) = (Ok d, grow w G S).
Proof.
  intros H. unfold read, grow; simpl.
  by rewrite (lookup_app_l_Some _ _ _ _ H).
Qed.

Lemma read_new w G S i r :
  G !! i = Some r -> read (length (frames w) + i) (grow w G S) = (Ok r, grow w G S).
Proof.
  intros H. unfold read, grow; simpl.
  rewrite lookup_app_r by lia.
  replace (length (frames w) + i - length (frames w)) with i by lia.
  by rewrite H.
Qed.

Lemma alloc_grow w G S r :
  alloc r (grow w G S) = (Ok (length (frames w) + length G), grow w (G ++ [r]) S).
Proof.
  unfold alloc, grow, with_frames; simpl.
  by rewrite length_app, app_assoc.
Qed.

Lemma alter_app_right {A} (f : A -> A) (l1 l2 : list A) i :
  alter f (length l1 + i) (l1 ++ l2) = l1 ++ alter f i l2.
Proof. induction l1; simpl; [done|]. by f_equal. Qed.

Lemma update_grow w G S i f :
  update (length (frames w) + i) f (grow w G S) = (Ok tt, grow w (alter f i G) S).
Proof.
  unfold update, grow, with_frames; simpl.
  by rewrite alter_app_right.
Qed.

Lemma alter_at {A} (f : A -> A) (l : list A) i x :
  l !! i = Some x -> alter f i l = <[i := f x]> l.
Proof.
  revert i; induction l as [|y l IH]; intros [|i] H; simpl in *; try done.
  - by inversion H.
  - f_equal. by apply IH.
Qed.

Lemma warn_grow w G S x :
  st_warning x (grow w G S) = (Ok tt, grow w G (S ++ [x])).
Proof. unfold st_warning, grow, with_shown; simpl. by rewrite app_assoc. Qed.

Lemma self_run {A} (field : SalaazConverter -> A) w :
  self field w = (Ok (field (converter w)), w).
Proof. reflexivity. Qed.

Lemma lift_run {A} (o : outcome A) w : lift o w = (o, w).
Proof. reflexivity. Qed.

Lemma obind_ok {A B} (a : A) (k : A -> outcome B) : (Ok a ≫= k) = k a.
Proof. reflexivity. Qed.

Lemma obind_raise {A B} e (k : A -> outcome B) : (Raise e ≫= k) = Raise e.
Proof. reflexivity. Qed.

(** [find_category_ids] reads the converter and leaves the world as it is. *)
Lemma find_category_ids_run a b c w :
  find_category_ids a b c w = (find_ids (converter w) a b c, w).
Proof.
  unfold find_ids, find_category_ids.
  rewrite run_bind, self_run; cbn beta iota. rewrite run_bind, lift_run.
  destruct (find_top a _) as [i|]; rewrite ?obind_ok, ?obind_raise; [|reflexivity].
  rewrite run_bind, self_run; cbn beta iota. rewrite run_bind, lift_run.
  destruct (find_level b _ i) as [j|]; rewrite ?obind_ok, ?obind_raise; [|reflexivity].
  rewrite run_bind, self_run; cbn beta iota. rewrite run_bind, lift_run.
  destruct (find_level c _ j) as [k|]; reflexivity.
Qed.

Lemma grow_converter w G S : converter (grow w G S) = converter w.
Proof. reflexivity. Qed.

(** One turn of the loop of [map_shopify_categories] on the copy at
    position [i] of the new frames. *)
Lemma map_row_run w G S d col i r idx :
  G !! i = Some r ->
  map_row d col (length (frames w) + i) idx (grow w G S) =
  match row_ids (converter w) d col idx with
  | Ok ids => (Ok tt, grow w (<[i := set_ids idx ids r]> G) S)
  | Raise e => (Raise e, grow w G S)
  end.
Proof.
  intros Hi. unfold map_row, row_ids.
  destruct (parse_shopify_category _) as [[x y] z].
  rewrite run_bind, find_category_ids_run, grow_converter.
  destruct (find_ids _ x y z) as [[[a b] c]|e];
    rewrite ?obind_ok, ?obind_raise; [|reflexivity].
  cbn beta iota.
  assert (Hlen : i < length G) by (by eapply lookup_lt_Some).
  rewrite run_bind, update_grow, (alter_at _ _ _ _ Hi).
  rewrite run_bind, update_grow.
  rewrite (alter_at _ _ _ _ (list_lookup_insert_eq _ _ _ Hlen)), list_insert_insert_eq.
  rewrite update_grow.
  rewrite (alter_at _ _ _ _ (list_lookup_insert_eq _ _ _ Hlen)), list_insert_insert_eq.
  reflexivity.
Qed.

Lemma for_each_map_row w S d col i idxs : forall G r,
  G !! i = Some r ->
  for_each idxs (map_row d col (length (frames w) + i)) (grow w G S) =
  ((map_rows (converter w) d col idxs r).1,
   grow w (<[i := (map_rows (converter w) d col idxs r).2]> G) S).
Proof.
  induction idxs as [|idx idxs IH]; intros G r Hi; simpl.
  - rewrite list_insert_id by done. reflexivity.
  - assert (Hlen : i < length G) by (by eapply lookup_lt_Some).
    rewrite run_bind, (map_row_run _ _ _ _ _ _ r) by done.
    destruct (row_ids _ d col idx) as [ids|e]; simpl.
    + rewrite (IH _ (set_ids idx ids r)) by (by apply list_lookup_insert_eq).
      by rewrite list_insert_insert_eq.
    + by rewrite list_insert_id.
Qed.

Lemma lookup_last {A} (G : list A) x : (G ++ [x]) !! length G = Some x.
Proof. by rewrite list_lookup_middle. Qed.

Lemma insert_last {A} (G : list A) x y : <[length G := y]> (G ++ [x]) = G ++ [y].
Proof.
  rewrite <- (Nat.add_0_r (length G)) at 1. by rewrite insert_app_r.
Qed.

Lemma update_last w G S r f :
  update (length (frames w) + length G) f (grow w (G ++ [r]) S) =
  (Ok tt, grow w (G ++ [f r]) S).
Proof.
  by rewrite update_grow, (alter_at _ _ _ _ (lookup_last G r)), insert_last.
Qed.

(** [map_shopify_categories] on a column the frame has: the copy is a new
    object, and no other object changes. *)
Lemma map_shopify_categories_run w G S df d col :
  frames w !! df = Some d ->
  has_col col d = true ->
  map_shopify_categories df col (grow w G S) =
  (match (mapped (converter w) d col).1 with
   | Ok _ => Ok (length (frames w) + length G)
   | Raise e => Raise e
   end,
   grow w (G ++ [(mapped (converter w) d col).2]) S).
Proof.
  intros Hdf Hcol. unfold map_shopify_categories, mapped.
  rewrite run_bind, (read_old _ _ _ _ _ Hdf).
  rewrite run_bind, alloc_grow.
  rewrite run_bind, update_last, run_bind, update_last, run_bind, update_last.
  rewrite Hcol. cbn [negb].
  rewrite run_bind, (for_each_map_row _ _ _ _ _ _ _ _ (lookup_last G _)).
  rewrite insert_last. fold (blank_ids d).
  destruct (map_rows _ d col _ _) as [[[]|e] m]; reflexivity.
Qed.

Lemma copy_col_run w G S c i j m :
  G !! j = Some m ->
  copy_col c (length (frames w) + j) (length (frames w) + i) (grow w G S) =
  (Ok tt, grow w (alter (copy_from c m) i G) S).
Proof.
  intros Hj. unfold copy_col.
  rewrite run_bind, (read_new _ _ _ _ _ Hj).
  unfold copy_from.
  destruct (has_col c m).
  - by rewrite update_grow.
  - rewrite run_ret. by rewrite list_alter_id.
Qed.

Lemma update_at w G S i f r :
  G !! i = Some r ->
  update (length (frames w) + i) f (grow w G S) = (Ok tt, grow w (<[i := f r]> G) S).
Proof. intros Hi. by rewrite update_grow, (alter_at _ _ _ _ Hi). Qed.

Lemma _process_variant_attributes_run w G S i r src s mapping :
  frames w !! src = Some s ->
  G !! i = Some r ->
  _process_variant_attributes (length (frames w) + i) src mapping (grow w G S) =
  (Ok (length (frames w) + i), grow w (<[i := with_variants s r]> G) S).
Proof.
  intros Hs Hi. unfold _process_variant_attributes, with_variants, variant_columns.
  rewrite run_bind, (read_old _ _ _ _ _ Hs).
  destruct (List.filter is_variant_column (names s)) as [|c cs].
  - rewrite list_insert_id by done. reflexivity.
  - rewrite run_bind, (update_at _ _ _ _ _ _ Hi). reflexivity.
Qed.

Lemma _set_default_values_run w G S i r :
  G !! i = Some r ->
  _set_default_values (length (frames w) + i) (grow w G S) =
  (Ok (length (frames w) + i), grow w (<[i := with_defaults r]> G) S).
Proof.
  intros Hi. unfold _set_default_values, with_defaults.
  assert (Hlen : i < length G) by (by eapply lookup_lt_Some).
  rewrite run_bind, (update_at _ _ _ _ _ _ Hi).
  rewrite run_bind, (update_at _ _ _ _ _ _ (list_lookup_insert_eq _ _ _ Hlen)).
  by rewrite list_insert_insert_eq.
Qed.

Lemma _post_process_data_run w G S i r src s mapping :
  frames w !! src = Some s ->
  G !! i = Some r ->
  _post_process_data (length (frames w) + i) src mapping (grow w G S) =
  (Ok (length (frames w) + (length G + length (post_frames s r) - 1)),
   grow w (<[i := cleaned s r]> G ++ post_frames s r) S).
Proof.
  intros Hs Hi. unfold _post_process_data.
  assert (Hlen : i < length G) by (by eapply lookup_lt_Some).
  rewrite run_bind, (update_at _ _ _ _ _ _ Hi).
  rewrite run_bind,
    (_process_variant_attributes_run _ _ _ _ _ _ _ _ Hs (list_lookup_insert_eq _ _ _ Hlen)).
  rewrite list_insert_insert_eq.
  rewrite run_bind, (update_at _ _ _ _ _ _ (list_lookup_insert_eq _ _ _ Hlen)).
  rewrite list_insert_insert_eq.
  rewrite run_bind, (_set_default_values_run _ _ _ _ _ (list_lookup_insert_eq _ _ _ Hlen)).
  rewrite list_insert_insert_eq. fold (cleaned s r).
  set (c := cleaned s r). set (G1 := <[i := c]> G).
  assert (Hc : G1 !! i = Some c) by (by apply list_lookup_insert_eq).
  assert (HG1 : length G1 = length G) by apply length_insert.
  rewrite run_bind, (read_new _ _ _ _ _ Hc).
  unfold post_frames. fold c.
  destruct (has_col "name" c && has_col "description" c).
  - rewrite run_bind, alloc_grow, run_bind.
    rewrite (read_new _ _ _ _ _ (lookup_last G1 _)), alloc_grow.
    rewrite <- app_assoc, length_app, HG1. simpl.
    do 3 f_equal. lia.
  - rewrite run_bind, run_ret, run_bind, (read_new _ _ _ _ _ Hc), alloc_grow.
    rewrite HG1. simpl. do 3 f_equal. lia.
Qed.

Lemma try_except_run {A} (c : M A) (h : exn -> M A) w :
  try_except c h w =
  match c w with
  | (Ok a, w') => (Ok a, w')
  | (Raise e, w') => h e w'
  end.
Proof. reflexivity. Qed.

Lemma first_such_true {A} (p : A -> bool) l x :
  first_such p l = Some x -> p x = true.
Proof.
  induction l as [|y l IH]; simpl; [done|].
  destruct (p y) eqn:Hy; [|done]. by intros [= <-].
Qed.

Lemma nonempty_Some o s : nonempty o = Some s -> o = Some s.
Proof.
  destruct o as [t|]; simpl; [|done]. by destruct (String.eqb t ""); intros [= <-].
Qed.

Lemma post_frames_last (X : list DataFrame) s r :
  (X ++ post_frames s r) !! (length X + length (post_frames s r) - 1) =
  Some (dropna_all (required_rows (cleaned s r))).
Proof.
  unfold post_frames, required_rows.
  destruct (has_col "name" _ && has_col "description" _); simpl.
  - rewrite lookup_app_r by lia.
    by replace (length X + 2 - 1 - length X) with 1 by lia.
  - rewrite lookup_app_r by lia.
    by replace (length X + 1 - 1 - length X) with 0 by lia.
Qed.

(** The category step of [transform_data], with [result_df] the only new
    frame: it ends normally, leaves [result_df] as [with_categories] says,
    and touches no frame of [w]. *)
Lemma category_step_run w S df d mapping platform :
  frames w !! df = Some d ->
  exists G' S',
    category_step df d (length (frames w) + 0) platform (grow w [result0 d mapping] S) =
    (Ok tt, grow w (with_categories (converter w) d mapping platform :: G') S').
Proof.
  intros Hdf. unfold category_step, with_categories, category_source_col.
  destruct (known_platform platform) as [pm|]; simpl;
    [|by exists [], S].
  destruct (nonempty _) as [c|] eqn:Hc; [|by exists [], S].
  assert (Hcol : has_col c d = true).
  { apply nonempty_Some in Hc. by apply first_such_true in Hc. }
  rewrite try_except_run, run_bind.
  rewrite (map_shopify_categories_run _ _ _ _ _ _ Hdf Hcol).
  destruct (mapped (converter w) d c) as [[[]|e] m]; cbn [fst snd].
  - change (length [result0 d mapping]) with 1.
    assert (Hm : ([result0 d mapping] ++ [m]) !! 1 = Some m) by done.
    rewrite run_bind, (copy_col_run _ _ _ _ _ _ _ Hm); simpl.
    rewrite run_bind, (copy_col_run _ _ _ _ 0 1 m) by done; simpl.
    rewrite (copy_col_run _ _ _ _ 0 1 m) by done; simpl.
    by exists [m], S.
  - rewrite warn_grow. by eexists [m], _.
Qed.

(** A run of [transform_data] on a frame of the store ends normally; the
    frame it returns is [transform_frame]; the converter and the frames
    the store held before are as they were. *)
Lemma transform_data_run w df d mapping platform :
  frames w !! df = Some d ->
  exists l G S,
    transform_data df mapping platform w = (Ok l, grow w G S) /\
    frames (grow w G S) !! l =
      Some (transform_frame (converter w) d mapping platform).
Proof.
  intros Hdf.
  replace (transform_data df mapping platform w)
    with (transform_data df mapping platform (grow w [] [])) by (by rewrite grow_nil).
  unfold transform_data.
  rewrite run_bind, (read_old _ _ _ _ _ Hdf).
  rewrite run_bind, alloc_grow. simpl length. simpl app.
  fold (result0 d mapping).
  rewrite run_bind.
  destruct (category_step_run w [] df d mapping platform Hdf) as (G' & S' & ->).
  rewrite (_post_process_data_run _ _ _ 0 _ _ d) by done.
  eexists _, _, _. split; [reflexivity|].
  unfold grow at 1. cbn [frames]. simpl insert.
  rewrite lookup_app_r by lia.
  rewrite Nat.add_sub_swap, Nat.sub_diag by lia. simpl plus.
  unfold transform_frame.
  set (r := with_categories (converter w) d mapping platform).
  rewrite <- (post_frames_last (cleaned d r :: G') d r). f_equal; simpl; lia.
Qed.

End Run.

Section Validate.

Lemma format_warning_world d c check what w :
  (format_warning d c check what w).2 = w.
Proof.
  unfold format_warning. destruct (has_col c d); [|done].
  rewrite run_bind, lift_run. destruct (count_invalid _ _) as [[|n]|e]; done.
Qed.

Lemma read_run w l d : frames w !! l = Some d -> read l w = (Ok d, w).
Proof. intros H. unfold read. by rewrite H. Qed.

End Validate.


Section Repeat.
Local Open Scope nat_scope.

Lemma grow_keeps w G S l x :
  frames w !! l = Some x -> frames (grow w G S) !! l = Some x.
Proof. intros H. unfold grow; simpl. by apply lookup_app_l_Some. Qed.

End Repeat.


(** ** The frames of the pipeline *)

Section Pipeline.
Local Open Scope nat_scope.
Local Open Scope list_scope.
Implicit Types (df d r m : DataFrame) (c : string).

Lemma shaped_set_col n c c' vs r :
  shaped n c r -> length vs = n -> shaped n c (set_col c' vs r).
Proof.
  intros (Hr & Hn & Hc) Hvs. split; [|split].
  - apply rectangular_set_col; [done|congruence].
  - done.
  - rewrite has_col_set_col, Hc. apply orb_true_r.
Qed.

Lemma shaped_map_col n c c' f r :
  (forall vs, length (f vs) = length vs) ->
  shaped n c r -> shaped n c (map_col c' f r).
Proof.
  intros Hf (Hr & Hn & Hc). split; [|split].
  - by apply rectangular_map_col.
  - by rewrite nrows_map_col.
  - by rewrite has_col_map_col.
Qed.

Lemma shaped_select n c mask r :
  shaped n c r -> length mask = n -> shaped (count_true mask) c (select mask r).
Proof.
  intros (Hr & Hn & Hc) Hm. split; [|split].
  - apply rectangular_select; [done|congruence].
  - done.
  - by rewrite has_col_select.
Qed.

Lemma shaped_fill_new n c v d :
  rectangular d -> nrows d = n -> shaped n c (fill_col c v d).
Proof.
  intros Hd Hn. split; [|split].
  - by apply rectangular_fill_col.
  - done.
  - unfold fill_col. by rewrite has_col_set_col, String.eqb_refl.
Qed.

Lemma shaped_set_at n c i c' v r :
  shaped n c r -> has_col c' r = true -> shaped n c (set_at i c' v r).
Proof.
  intros H Hc'. apply shaped_set_col; [done|].
  rewrite length_insert. destruct H as (Hr & Hn & _).
  rewrite <- Hn. by apply rectangular_col.
Qed.

Lemma shaped_col n c r : shaped n c r -> length (col c r) = n.
Proof. intros (Hr & Hn & Hc). rewrite <- Hn. by apply rectangular_col. Qed.

(** The dictionary [result_data]. *)
Lemma init_result_data_ok n c :
  In c ALL_SALAAZ_COLUMNS ->
  shaped n c (frame_of_dict n (init_result_data n)).
Proof.
  intros Hc. split; [|split; [done|]].
  - unfold rectangular; simpl. cbn.
    repeat constructor; apply length_replicate.
  - cbn in Hc. unfold has_col, frame_of_dict; simpl.
    repeat (destruct Hc as [<-|Hc]; [reflexivity|]). destruct Hc.
Qed.

Lemma result0_ok d mapping c :
  rectangular d -> In c ALL_SALAAZ_COLUMNS -> shaped (nrows d) c (result0 d mapping).
Proof.
  intros Hd Hc. unfold result0, map_result_data.
  generalize (init_result_data_ok (nrows d) c Hc).
  generalize (init_result_data (nrows d)) as acc.
  induction mapping as [|[k src] mapping IH]; intros acc Hacc; simpl; [done|].
  apply IH. destruct (negb (String.eqb src "") && has_col src d) eqn:E; [|done].
  apply andb_true_iff in E as [_ E].
  apply (shaped_set_col _ _ k _ _ Hacc). by apply rectangular_col.
Qed.

Lemma blank_ids_ok d c :
  rectangular d ->
  In c ["category_id"; "sub_category_id"; "sub_sub_category_id"] ->
  shaped (nrows d) c (blank_ids d).
Proof.
  intros Hd Hc. unfold blank_ids.
  assert (H1 := shaped_fill_new (nrows d) "category_id" VNull d Hd eq_refl).
  assert (H2 : shaped (nrows d) "sub_category_id"
                 (fill_col "sub_category_id" VNull (fill_col "category_id" VNull d))).
  { apply shaped_fill_new; [by apply H1|done]. }
  assert (H3 : forall c', shaped (nrows d) c' (fill_col "category_id" VNull d) ->
               shaped (nrows d) c'
                 (fill_col "sub_category_id" VNull (fill_col "category_id" VNull d))).
  { intros c' H. apply shaped_set_col; [done|]. rewrite length_replicate. apply H. }
  assert (H4 : forall c', shaped (nrows d) c'
                 (fill_col "sub_category_id" VNull (fill_col "category_id" VNull d)) ->
               shaped (nrows d) c' (fill_col "sub_sub_category_id" VNull
                 (fill_col "sub_category_id" VNull (fill_col "category_id" VNull d)))).
  { intros c' H. apply shaped_set_col; [done|]. rewrite length_replicate. apply H. }
  destruct Hc as [<-|[<-|[<-|[]]]]; auto.
  apply shaped_fill_new; [by apply H2|by apply H2].
Qed.

Lemma set_ids_ok n idx ids r : id_shaped n r -> id_shaped n (set_ids idx ids r).
Proof.
  intros (H1 & H2 & H3). unfold set_ids.
  assert (K : forall c, shaped n c r -> shaped n c
            (set_at idx "sub_sub_category_id" ids.2
              (set_at idx "sub_category_id" ids.1.2
                (set_at idx "category_id" ids.1.1 r)))).
  { intros c Hc.
    apply shaped_set_at; [apply shaped_set_at; [apply shaped_set_at|]|]; try done.
    - apply H1.
    - apply (shaped_set_at _ _ _ _ _ _ H2), H1.
    - apply (shaped_set_at n "sub_sub_category_id").
      + apply (shaped_set_at _ _ _ _ _ _ H3), H1.
      + apply (shaped_set_at _ _ _ _ _ _ H2), H1. }
  split; [|split]; by apply K.
Qed.

Lemma map_rows_ok cv d category_column idxs : forall r,
  id_shaped (nrows d) r ->
  id_shaped (nrows d) (map_rows cv d category_column idxs r).2.
Proof.
  induction idxs as [|idx idxs IH]; intros r Hr; simpl; [done|].
  destruct (row_ids cv d category_column idx) as [ids|e]; simpl; [|done].
  by apply IH, set_ids_ok.
Qed.

Lemma mapped_ok cv d category_column :
  rectangular d -> id_shaped (nrows d) (mapped cv d category_column).2.
Proof.
  intros Hd. apply map_rows_ok.
  split; [|split]; apply blank_ids_ok; simpl; auto.
Qed.

Lemma copy_from_ok n c c' m r :
  shaped n c r -> shaped n c' m -> shaped n c (copy_from c' m r).
Proof.
  intros Hr Hm. unfold copy_from. destruct (has_col c' m); [|done].
  apply shaped_set_col; [done|]. by apply shaped_col.
Qed.

Lemma with_categories_ok cv d mapping platform c :
  rectangular d -> In c ALL_SALAAZ_COLUMNS ->
  shaped (nrows d) c (with_categories cv d mapping platform).
Proof.
  intros Hd Hc. unfold with_categories.
  assert (H0 := result0_ok d mapping c Hd Hc).
  destruct (category_source_col d platform) as [cc|]; [|done].
  destruct (mapped cv d cc) as [[[]|e] m] eqn:E; [|done].
  destruct (mapped_ok cv d cc Hd) as (H1 & H2 & H3). rewrite E in H1, H2, H3.
  unfold copy_ids. by repeat apply copy_from_ok.
Qed.

Lemma fillna_length v vs : length (fillna v vs) = length vs.
Proof. apply length_map. Qed.

Lemma with_variants_ok n c s r :
  nrows s = n -> shaped n c r -> shaped n c (with_variants s r).
Proof.
  intros Hs Hr. unfold with_variants. destruct (variant_columns s); [done|].
  apply shaped_set_col; [done|]. by rewrite length_map, length_seq.
Qed.

Lemma cleaned_ok n c s r :
  nrows s = n -> shaped n c r -> shaped n c (cleaned s r).
Proof.
  intros Hs Hr. unfold cleaned, with_defaults.
  apply shaped_map_col; [apply fillna_length|].
  apply shaped_map_col; [apply fillna_length|].
  apply shaped_map_col; [intros; apply length_map|].
  apply with_variants_ok; [done|].
  apply shaped_map_col; [intros; apply length_map|]. done.
Qed.

Lemma required_rows_ok n c r :
  shaped n c r -> exists n', shaped n' c (required_rows r).
Proof.
  intros Hr. unfold required_rows. destruct (_ && _); [|by eauto].
  eexists. apply (shaped_select n); [done|].
  unfold required_mask. rewrite row_mask_length. apply Hr.
Qed.

Lemma dropna_all_ok n c r :
  shaped n c r -> exists n', shaped n' c (dropna_all r).
Proof.
  intros Hr. eexists. apply (shaped_select n); [done|].
  rewrite row_mask_length. apply Hr.
Qed.

(** Every target column of the frame [transform_data] returns is there,
    with one cell per row. *)
Lemma transform_frame_ok cv d mapping platform c :
  rectangular d -> In c ALL_SALAAZ_COLUMNS ->
  shaped (nrows (transform_frame cv d mapping platform)) c
         (transform_frame cv d mapping platform).
Proof.
  intros Hd Hc. unfold transform_frame.
  assert (H1 := cleaned_ok _ c d _ eq_refl (with_categories_ok cv d mapping platform c Hd Hc)).
  destruct (required_rows_ok _ _ _ H1) as (n1 & H2).
  destruct (dropna_all_ok _ _ _ H2) as (n2 & H3).
  assert (n2 = nrows (dropna_all (required_rows
            (cleaned d (with_categories cv d mapping platform))))) as <- by (symmetry; apply H3).
  done.
Qed.

Lemma fillna_notna v vs : isna v = false -> Forall (fun x => isna x = false) (fillna v vs).
Proof.
  intros Hv. unfold fillna. apply Forall_forall. intros x Hx.
  apply list_elem_of_In, in_map_iff in Hx as (y & <- & _).
  by destruct (isna y) eqn:E.
Qed.

Lemma category_id_filled cv d mapping platform :
  rectangular d ->
  Forall (fun x => isna x = false)
         (col "category_id" (transform_frame cv d mapping platform)).
Proof.
  intros Hd. unfold transform_frame, dropna_all, required_rows.
  rewrite col_select. apply keep_Forall.
  set (C := cleaned d _).
  assert (HC : Forall (fun x => isna x = false) (col "category_id" C)).
  { unfold C, cleaned, with_defaults.
    rewrite col_map_col_other by done.
    rewrite col_map_col_same; [by apply fillna_notna|].
    rewrite has_col_map_col.
    assert (H : shaped (nrows d) "category_id"
                  (with_variants d (map_col "price" (List.map _clean_price)
                     (with_categories cv d mapping platform)))).
    { apply with_variants_ok; [done|]. apply shaped_map_col; [intros; apply length_map|].
      apply with_categories_ok; [done|]. cbn. auto 6. }
    apply H. }
  destruct (_ && _); [|done].
  rewrite col_select. by apply keep_Forall.
Qed.

End Pipeline.


Section Variants.
Local Open Scope nat_scope.
Local Open Scope list_scope.

Lemma list_by_index {A} (x : A) (l : list A) :
  l = List.map (fun i => default x (l !! i)) (seq 0 (length l)).
Proof.
  induction l as [|y l IH]; simpl; [done|].
  f_equal. rewrite <- seq_shift, List.map_map. exact IH.
Qed.

Lemma col_copy_from_other c c' m r : c' <> c -> col c' (copy_from c m r) = col c' r.
Proof.
  intros H. unfold copy_from. destruct (has_col c m); [|done]. by apply col_set_col_other.
Qed.

Lemma variant_col_with_categories cv d mapping platform :
  col "variant_attributes" (with_categories cv d mapping platform) =
  col "variant_attributes" (result0 d mapping).
Proof.
  unfold with_categories.
  destruct (category_source_col d platform) as [cc|]; [|done].
  destruct (mapped cv d cc) as [[[]|e] m]; [|done].
  unfold copy_ids. by rewrite !col_copy_from_other.
Qed.

Lemma variant_col_cleaned cv d mapping platform :
  rectangular d ->
  col "variant_attributes" (cleaned d (with_categories cv d mapping platform)) =
  List.map (variant_source d mapping) (seq 0 (nrows d)).
Proof.
  intros Hd. unfold cleaned, with_defaults.
  rewrite !col_map_col_other by done.
  unfold with_variants, variant_source.
  destruct (variant_columns d) as [|c cs] eqn:E.
  - rewrite col_map_col_other by done. rewrite variant_col_with_categories.
    assert (H : shaped (nrows d) "variant_attributes" (result0 d mapping)).
    { apply result0_ok; [done|]. cbn. auto 20. }
    rewrite <- (shaped_col _ _ _ H). apply (list_by_index VNull).
  - by rewrite col_set_col_same.
Qed.

Lemma assoc_set_not_nil {A} k (v : A) l : assoc_set k v l <> [].
Proof. destruct l as [|[k' v'] l]; simpl; [done|]. by destruct (String.eqb k' k). Qed.

Lemma row_attrs_nil d cs i :
  row_attrs d cs i = [] <-> Forall (fun c => filled (row_cell c i d) = false) cs.
Proof.
  unfold row_attrs.
  assert (H : forall acc,
    fold_left (fun attrs c =>
      let value := row_cell c i d in
      if notna value && negb (String.eqb (strip (py_str value)) "")
      then assoc_set (attr_name_of c) (strip (py_str value)) attrs
      else attrs) cs acc = [] <->
    acc = [] /\ Forall (fun c => filled (row_cell c i d) = false) cs).
  { induction cs as [|c cs IH]; intros acc; simpl.
    - split; [by intros ->|by intros [-> _]].
    - rewrite IH. unfold filled.
      destruct (notna (row_cell c i d) &&
                negb (String.eqb (strip (py_str (row_cell c i d))) ""))
        eqn:E; split.
      + intros [Hacc _]. by apply assoc_set_not_nil in Hacc.
      + intros [_ H]. inversion H; simpl in *; congruence.
      + intros [-> H]. split; [done|]. by constructor.
      + intros [-> H]. split; [done|]. by inversion H. }
  rewrite H. tauto.
Qed.

Lemma variant_cell_null d cs i :
  variant_cell d cs i = VNull <-> Forall (fun c => filled (row_cell c i d) = false) cs.
Proof.
  rewrite <- row_attrs_nil. unfold variant_cell.
  destruct (row_attrs d cs i); split; done.
Qed.

(** A frame with a text has rows of objects: [iterrows] gives its cells
    as they are stored. *)
Lemma float_rows_text d : has_text d = true -> float_rows d = false.
Proof.
  unfold has_text, float_rows. intros H.
  apply existsb_exists in H as (cv & Hin & Hcv).
  apply existsb_exists in Hcv as (v & Hv & Ht).
  assert (Hall : forall p, (forall x, is_text x = true -> p x = false) ->
            forallb p cv.2 = false).
  { intros p Hp. destruct (forallb p cv.2) eqn:E; [|done].
    rewrite forallb_forall in E. specialize (E v Hv). by rewrite (Hp v Ht) in E. }
  apply andb_false_iff. left.
  destruct (forallb _ (columns d)) eqn:E; [|done].
  rewrite forallb_forall in E. specialize (E cv Hin). cbn beta in E.
  unfold int64_column, float64_column in E.
  rewrite (Hall int64_cell), (Hall float64_cell) in E; [done|by intros []..].
Qed.

Lemma row_cell_text d c i : has_text d = true -> row_cell c i d = cell c i d.
Proof.
  intros H. unfold row_cell. rewrite (float_rows_text d H). by destruct (cell c i d).
Qed.

Lemma isna_row_cell d c i : isna (row_cell c i d) = isna (cell c i d).
Proof.
  unfold row_cell. destruct (cell c i d) as [| |z| |]; try done.
  by destruct (float_rows d).
Qed.

End Variants.


(** ** Platform detection and mapping *)

Section DetectPlatform.

Lemma mem_lower s columns :
  mem s (List.map lower columns) = existsb (fun column => String.eqb (lower column) s) columns.
Proof.
  unfold mem. induction columns as [|c cs IH]; simpl; [done|].
  by rewrite IH, (String.eqb_sym s).
Qed.

Lemma field_hit_covered columns field :
  field_hit (List.map lower columns) field.2 = covered columns field.
Proof.
  unfold field_hit, covered.
  induction (field.2) as [|s l IH]; simpl; [done|].
  by rewrite IH, mem_lower.
Qed.

Lemma profile_score_covered columns mappings :
  profile_score (List.map lower columns) mappings =
  length (List.filter (covered columns) mappings).
Proof.
  unfold profile_score. f_equal.
  induction mappings as [|f l IH]; simpl; [done|].
  by rewrite field_hit_covered, IH.
Qed.

Lemma profile_score_le column_set mappings :
  (profile_score column_set mappings <= length mappings)%nat.
Proof.
  unfold profile_score.
  induction mappings as [|f l IH]; simpl; [done|].
  destruct (field_hit column_set f.2); simpl; lia.
Qed.

(** The binary64 quotients of eighths compare as the eighths do, and the
    binary64 constant [0.3] separates them as 3/10 does. *)
Lemma eighths_lt a b :
  (a <= 8)%nat -> (b <= 8)%nat ->
  double_ltb (int_truediv (Z.of_nat a) 8) (int_truediv (Z.of_nat b) 8) =
  (Z.of_nat a <? Z.of_nat b).
Proof.
  intros Ha Hb.
  do 9 (destruct a as [|a]; [do 9 (destruct b as [|b]; [by vm_compute|]); lia|]).
  lia.
Qed.

Lemma eighths_threshold a :
  (a <= 8)%nat ->
  double_ltb (float_literal "0.3") (int_truediv (Z.of_nat a) 8) =
  (3 * 8 <? Z.of_nat a * 10).
Proof.
  intros Ha. do 9 (destruct a as [|a]; [by vm_compute|]). lia.
Qed.

Lemma platforms_shape :
  exists ps pa pw,
    PLATFORM_MAPPINGS = [("shopify", ps); ("amazon", pa); ("woocommerce", pw)] /\
    length ps = 8%nat /\ length pa = 8%nat /\ length pw = 8%nat.
Proof. do 3 eexists. split; [reflexivity|done]. Qed.

End DetectPlatform.


Section SuggestMapping.

Lemma suggest_platform_keys source_columns pm x :
  In x (suggest_platform source_columns pm).*1 -> In x pm.*1.
Proof.
  unfold suggest_platform.
  set (step := fun (mapping : list (string * string)) (f : string * list string) => _).
  assert (H : forall acc, In x (fold_left step pm acc).*1 -> In x acc.*1 \/ In x pm.*1).
  { induction pm as [|f pm IH]; simpl; intros acc Hx; [by left|].
    destruct (IH _ Hx) as [Hacc|Hpm]; [|by auto].
    unfold step in Hacc.
    destruct (platform_pick _ _ _); [|by auto].
    destruct (assoc_set_keys _ _ _ _ Hacc); subst; auto. }
  intros Hx. by destruct (H [] Hx).
Qed.

Lemma suggest_fallback_keys source_columns mapping x :
  In x (suggest_fallback source_columns mapping).*1 ->
  In x mapping.*1 \/ In x ALL_SALAAZ_COLUMNS.
Proof.
  unfold suggest_fallback.
  generalize ALL_SALAAZ_COLUMNS as fields. intros fields. revert mapping.
  induction fields as [|f fields IH]; simpl; intros mapping Hx; [by left|].
  destruct (IH _ Hx) as [Hacc|Hfs]; [|by auto].
  destruct (has_key f mapping); [by auto|].
  destruct (_fuzzy_match_column f source_columns) as [b|]; [|by auto].
  destruct (String.eqb b ""); [by auto|].
  destruct (assoc_set_keys _ _ _ _ Hacc); subst; auto.
Qed.

Lemma profile_fields p pm x :
  assoc p PLATFORM_MAPPINGS = Some pm ->
  In x pm.*1 ->
  In x ALL_SALAAZ_COLUMNS \/ x = "category_source".
Proof.
  unfold PLATFORM_MAPPINGS. cbn [assoc].
  repeat (destruct (String.eqb _ p); [intros [= <-]; cbn; intuition auto|]).
  done.
Qed.

End SuggestMapping.


Section BestMatch.

Lemma first_such_first {A} (p : A -> bool) before r after :
  Forall (fun x => p x = false) before -> p r = true ->
  first_such p (before ++ r :: after) = Some r.
Proof.
  intros Hb Hr. induction Hb as [|x l Hx Hl IH]; simpl.
  - by rewrite Hr.
  - by rewrite Hx.
Qed.

Lemma first_such_none {A} (p : A -> bool) l :
  Forall (fun x => p x = false) l -> first_such p l = None.
Proof. induction 1 as [|x l Hx Hl IH]; simpl; [done|]. by rewrite Hx. Qed.

End BestMatch.


(** ** The rows of the output *)

Section Rows.
Local Open Scope nat_scope.
Local Open Scope list_scope.

Lemma count_true_le mask : count_true mask <= length mask.
Proof.
  unfold count_true. induction mask as [|b mask IH]; simpl; [done|].
  destruct b; simpl; lia.
Qed.

(** The rows a mask computed row by row keeps. *)
Lemma keep_row_mask_Forall {A} (P : A -> Prop) (f : nat -> bool) (l : list A) : forall start,
  (forall i x, l !! i = Some x -> f (start + i) = true -> P x) ->
  Forall P (keep (List.map f (seq start (length l))) l).
Proof.
  induction l as [|x l IH]; intros start H; simpl; [constructor|].
  destruct (f start) eqn:E.
  - constructor.
    + apply (H 0 x); [done|]. by rewrite Nat.add_0_r.
    + apply IH. intros i y Hy Hf. apply (H (S i) y); [done|].
      by rewrite Nat.add_succ_r.
  - apply IH. intros i y Hy Hf. apply (H (S i) y); [done|].
    by rewrite Nat.add_succ_r.
Qed.

Lemma required_rows_filled c r n :
  shaped n "name" r -> shaped n "description" r ->
  c = "name" \/ c = "description" ->
  Forall (fun v => filled v = true) (col c (required_rows r)).
Proof.
  intros Hn Hd Hc. unfold required_rows.
  destruct Hn as (Hr & Hrows & Hname). destruct Hd as (_ & _ & Hdesc).
  rewrite Hname, Hdesc. cbn [andb]. rewrite col_select.
  unfold required_mask, row_mask.
  assert (Hlen : length (col c r) = nrows r).
  { destruct Hc as [-> | ->]; by apply rectangular_col. }
  rewrite <- Hlen. apply keep_row_mask_Forall.
  intros i x Hx Hf. simpl in Hf. apply andb_true_iff in Hf as [H1 H2].
  unfold cell in H1, H2. destruct Hc as [-> | ->].
  - by rewrite Hx in H1.
  - by rewrite Hx in H2.
Qed.

Lemma Forall_cell (P : value -> Prop) c r i :
  rectangular r -> has_col c r = true -> Forall P (col c r) -> i < nrows r ->
  P (cell c i r).
Proof.
  intros Hr Hc HP Hi. unfold cell.
  assert (Hlen := rectangular_col _ _ Hr Hc).
  destruct (col c r !! i) as [v|] eqn:E.
  - simpl. by eapply Forall_lookup_1 in E.
  - apply lookup_ge_None in E. lia.
Qed.

Lemma keep_map_filter {A} (f : A -> bool) (l : list A) :
  keep (List.map f l) l = List.filter f l.
Proof. induction l as [|x l IH]; simpl; [done|]. by rewrite IH. Qed.

Lemma keep_all {A} (f : nat -> bool) (l : list A) : forall start,
  (forall i, i < length l -> f (start + i) = true) ->
  keep (List.map f (seq start (length l))) l = l.
Proof.
  induction l as [|x l IH]; intros start H; simpl; [done|].
  rewrite <- (Nat.add_0_r start) at 1. rewrite (H 0) by (simpl; lia). f_equal.
  apply IH. intros i Hi. rewrite Nat.add_succ_comm. apply H. simpl. lia.
Qed.

Lemma count_true_all (f : nat -> bool) n : forall start,
  (forall i, i < n -> f (start + i) = true) ->
  count_true (List.map f (seq start n)) = n.
Proof.
  unfold count_true. induction n as [|n IH]; intros start H; simpl; [done|].
  rewrite <- (Nat.add_0_r start) at 1. rewrite (H 0) by lia. simpl. f_equal.
  apply IH. intros i Hi. rewrite Nat.add_succ_comm. apply H. lia.
Qed.

Lemma has_col_names c r : has_col c r = true -> In c (names r).
Proof.
  unfold has_col, has_key, names. destruct (assoc c (columns r)) eqn:E; [|done].
  intros _. by eapply assoc_In.
Qed.

(** After the filter on name and description no row is empty:
    [dropna(how='all')] keeps them all. *)
Lemma dropna_all_required_rows n r :
  shaped n "name" r -> shaped n "description" r ->
  nrows (dropna_all (required_rows r)) = nrows (required_rows r) /\
  forall c, has_col c r = true ->
    col c (dropna_all (required_rows r)) = col c (required_rows r).
Proof.
  intros Hn Hd.
  pose proof (required_rows_filled "name" r n Hn Hd (or_introl eq_refl)) as Hf.
  destruct (required_rows_ok _ _ _ Hn) as (n1 & HR).
  set (R := required_rows r) in *.
  destruct HR as (HrR & HnR & HcR).
  assert (Hmask : forall i, i < nrows R ->
            existsb (fun c => notna (cell c (0 + i) R)) (names R) = true).
  { intros i Hi. apply existsb_exists. exists "name". split; [by apply has_col_names|].
    pose proof (Forall_cell (fun v => filled v = true) "name" R i HrR HcR Hf Hi) as H.
    unfold filled in H. by apply andb_true_iff in H as [H _]. }
  unfold dropna_all, row_mask. split.
  - simpl. by apply count_true_all.
  - intros c Hc. rewrite col_select.
    assert (HcR' : has_col c R = true).
    { unfold R, required_rows. destruct (_ && _); [|done]. by rewrite has_col_select. }
    rewrite <- (rectangular_col _ _ HrR HcR'). by apply keep_all; rewrite (rectangular_col _ _ HrR HcR').
Qed.

Lemma name_col_cleaned cv d mapping platform c :
  c = "name" \/ c = "description" ->
  col c (cleaned d (with_categories cv d mapping platform)) = col c (result0 d mapping).
Proof.
  intros Hc.
  assert (H1 : col c (with_categories cv d mapping platform) = col c (result0 d mapping)).
  { unfold with_categories.
    destruct (category_source_col d platform) as [cc|]; [|done].
    destruct (mapped cv d cc) as [[[]|e] m]; [|done].
    unfold copy_ids. destruct Hc as [-> | ->]; by rewrite !col_copy_from_other. }
  rewrite <- H1. unfold cleaned, with_defaults, with_variants.
  destruct Hc as [-> | ->]; rewrite !col_map_col_other by done;
    (destruct (variant_columns d);
     [|rewrite col_set_col_other by done]; by rewrite col_map_col_other).
Qed.

(** The frame [transform_data] returns holds the rows [kept_rows] of the
    frame it cleaned, in order. *)
Lemma transform_frame_rows cv d mapping platform :
  rectangular d ->
  nrows (transform_frame cv d mapping platform) = length (kept_rows d mapping) /\
  forall c, has_col c (cleaned d (with_categories cv d mapping platform)) = true ->
    col c (transform_frame cv d mapping platform) =
    List.map (fun i => cell c i (cleaned d (with_categories cv d mapping platform)))
             (kept_rows d mapping).
Proof.
  intros Hd. unfold transform_frame.
  set (C := cleaned d (with_categories cv d mapping platform)).
  assert (HC : forall c, In c ALL_SALAAZ_COLUMNS -> shaped (nrows d) c C).
  { intros c Hc. apply cleaned_ok; [done|]. by apply with_categories_ok. }
  assert (Hn : shaped (nrows d) "name" C) by (apply HC; cbn; auto).
  assert (Hde : shaped (nrows d) "description" C) by (apply HC; cbn; auto 6).
  destruct (dropna_all_required_rows _ _ Hn Hde) as [Hrows Hcols].
  destruct Hn as (HrC & HnC & Hname). destruct Hde as (_ & _ & Hdesc).
  assert (Hreq : required_rows C = select (required_mask C) C).
  { unfold required_rows. by rewrite Hname, Hdesc. }
  assert (Hmask : required_mask C =
            List.map (fun i => filled (cell "name" i (result0 d mapping)) &&
                               filled (cell "description" i (result0 d mapping)))
                     (seq 0 (nrows d))).
  { unfold required_mask, row_mask. rewrite HnC. apply map_ext. intros i.
    unfold cell, C. by rewrite !name_col_cleaned by auto. }
  split.
  - rewrite Hrows, Hreq. cbn [nrows select]. rewrite Hmask. unfold kept_rows, count_true.
    generalize (seq 0 (nrows d)) as l. intros l.
    induction l as [|x l IH]; simpl; [done|].
    destruct (_ && _); simpl; by rewrite IH.
  - intros c Hc. rewrite Hcols by done. rewrite Hreq, col_select, Hmask.
    rewrite (list_by_index VNull (col c C)) at 1.
    rewrite (rectangular_col _ _ HrC Hc), HnC.
    rewrite keep_map. unfold kept_rows. by rewrite keep_map_filter.
Qed.

End Rows.


Section VariantRules.
Local Open Scope nat_scope.
Local Open Scope list_scope.

Lemma fold_left_same {A B} (f g : A -> B -> A) l : forall a,
  (forall a x, f a x = g a x) -> fold_left f l a = fold_left g l a.
Proof.
  induction l as [|x l IH]; intros a H; simpl; [done|]. by rewrite H, IH.
Qed.

Lemma filter_nil_existsb {A} (p : A -> bool) l :
  existsb p l = false <-> List.filter p l = [].
Proof.
  induction l as [|x l IH]; simpl; [done|].
  destruct (p x); simpl; [by split|done].
Qed.

Lemma variant_columns_named d : variant_columns d = List.filter variant_named (names d).
Proof. reflexivity. Qed.

(** On a frame with a text, the cell the code computes for a row is the
    one the rules of the specification give. *)
Lemma variant_cell_by_the_rules d i :
  has_text d = true ->
  variant_cell d (variant_columns d) i = attributes_by_the_rules d i.
Proof.
  intros Ht. unfold variant_cell, attributes_by_the_rules, row_attrs.
  rewrite variant_columns_named.
  rewrite (fold_left_same _
    (fun pairs column =>
       let text := strip (py_str (cell column i d)) in
       if isna (cell column i d) || String.eqb text "" then pairs
       else assoc_set (sfilter is_word (replace_char " " "_" (lower column))) text pairs));
    [cbn zeta; by destruct (fold_left _ _ _)|].
  intros a c. cbn zeta. rewrite (row_cell_text d c i Ht). unfold notna, attr_name_of.
  by destruct (isna (cell c i d)), (String.eqb _ "").
Qed.

Lemma filled_false v :
  filled v = false <-> isna v = true \/ strip (py_str v) = "".
Proof.
  unfold filled, notna. destruct (isna v); simpl; [by split; auto|].
  destruct (String.eqb_spec (strip (py_str v)) ""); simpl.
  - split; auto.
  - split; [done|]. by intros [|].
Qed.

Lemma cell_map_seq (f : nat -> value) c r n i :
  col c r = List.map f (seq 0 n) -> i < n -> cell c i r = f i.
Proof.
  intros H Hi. unfold cell. rewrite H.
  rewrite list_lookup_fmap, lookup_seq_lt by done. reflexivity.
Qed.

End VariantRules.


(** * The claims *)

(** C1, as stated, fails: in the end-to-end scenario (the one-row Shirt
    table, the mapping suggested for shopify, no reference table) the rows
    [transform_data] returns hold in [category_id] and [sub_category_id]
    the integer 1 that [map_shopify_categories] wrote, not the text "1". *)
Lemma shirt_ids_are_not_text :
  exists l w' out,
    transform_data 0%nat shirt_mapping (Some "shopify") shirt_world = (Ok l, w') /\
    frames w' !! l = Some out /\
    col "category_id" out <> [VStr "1"] /\
    col "sub_category_id" out <> [VStr "1"].
Proof. do 3 eexists. vm_compute. repeat split; congruence. Qed.

(** C1, amended: in every store that holds the one-row Shirt table, with
    no reference table loaded, [transform_data] under the mapping suggested
    for shopify returns a frame of exactly one row with name "Shirt",
    description "Nice", brand "Acme", price "9.99", and the integer 1,
    whose text is "1", in [category_id] and [sub_category_id]. *)
Theorem shirt_end_to_end w df :
  frames w !! df = Some shirt ->
  converter w = no_tables ->
  exists l w' out,
    transform_data df shirt_mapping (Some "shopify") w = (Ok l, w') /\
    frames w' !! l = Some out /\
    shirt_row (VInt 1) out /\
    py_str (VInt 1) = "1".
Proof.
  intros Hdf Hcv.
  destruct (transform_data_run w df shirt shirt_mapping (Some "shopify") Hdf)
    as (l & G & S & Hrun & Hl).
  exists l, (grow w G S), (transform_frame (converter w) shirt shirt_mapping (Some "shopify")).
  split; [done|]. split; [done|]. rewrite Hcv. by vm_compute.
Qed.

(** The scenario of C1 in the store that holds the Shirt table only. *)
Lemma shirt_end_to_end_witness :
  exists l w' out,
    transform_data 0%nat shirt_mapping (Some "shopify") shirt_world = (Ok l, w') /\
    frames w' !! l = Some out /\
    shirt_row (VInt 1) out /\
    py_str (VInt 1) = "1".
Proof. exact (shirt_end_to_end shirt_world 0%nat eq_refl eq_refl). Defined.

(** C2 does not hold of the code: for a table that lacks one of the five
    required columns, [validate_salaaz_data] collects its issues and then
    raises at [df.dropna(subset=...)]; no report is returned. *)
Theorem validate_raises_on_missing_column w df d c :
  frames w !! df = Some d ->
  In c SALAAZ_REQUIRED_COLUMNS ->
  has_col c d = false ->
  exists e, validate_salaaz_data df w = (Raise e, w).
Proof.
  intros Hdf Hc Hmiss. unfold validate_salaaz_data.
  rewrite run_bind, (read_run _ _ _ Hdf).
  rewrite run_bind.
  pose proof (format_warning_world d "price" float_check "price" w) as H1.
  destruct (format_warning d "price" float_check "price" w) as [[w1|e1] w'];
    simpl in H1; subst w'; cbn beta iota; [|by eauto].
  rewrite run_bind.
  pose proof (format_warning_world d "category_id" int_check "category_id" w) as H2.
  destruct (format_warning d "category_id" int_check "category_id" w) as [[w2|e2] w'];
    simpl in H2; subst w'; cbn beta iota; [|by eauto].
  rewrite run_bind.
  destruct (List.filter _ SALAAZ_REQUIRED_COLUMNS) as [|m ms] eqn:E; [|by eexists].
  exfalso.
  assert (Hin : In c (List.filter (fun c => negb (has_col c d)) SALAAZ_REQUIRED_COLUMNS)).
  { apply filter_In. by rewrite Hmiss. }
  rewrite E in Hin. destruct Hin.
Qed.

(** C2 at a table with the columns name, description, price and brand. *)
Lemma validate_raises_on_missing_column_witness :
  exists e, validate_salaaz_data 0%nat no_category_world =
            (Raise e, no_category_world).
Proof.
  refine (validate_raises_on_missing_column no_category_world 0%nat
            no_category "category_id" eq_refl _ eq_refl).
  cbn. auto 6.
Defined.


(** C3: the profiles are enumerated shopify, amazon, woocommerce; the
    score of a profile is the number of its fields (category_source
    included) one of whose synonyms equals a source column, case put
    aside, over the number of its fields.  [detect_platform] returns a
    platform exactly when some score exceeds 0.3, and then the platform of
    the highest score, the first in the enumeration among equals;
    otherwise it returns none. *)
Theorem detect_platform_highest_coverage (columns : list string) :
  PLATFORM_MAPPINGS.*1 = ["shopify"; "amazon"; "woocommerce"] /\
  match detect_platform columns with
  | Some platform =>
      exists i mappings,
        PLATFORM_MAPPINGS !! i = Some (platform, mappings) /\
        (3 # 10 < coverage columns mappings)%Q /\
        forall j other other_mappings,
          PLATFORM_MAPPINGS !! j = Some (other, other_mappings) ->
          (coverage columns other_mappings <= coverage columns mappings)%Q /\
          ((j < i)%nat -> (coverage columns other_mappings < coverage columns mappings)%Q)
  | None =>
      forall j other other_mappings,
        PLATFORM_MAPPINGS !! j = Some (other, other_mappings) ->
        (coverage columns other_mappings <= 3 # 10)%Q
  end.
Proof.
  split; [reflexivity|].
  destruct platforms_shape as (ps & pa & pw & HPM & Ls & La & Lw).
  unfold detect_platform, scores. rewrite HPM.
  cbn [List.map fst snd max_by_score].
  unfold score_of. rewrite Ls, La, Lw. change (Z.of_nat 8) with 8.
  pose proof (profile_score_le (List.map lower columns) ps) as Bs.
  pose proof (profile_score_le (List.map lower columns) pa) as Ba.
  pose proof (profile_score_le (List.map lower columns) pw) as Bw.
  rewrite Ls in Bs. rewrite La in Ba. rewrite Lw in Bw.
  rewrite !profile_score_covered in *.
  assert (Hs : coverage columns ps =
               (Z.of_nat (length (List.filter (covered columns) ps)) # 8)%Q)
    by (unfold coverage; by rewrite Ls).
  assert (Ha : coverage columns pa =
               (Z.of_nat (length (List.filter (covered columns) pa)) # 8)%Q)
    by (unfold coverage; by rewrite La).
  assert (Hw : coverage columns pw =
               (Z.of_nat (length (List.filter (covered columns) pw)) # 8)%Q)
    by (unfold coverage; by rewrite Lw).
  revert Bs Ba Bw Hs Ha Hw.
  generalize (length (List.filter (covered columns) ps)) as s.
  generalize (length (List.filter (covered columns) pa)) as a.
  generalize (length (List.filter (covered columns) pw)) as w.
  intros w a s Bs Ba Bw Hs Ha Hw.
  cbn [fst snd]. rewrite (eighths_lt s a) by done.
  destruct (Z.ltb_spec (Z.of_nat s) (Z.of_nat a)) as [Hsa|Hsa]; cbn [fst snd];
    [rewrite (eighths_lt a w) by done;
     destruct (Z.ltb_spec (Z.of_nat a) (Z.of_nat w)) as [Haw|Haw]
    |rewrite (eighths_lt s w) by done;
     destruct (Z.ltb_spec (Z.of_nat s) (Z.of_nat w)) as [Haw|Haw]]; cbn [fst snd];
    rewrite eighths_threshold by done;
    match goal with |- context [3 * 8 <? ?x * 10] =>
      destruct (Z.ltb_spec (3 * 8) (x * 10)) as [Hth|Hth] end.
  all: lazymatch goal with
       | |- exists i m, _ !! i = Some ("shopify", m) /\ _ => exists 0%nat, ps
       | |- exists i m, _ !! i = Some ("amazon", m) /\ _ => exists 1%nat, pa
       | |- exists i m, _ !! i = Some ("woocommerce", m) /\ _ => exists 2%nat, pw
       | |- _ => idtac
       end.
  all: try (split; [reflexivity|split]).
  all: try (intros [|[|[|j]]] q qm [=]; subst; try (split; [|intros Hlt])).
  all: rewrite ?Hs, ?Ha, ?Hw; unfold Qlt, Qle; simpl; lia.
Qed.

(** C4 does not hold of the code: the exact stage of [_find_best_match]
    lowercases the stored name and does not trim it, as the two later
    stages do.  For the term "Apparel" and the rows (1, "App"),
    (2, " Apparel "), row 2 differs from the term in surrounding
    whitespace only, is no exact match, and the id 1 of the substring
    match is returned. *)
Theorem exact_stage_misses_padded_name :
  _find_best_match "Apparel" padded_table = Ok (Some 1) /\
  exact_hit (strip (lower "Apparel")) (mkRow (Some 2) " Apparel " None) = false /\
  strip (lower " Apparel ") = strip (lower "Apparel").
Proof. by vm_compute. Qed.


(** C5 does not hold of the code.  For the term " Apparel" and the rows
    (1, "app"), (2, " apparel"), row 2 is the first row whose name equals
    the term, case put aside, and row 1 matches the term as a substring
    only.  The code trims the term and does not trim the stored name at
    the exact stage, so row 2 is no exact match there, though it is one
    once both are trimmed as the two later stages do; the substring match
    of row 1 is returned in its place. *)
Theorem substring_match_overrides_padded_exact_match :
  first_such (fun r => String.eqb (lower (row_name r)) (lower " Apparel")) spaced_table =
    Some (mkRow (Some 2) " apparel" None) /\
  _find_best_match " Apparel" spaced_table = Ok (Some 1) /\
  exact_hit (strip (lower " Apparel")) (mkRow (Some 1) "app" None) = false /\
  partial_hit (strip (lower " Apparel")) (mkRow (Some 1) "app" None) = true /\
  exact_hit (strip (lower " Apparel")) (mkRow (Some 2) " apparel" None) = false /\
  strip (lower (row_name (mkRow (Some 2) " apparel" None))) = strip (lower " Apparel").
Proof. by vm_compute. Qed.

(** C6: for every cell that is not missing, [_clean_price] gives what the
    rules of the specification give on the text of the cell: keep digits,
    commas and dots; with both a comma and a dot, drop the commas; with
    commas only, turn them into dots; read the result as a float and
    return its text, or null when it is no float.  "$1,234.56" gives
    "1234.56", "19,99" gives "19.99", "abc" gives null. *)
Theorem clean_price_rules :
  (forall v, _clean_price v = if isna v then VNull else price_by_the_rules (py_str v)) /\
  _clean_price (VStr "$1,234.56") = VStr "1234.56" /\
  _clean_price (VStr "19,99") = VStr "19.99" /\
  _clean_price (VStr "abc") = VNull.
Proof.
  split; [|by vm_compute].
  intros v. unfold _clean_price, price_by_the_rules.
  destruct (isna v); [done|].
  rewrite (sfilter_strip _ _ space_not_kept).
  destruct (has_char "," _), (has_char "." _); reflexivity.
Qed.

(** C7, as stated, fails: when no source column name contains one of the
    keywords, [_process_variant_attributes] leaves the column alone and the
    value the mapping copied into [variant_attributes] reaches the output. *)
Lemma mapped_variant_attributes_survive :
  exists l w' out,
    transform_data 0%nat extras_mapping None extras_world
      = (Ok l, w') /\
    frames w' !! l = Some out /\
    variant_columns extras = [] /\
    col "variant_attributes" out = [VStr "blue"].
Proof. do 3 eexists. vm_compute. done. Qed.

(** C7, amended, for a source frame that holds a text (the rows
    [iterrows] yields then keep the cells as they are stored): the rows of
    the output are the rows [kept_rows] of the source, in order, those
    whose name and description are filled.  When some source column name
    contains color, size, style, option, variant or attribute, the
    [variant_attributes] cell of each output row is the one the rules give
    for its source row, whatever the mapping copied there: the JSON object
    of the non-empty trimmed values under their sanitized column names,
    and null exactly when every such cell of the row is missing or blank.
    When no source column name contains one of these words, the cell is
    the one the mapping copied. *)
Theorem variant_attributes_of_output w df d mapping platform :
  frames w !! df = Some d ->
  rectangular d ->
  has_text d = true ->
  exists l w' out,
    transform_data df mapping platform w = (Ok l, w') /\
    frames w' !! l = Some out /\
    nrows out = length (kept_rows d mapping) /\
    col "variant_attributes" out =
      (if existsb variant_named (names d)
       then List.map (attributes_by_the_rules d) (kept_rows d mapping)
       else List.map (fun i => cell "variant_attributes" i (result0 d mapping))
                     (kept_rows d mapping)) /\
    forall i, attributes_by_the_rules d i = VNull <->
      forall c, In c (names d) -> variant_named c = true ->
        isna (cell c i d) = true \/ strip (py_str (cell c i d)) = "".
Proof.
  intros Hdf Hd Ht.
  destruct (transform_data_run w df d mapping platform Hdf) as (l & G & S & Hrun & Hl).
  exists l, (grow w G S), (transform_frame (converter w) d mapping platform).
  split; [done|]. split; [done|].
  destruct (transform_frame_rows (converter w) d mapping platform Hd) as [Hrows Hcols].
  split; [done|]. split.
  - rewrite Hcols.
    2: { apply (cleaned_ok (nrows d) "variant_attributes"); [done|].
         apply with_categories_ok; [done|]. cbn. auto 20. }
    assert (Hcell : forall i, In i (kept_rows d mapping) ->
              cell "variant_attributes" i
                (cleaned d (with_categories (converter w) d mapping platform)) =
              variant_source d mapping i).
    { intros i Hi. apply (cell_map_seq _ _ _ (nrows d)).
      - by apply variant_col_cleaned.
      - unfold kept_rows in Hi. apply filter_In in Hi as [Hi _].
        apply in_seq in Hi. lia. }
    unfold variant_source.
    destruct (existsb variant_named (names d)) eqn:E.
    + apply map_ext_in. intros i Hi. rewrite (Hcell i Hi). unfold variant_source.
      destruct (variant_columns d) as [|c cs] eqn:Ev.
      * rewrite variant_columns_named in Ev.
        apply filter_nil_existsb in Ev. congruence.
      * rewrite <- Ev. by apply variant_cell_by_the_rules.
    + apply map_ext_in. intros i Hi. rewrite (Hcell i Hi). unfold variant_source.
      apply filter_nil_existsb in E. rewrite variant_columns_named. by rewrite E.
  - intros i. rewrite <- (variant_cell_by_the_rules d i Ht), variant_cell_null.
    rewrite variant_columns_named, List.Forall_forall. split.
    + intros H c Hc Hn. specialize (H c). rewrite (row_cell_text d c i Ht) in H.
      apply filled_false, H, filter_In. done.
    + intros H c Hc. apply filter_In in Hc as [Hc Hn].
      rewrite (row_cell_text d c i Ht). by apply filled_false, H.
Qed.

(** C7 on the Shirt table, whose column Variant Price is named like a
    variant. *)
Lemma variant_attributes_of_output_witness :
  exists l w' out,
    transform_data 0%nat shirt_mapping (Some "shopify") shirt_world = (Ok l, w') /\
    frames w' !! l = Some out /\
    nrows out = length (kept_rows shirt shirt_mapping) /\
    col "variant_attributes" out =
      (if existsb variant_named (names shirt)
       then List.map (attributes_by_the_rules shirt) (kept_rows shirt shirt_mapping)
       else List.map (fun i => cell "variant_attributes" i (result0 shirt shirt_mapping))
                     (kept_rows shirt shirt_mapping)) /\
    forall i, attributes_by_the_rules shirt i = VNull <->
      forall c, In c (names shirt) -> variant_named c = true ->
        isna (cell c i shirt) = true \/ strip (py_str (cell c i shirt)) = "".
Proof.
  refine (variant_attributes_of_output shirt_world 0%nat shirt shirt_mapping
            (Some "shopify") eq_refl _ eq_refl).
  by repeat constructor.
Defined.

(** C8, as stated, fails: for the source column Tags and the platform
    shopify the suggested mapping has the key category_source, which is
    none of the fifteen target fields. *)
Lemma category_source_is_suggested :
  In "category_source" (suggest_mapping ["Tags"] (Some "shopify")).*1 /\
  ~ In "category_source" ALL_SALAAZ_COLUMNS.
Proof. split; [vm_compute; auto|]. vm_compute. intuition congruence. Qed.

(** C8, amended: every key of the mapping [suggest_mapping] returns is one
    of the fifteen target fields, or it is category_source and the
    platform names a profile. *)
Theorem suggest_mapping_keys source_columns platform k :
  In k (suggest_mapping source_columns platform).*1 ->
  In k ALL_SALAAZ_COLUMNS \/
  (k = "category_source" /\ is_Some (known_platform platform)).
Proof.
  unfold suggest_mapping, known_platform. intros Hk.
  apply suggest_fallback_keys in Hk as [Hk|Hk]; [|by left].
  destruct platform as [p|]; [|by destruct Hk].
  cbn [nonempty mbind option_bind].
  destruct (String.eqb p ""); cbn [negb] in Hk; [by destruct Hk|].
  destruct (assoc p PLATFORM_MAPPINGS) as [pm|] eqn:Hpm; [|by destruct Hk].
  apply suggest_platform_keys in Hk.
  destruct (profile_fields _ _ _ Hpm Hk); [by left|right].
  split; [done|]. by eexists.
Qed.

(** C8 at the key category_source of the counterexample. *)
Lemma suggest_mapping_keys_witness :
  In "category_source" (suggest_mapping ["Tags"] (Some "shopify")).*1 /\
  (In "category_source" ALL_SALAAZ_COLUMNS \/
   ("category_source" = "category_source" /\ is_Some (known_platform (Some "shopify")))).
Proof.
  assert (H : In "category_source" (suggest_mapping ["Tags"] (Some "shopify")).*1).
  { vm_compute. auto. }
  split; [exact H|]. exact (suggest_mapping_keys _ _ _ H).
Defined.

(** C9: for every source frame of the store, mapping and platform,
    [transform_data] returns a frame with the column [category_id], and no
    row of it has a missing [category_id]. *)
Theorem category_id_never_null w df d mapping platform :
  frames w !! df = Some d ->
  rectangular d ->
  exists l w' out,
    transform_data df mapping platform w = (Ok l, w') /\
    frames w' !! l = Some out /\
    has_col "category_id" out = true /\
    forall i, (i < nrows out)%nat -> isna (cell "category_id" i out) = false.
Proof.
  intros Hdf Hd.
  destruct (transform_data_run w df d mapping platform Hdf) as (l & G & S & Hrun & Hl).
  exists l, (grow w G S), (transform_frame (converter w) d mapping platform).
  split; [done|]. split; [done|].
  assert (Hc : In "category_id" ALL_SALAAZ_COLUMNS) by (cbn; auto 6).
  destruct (transform_frame_ok (converter w) d mapping platform _ Hd Hc) as (Hr & _ & Hhas).
  split; [done|]. intros i Hi.
  assert (Hlen := rectangular_col _ _ Hr Hhas).
  unfold cell.
  destruct (col "category_id" _ !! i) as [v|] eqn:E.
  - simpl. eapply Forall_lookup_1 in E; [exact E|by apply category_id_filled].
  - apply lookup_ge_None in E. lia.
Qed.

(** C9 on the Shirt table. *)
Lemma category_id_never_null_witness :
  exists l w' out,
    transform_data 0%nat shirt_mapping (Some "shopify") shirt_world = (Ok l, w') /\
    frames w' !! l = Some out /\
    has_col "category_id" out = true /\
    forall i, (i < nrows out)%nat -> isna (cell "category_id" i out) = false.
Proof.
  refine (category_id_never_null shirt_world 0%nat shirt shirt_mapping
            (Some "shopify") eq_refl _).
  by repeat constructor.
Defined.

(** C10: two successive calls of [transform_data] with the same arguments
    both end normally and return frames with the same content; neither
    call changes the converter or any frame the store held when it began,
    the input table and the first output among them. *)
Theorem transform_data_repeatable w df d mapping platform :
  frames w !! df = Some d ->
  exists l1 w1 l2 w2 out,
    transform_data df mapping platform w = (Ok l1, w1) /\
    transform_data df mapping platform w1 = (Ok l2, w2) /\
    frames w1 !! l1 = Some out /\
    frames w2 !! l2 = Some out /\
    converter w1 = converter w /\
    converter w2 = converter w /\
    (forall l x, frames w !! l = Some x -> frames w1 !! l = Some x) /\
    (forall l x, frames w1 !! l = Some x -> frames w2 !! l = Some x).
Proof.
  intros Hdf.
  destruct (transform_data_run w df d mapping platform Hdf) as (l1 & G1 & S1 & Hrun1 & Hl1).
  assert (Hdf1 := grow_keeps w G1 S1 _ _ Hdf).
  destruct (transform_data_run _ df d mapping platform Hdf1) as (l2 & G2 & S2 & Hrun2 & Hl2).
  exists l1, (grow w G1 S1), l2, (grow (grow w G1 S1) G2 S2),
    (transform_frame (converter w) d mapping platform).
  repeat split; try done.
  - intros l x. apply grow_keeps.
  - intros l x. apply grow_keeps.
Qed.

(** C10 on the Shirt table. *)
Lemma transform_data_repeatable_witness :
  exists l1 w1 l2 w2 out,
    transform_data 0%nat shirt_mapping (Some "shopify") shirt_world = (Ok l1, w1) /\
    transform_data 0%nat shirt_mapping (Some "shopify") w1 = (Ok l2, w2) /\
    frames w1 !! l1 = Some out /\
    frames w2 !! l2 = Some out /\
    converter w1 = converter shirt_world /\
    converter w2 = converter shirt_world /\
    (forall l x, frames shirt_world !! l = Some x -> frames w1 !! l = Some x) /\
    (forall l x, frames w1 !! l = Some x -> frames w2 !! l = Some x).
Proof.
  exact (transform_data_repeatable shirt_world 0%nat shirt shirt_mapping (Some "shopify") eq_refl).
Defined.


(** * Further properties *)

Import Observed TreeScenario ReportScenario.

Section Instances.

Lemma shirt_rectangular : rectangular shirt.
Proof. by repeat constructor. Defined.

End Instances.

Section MoreStrings.

Lemma rstrip_idem s : rstrip (rstrip s) = rstrip s.
Proof.
  induction s as [|c s IH]; simpl; [done|].
  destruct (is_space c && String.eqb (rstrip s) "") eqn:E; simpl; [done|].
  by rewrite IH, E.
Qed.

Lemma lstrip_head s :
  lstrip s = "" \/ exists c t, lstrip s = String c t /\ is_space c = false.
Proof.
  induction s as [|c s IH]; simpl; [by left|].
  destruct (is_space c) eqn:E; [done|]. right. by exists c, s.
Qed.

Lemma lstrip_rstrip_lstrip s : lstrip (rstrip (lstrip s)) = rstrip (lstrip s).
Proof.
  destruct (lstrip_head s) as [->|(c & t & -> & Hc)]; [done|].
  simpl. rewrite Hc. simpl. by rewrite Hc.
Qed.

Lemma strip_idem s : strip (strip s) = strip s.
Proof. unfold strip. by rewrite lstrip_rstrip_lstrip, rstrip_idem. Qed.

Lemma lower_char_idem c : lower_char (lower_char c) = lower_char c.
Proof. destruct c as [[] [] [] [] [] [] [] []]; reflexivity. Qed.

Lemma lower_idem s : lower (lower s) = lower s.
Proof.
  unfold lower. induction s as [|c s IH]; simpl; [done|].
  by rewrite lower_char_idem, IH.
Qed.

Lemma prefix_empty s : String.prefix "" s = true.
Proof. by destruct s. Qed.

Lemma contains_empty s : contains "" s = true.
Proof. destruct s; simpl; by rewrite ?prefix_empty. Qed.

Lemma split_go_not_nil sep skip cur s : split_go sep skip cur s <> [].
Proof.
  revert skip cur. induction s as [|c s IH]; intros skip cur; cbn [split_go]; [done|].
  destruct skip; [|apply IH].
  destruct (String.prefix sep (String c s)); [done|apply IH].
Qed.

End MoreStrings.

Section MoreBestMatch.

Lemma first_such_In {A} (p : A -> bool) l x : first_such p l = Some x -> In x l.
Proof.
  induction l as [|y l IH]; simpl; [done|].
  destruct (p y); [intros [= <-]; by left|intros H; right; by apply IH].
Qed.

(** The three stages of [_find_best_match] once its guard is passed. *)
Lemma find_best_match_stages term df :
  term <> "" -> df <> [] ->
  _find_best_match term df =
  let t := strip (lower term) in
  match first_such (exact_hit t) df with
  | Some r => int_of_id r
  | None =>
      match first_such (partial_hit t) df with
      | Some r => int_of_id r
      | None =>
          match first_such (keyword_hit t) df with
          | Some r => int_of_id r
          | None => Ok None
          end
      end
  end.
Proof.
  intros Ht Hdf. unfold _find_best_match. destruct df as [|x l]; [done|].
  by rewrite (proj2 (String.eqb_neq term "") Ht).
Qed.

(** The row [_find_best_match] answered with, when it found one. *)
Lemma find_best_match_row term df o :
  _find_best_match term df = o ->
  o = Ok None \/ exists r, In r df /\ o = int_of_id r.
Proof.
  intros <-. unfold _find_best_match. destruct df as [|x l]; [by left|].
  destruct (String.eqb term ""); [by left|].
  destruct (first_such (exact_hit _) _) as [r|] eqn:E1;
    [right; exists r; split; [by eapply first_such_In|done]|].
  destruct (first_such (partial_hit _) _) as [r|] eqn:E2;
    [right; exists r; split; [by eapply first_such_In|done]|].
  destruct (first_such (keyword_hit _) _) as [r|] eqn:E3;
    [right; exists r; split; [by eapply first_such_In|done]|].
  by left.
Qed.

(** A row [_find_best_match] answers with passes one of its three tests. *)
Lemma find_best_match_hit term df z :
  _find_best_match term df = Ok (Some z) ->
  exists r, In r df /\ row_id r = Some z /\
    (exact_hit (strip (lower term)) r || partial_hit (strip (lower term)) r ||
     keyword_hit (strip (lower term)) r) = true.
Proof.
  unfold _find_best_match. destruct df as [|x l]; [done|].
  destruct (String.eqb term ""); [done|].
  assert (Hid : forall r, int_of_id r = Ok (Some z) -> row_id r = Some z).
  { intros r. unfold int_of_id. destruct (row_id r); congruence. }
  destruct (first_such (exact_hit _) _) as [r|] eqn:E1.
  { intros H. exists r. split; [by eapply first_such_In|]. split; [by apply Hid|].
    by rewrite (first_such_true _ _ _ E1). }
  destruct (first_such (partial_hit _) _) as [r|] eqn:E2.
  { intros H. exists r. split; [by eapply first_such_In|]. split; [by apply Hid|].
    by rewrite (first_such_true _ _ _ E2), orb_true_r. }
  destruct (first_such (keyword_hit _) _) as [r|] eqn:E3; [|done].
  intros H. exists r. split; [by eapply first_such_In|]. split; [by apply Hid|].
  by rewrite (first_such_true _ _ _ E3), orb_true_r.
Qed.

End MoreBestMatch.

(** X1: [parse_shopify_category] fills its three levels from the left:
    a level is absent when the one before it is, every level it returns is
    trimmed, and a cell that is present and truthy gives a first level. *)
Theorem parse_levels v a b c :
  parse_shopify_category v = (a, b, c) ->
  (a = None -> b = None) /\
  (b = None -> c = None) /\
  (forall x, In (Some x) [a; b; c] -> strip x = x) /\
  (truthy v = true -> isna v = false -> is_Some a).
Proof.
  unfold parse_shopify_category.
  destruct (negb (truthy v) || isna v) eqn:E.
  - intros [= <- <- <-]. repeat split; try done.
    + intros x [H|[H|[H|[]]]]; discriminate.
    + intros Ht Hn. rewrite Ht, Hn in E. discriminate.
  - intros [= <- <- <-].
    set (parts := List.map strip (split " > " (py_str v))).
    assert (Hne : parts <> []).
    { unfold parts, split.
      destruct (split_go " > " 0 "" (py_str v)) eqn:Es; [|done].
      by apply split_go_not_nil in Es. }
    assert (Hstrip : forall i x, parts !! i = Some x -> strip x = x).
    { intros i x Hx. unfold parts in Hx.
      apply list_lookup_fmap_Some in Hx as (y & -> & _). apply strip_idem. }
    repeat split.
    + destruct parts; [done|discriminate].
    + destruct parts as [|p0 [|p1 ps]]; try done.
    + intros x [H|[H|[H|[]]]]; eapply Hstrip; exact H.
    + intros _ _. destruct parts; [done|by eexists].
Qed.

Lemma parse_levels_witness :
  parse_shopify_category (VStr " Apparel >  Shirts ") = (Some "Apparel", Some "Shirts", None) /\
  ((Some "Apparel" = None -> Some "Shirts" = None) /\
   (Some "Shirts" = None -> @None string = None) /\
   (forall x, In (Some x) [Some "Apparel"; Some "Shirts"; None] -> strip x = x) /\
   (truthy (VStr " Apparel >  Shirts ") = true ->
    isna (VStr " Apparel >  Shirts ") = false -> is_Some (Some "Apparel"))).
Proof.
  assert (H : parse_shopify_category (VStr " Apparel >  Shirts ")
              = (Some "Apparel", Some "Shirts", None)) by reflexivity.
  split; [exact H|]. exact (parse_levels _ _ _ _ H).
Defined.

(** X2: [_find_best_match] answers from the table it is given: no match
    for an empty term or an empty table; and an id it returns is the id of
    a row of the table that passes one of the three tests (exact,
    substring, keyword) for the term, lowercased and trimmed. *)
Theorem best_match_answers_from_table term df :
  (term = "" \/ df = [] -> _find_best_match term df = Ok None) /\
  (forall z, _find_best_match term df = Ok (Some z) ->
     exists r, In r df /\ row_id r = Some z /\
       (exact_hit (strip (lower term)) r || partial_hit (strip (lower term)) r ||
        keyword_hit (strip (lower term)) r) = true).
Proof.
  split.
  - intros [-> | ->]; [|done]. by destruct df.
  - intros z H. destruct (find_best_match_hit term df z H) as (r & Hr & Hid & Hhit).
    exists r. by repeat split.
Qed.

(** X3: a row whose name is blank after trimming matches every term at
    the substring stage of [_find_best_match]: when no row matches the
    term exactly and no earlier row matches it as a substring, the blank
    row is the one whose id is converted and returned. *)
Theorem blank_name_matches_every_term term before r after :
  term <> "" ->
  strip (lower (row_name r)) = "" ->
  Forall (fun x => exact_hit (strip (lower term)) x = false) (before ++ r :: after) ->
  Forall (fun x => partial_hit (strip (lower term)) x = false) before ->
  _find_best_match term (before ++ r :: after)%list = int_of_id r.
Proof.
  intros Ht Hblank He Hp.
  rewrite find_best_match_stages; [|done|by destruct before].
  cbn zeta. rewrite (first_such_none _ _ He).
  rewrite (first_such_first _ _ _ _ Hp); [done|].
  unfold partial_hit. by rewrite Hblank, contains_empty.
Qed.

Lemma blank_name_matches_every_term_witness :
  _find_best_match "Toys" [mkRow (Some 4) "Books" None; mkRow (Some 9) "  " None;
                            mkRow (Some 5) "Games" None] = Ok (Some 9).
Proof.
  refine (blank_name_matches_every_term "Toys" [mkRow (Some 4) "Books" None]
            (mkRow (Some 9) "  " None) [mkRow (Some 5) "Games" None] _ eq_refl _ _).
  - discriminate.
  - by repeat constructor.
  - by repeat constructor.
Defined.


Section MoreResolver.

Lemma id_truthy_Some o p : id_truthy o = Some p -> o = Some p /\ p <> 0.
Proof.
  destruct o as [z|]; simpl; [|done].
  destruct (Z.eqb_spec z 0); [done|]. by intros [= <-].
Qed.

Lemma with_parent_In p df r :
  In r (with_parent p df) -> In r df /\ row_parent r = Some p.
Proof.
  unfold with_parent. rewrite filter_In. intros [Hr Hp]. split; [done|].
  destruct (row_parent r) as [q|]; [|done]. by apply Z.eqb_eq in Hp as ->.
Qed.

Lemma find_top_row name table z :
  find_top name table = Ok (Some z) ->
  exists df r, table = Some df /\ In r df /\ row_id r = Some z.
Proof.
  unfold find_top. destruct (nonempty name) as [n|]; [|done].
  destruct table as [df|]; [|done]. intros H.
  destruct (find_best_match_row _ _ _ H) as [|(r & Hr & Hid)]; [done|].
  exists df, r. repeat split; [done|]. unfold int_of_id in Hid.
  destruct (row_id r); congruence.
Qed.

Lemma find_level_row name table parent z :
  find_level name table parent = Ok (Some z) ->
  exists df r, table = Some df /\ In r df /\ row_id r = Some z /\
    forall p, id_truthy parent = Some p -> row_parent r = Some p.
Proof.
  unfold find_level. destruct (nonempty name) as [n|]; [|done].
  destruct table as [df|]; [|done]. intros H.
  destruct (find_best_match_row _ _ _ H) as [|(r & Hr & Hid)]; [done|].
  assert (Hz : row_id r = Some z).
  { unfold int_of_id in Hid. destruct (row_id r); congruence. }
  exists df, r. destruct (id_truthy parent) as [p|].
  - apply with_parent_In in Hr as [Hr Hp]. repeat split; try done. by intros ? [= <-].
  - repeat split; done.
Qed.

End MoreResolver.

(** X4: the ids [find_category_ids] returns follow the reference
    tables: each id is the id of a row of the table of its level, a row of
    a lower level has the id found above it as its parent, and the store is
    left as it was. *)
Theorem find_category_ids_follow_the_tree a b c w i j k w' :
  find_category_ids a b c w = (Ok (i, j, k), w') ->
  w' = w /\
  (forall z, i = Some z ->
     exists df r, categories_df (converter w) = Some df /\ In r df /\ row_id r = Some z) /\
  (forall z, j = Some z ->
     exists df r, sub_categories_df (converter w) = Some df /\ In r df /\
       row_id r = Some z /\
       forall p, id_truthy i = Some p -> row_parent r = Some p) /\
  (forall z, k = Some z ->
     exists df r, sub_sub_categories_df (converter w) = Some df /\ In r df /\
       row_id r = Some z /\
       forall p, id_truthy j = Some p -> row_parent r = Some p).
Proof.
  rewrite find_category_ids_run. unfold find_ids. intros [= H <-].
  split; [done|].
  destruct (find_top a _) as [i'|] eqn:Ei; [|done]. rewrite obind_ok in H.
  destruct (find_level b _ i') as [j'|] eqn:Ej; [|done]. rewrite obind_ok in H.
  destruct (find_level c _ j') as [k'|] eqn:Ek; [|done]. rewrite obind_ok in H.
  injection H as <- <- <-.
  split; [|split].
  - intros z ->. by apply find_top_row in Ei.
  - intros z ->. by apply find_level_row in Ej.
  - intros z ->. by apply find_level_row in Ek.
Qed.


Lemma find_category_ids_follow_the_tree_witness :
  find_category_ids (Some "Apparel") (Some "Shirts") (Some "Tees") tree_world =
    (Ok (Some 1, Some 11, None), tree_world) /\
  exists df r, sub_categories_df tree = Some df /\ In r df /\
    row_id r = Some 11 /\ forall p, id_truthy (Some 1) = Some p -> row_parent r = Some p.
Proof.
  assert (H : find_category_ids (Some "Apparel") (Some "Shirts") (Some "Tees") tree_world =
              (Ok (Some 1, Some 11, None), tree_world)) by reflexivity.
  split; [exact H|].
  exact (proj1 (proj2 (proj2 (find_category_ids_follow_the_tree _ _ _ _ _ _ _ _ H))) 11 eq_refl).
Defined.


Section MoreMapping.
Local Open Scope nat_scope.
Local Open Scope list_scope.


Lemma col_fill_col_same c v df : col c (fill_col c v df) = replicate (nrows df) v.
Proof. apply col_set_col_same. Qed.

Lemma col_fill_col_other c c' v df : c' <> c -> col c' (fill_col c v df) = col c' df.
Proof. apply col_set_col_other. Qed.

Lemma col_set_at_other i c c' v df : c' <> c -> col c' (set_at i c v df) = col c' df.
Proof. apply col_set_col_other. Qed.

Lemma cell_set_at_same i c v df :
  i < length (col c df) -> cell c i (set_at i c v df) = v.
Proof.
  intros Hi. unfold cell, set_at. rewrite col_set_col_same.
  by rewrite list_lookup_insert_eq.
Qed.

Lemma cell_set_at_ne i j c c' v df :
  (c' <> c \/ j <> i) -> cell c' j (set_at i c v df) = cell c' j df.
Proof.
  intros H. unfold cell.
  destruct (String.eqb_spec c' c) as [->|Hne].
  - unfold set_at. rewrite col_set_col_same.
    destruct H as [H|H]; [done|]. by rewrite list_lookup_insert_ne.
  - by rewrite col_set_at_other.
Qed.

Lemma col_blank_ids_other c d : ~ In c id_columns -> col c (blank_ids d) = col c d.
Proof.
  intros H. unfold blank_ids. cbn in H.
  rewrite !col_fill_col_other; [done|intros ->; tauto..].
Qed.

Lemma col_set_ids_other c idx ids r : ~ In c id_columns -> col c (set_ids idx ids r) = col c r.
Proof.
  intros H. unfold set_ids. cbn in H.
  rewrite !col_set_at_other; [done|intros ->; tauto..].
Qed.

Lemma col_map_rows_other cv d cc c idxs : forall r,
  ~ In c id_columns -> col c (map_rows cv d cc idxs r).2 = col c r.
Proof.
  induction idxs as [|idx idxs IH]; intros r H; simpl; [done|].
  destruct (row_ids cv d cc idx); simpl; [|done].
  by rewrite IH, col_set_ids_other.
Qed.


Lemma id_or_1_is_id o : is_id (id_or_1 o).
Proof.
  unfold id_or_1. destruct (id_truthy o) as [z|] eqn:E.
  - apply id_truthy_Some in E as [_ Hz]. by exists z.
  - by exists 1%Z.
Qed.

Lemma row_ids_are_ids cv d cc idx ids :
  row_ids cv d cc idx = Ok ids -> is_id ids.1.1 /\ is_id ids.1.2 /\ is_id ids.2.
Proof.
  unfold row_ids. destruct (parse_shopify_category _) as [[x y] z].
  destruct (find_ids cv x y z) as [[[i j] k]|e]; [|done].
  rewrite obind_ok. intros [= <-]. simpl. auto using id_or_1_is_id.
Qed.

Lemma cell_set_ids n idx ids r c i :
  id_shaped n r -> idx < n -> In c id_columns ->
  is_id ids.1.1 -> is_id ids.1.2 -> is_id ids.2 ->
  (i = idx \/ is_id (cell c i r)) -> is_id (cell c i (set_ids idx ids r)).
Proof.
  intros (H1 & H2 & H3) Hidx Hc Ha Hb Hk Hi. unfold set_ids.
  assert (L1 := shaped_col _ _ _ H1).
  assert (H2' : shaped n "sub_category_id" (set_at idx "category_id" ids.1.1 r))
    by (apply (shaped_set_at _ _ _ _ _ _ H2), H1).
  assert (L2 := shaped_col _ _ _ H2').
  assert (H3' : shaped n "sub_sub_category_id"
             (set_at idx "sub_category_id" ids.1.2 (set_at idx "category_id" ids.1.1 r))).
  { apply (shaped_set_at n "sub_sub_category_id").
    - apply (shaped_set_at _ _ _ _ _ _ H3), H1.
    - apply H2'. }
  assert (L3 := shaped_col _ _ _ H3').
  destruct (Nat.eq_dec i idx) as [->|Hne].
  - destruct Hc as [<-|[<-|[<-|[]]]].
    + rewrite !cell_set_at_ne by (by left). rewrite cell_set_at_same by lia. done.
    + rewrite cell_set_at_ne by (by left). rewrite cell_set_at_same by lia. done.
    + rewrite cell_set_at_same by lia. done.
  - destruct Hi as [?|Hi]; [done|].
    rewrite !cell_set_at_ne by (by right). done.
Qed.

Lemma cell_map_rows cv d cc n c i idxs : forall r,
  id_shaped n r -> In c id_columns -> Forall (fun idx => idx < n) idxs ->
  (map_rows cv d cc idxs r).1 = Ok tt ->
  (In i idxs \/ is_id (cell c i r)) ->
  is_id (cell c i (map_rows cv d cc idxs r).2).
Proof.
  induction idxs as [|idx idxs IH]; intros r Hr Hc Hn Hok Hi; simpl in *.
  - by destruct Hi.
  - inversion Hn as [|? ? Hidx Hn']; subst.
    destruct (row_ids cv d cc idx) as [ids|e] eqn:E; simpl in *; [|done].
    destruct (row_ids_are_ids _ _ _ _ _ E) as (Ha & Hb & Hk).
    apply IH; try done; [by apply set_ids_ok|].
    destruct Hi as [[<-|Hi]|Hi]; [right|by left|right].
    + apply (cell_set_ids n); auto.
    + apply (cell_set_ids n); auto.
Qed.

End MoreMapping.

(** X5: [map_shopify_categories] on a column the frame lacks shows the
    warning for the missing column and returns a new frame with
    category_id 1 and the two lower ids missing in every row, every other
    column as in the source. *)
Theorem map_shopify_categories_without_column w df d category_column :
  frames w !! df = Some d ->
  has_col category_column d = false ->
  exists m,
    map_shopify_categories df category_column w =
      (Ok (length (frames w)),
       mkWorld (converter w) (frames w ++ [m]) (shown w ++ [WColumnNotFound category_column])) /\
    col "category_id" m = replicate (nrows d) (VInt 1) /\
    col "sub_category_id" m = replicate (nrows d) VNull /\
    col "sub_sub_category_id" m = replicate (nrows d) VNull /\
    forall c, ~ In c id_columns -> col c m = col c d.
Proof.
  intros Hdf Hcol.
  exists (fill_col "category_id" (VInt 1) (blank_ids d)).
  split; [|split; [|split; [|split]]].
  - replace (map_shopify_categories df category_column w)
      with (map_shopify_categories df category_column (grow w [] [])) by (by rewrite grow_nil).
    unfold map_shopify_categories.
    rewrite run_bind, (read_old _ _ _ _ _ Hdf).
    rewrite run_bind, alloc_grow.
    rewrite run_bind, update_last, run_bind, update_last, run_bind, update_last.
    rewrite Hcol. cbn [negb].
    rewrite run_bind, warn_grow, run_bind, update_last.
    fold (blank_ids d). simpl. rewrite Nat.add_0_r. reflexivity.
  - by rewrite col_fill_col_same.
  - rewrite col_fill_col_other by done. unfold blank_ids.
    rewrite col_fill_col_other by done. by rewrite col_fill_col_same.
  - rewrite col_fill_col_other by done. unfold blank_ids. by rewrite col_fill_col_same.
  - intros c Hc. rewrite col_fill_col_other by (intros ->; apply Hc; cbn; auto).
    by apply col_blank_ids_other.
Qed.

Lemma map_shopify_categories_without_column_witness :
  exists m,
    map_shopify_categories 0%nat "Collection" shirt_world =
      (Ok (length (frames shirt_world)),
       mkWorld (converter shirt_world) (frames shirt_world ++ [m])
               (shown shirt_world ++ [WColumnNotFound "Collection"])) /\
    col "category_id" m = replicate (nrows shirt) (VInt 1) /\
    col "sub_category_id" m = replicate (nrows shirt) VNull /\
    col "sub_sub_category_id" m = replicate (nrows shirt) VNull /\
    forall c, ~ In c id_columns -> col c m = col c shirt.
Proof.
  exact (map_shopify_categories_without_column shirt_world 0%nat shirt "Collection"
           eq_refl eq_refl).
Defined.

(** X6: when [map_shopify_categories] returns on a column the frame
    has, the frame it returns is a new one with the rows of the source,
    every cell of the three id columns holds a non-zero integer, every
    other column is as in the source, and no warning is shown. *)
Theorem map_shopify_categories_fills_every_id w df d category_column l w' :
  frames w !! df = Some d ->
  rectangular d ->
  has_col category_column d = true ->
  map_shopify_categories df category_column w = (Ok l, w') ->
  exists m,
    l = length (frames w) /\
    w' = mkWorld (converter w) (frames w ++ [m]) (shown w) /\
    nrows m = nrows d /\
    (forall c i, In c id_columns -> (i < nrows d)%nat -> is_id (cell c i m)) /\
    (forall c, ~ In c id_columns -> col c m = col c d).
Proof.
  intros Hdf Hd Hcol.
  replace (map_shopify_categories df category_column w)
    with (map_shopify_categories df category_column (grow w [] [])) by (by rewrite grow_nil).
  rewrite (map_shopify_categories_run _ _ _ _ _ _ Hdf Hcol).
  destruct (mapped (converter w) d category_column) as [[[]|e] m] eqn:E;
    cbn [fst snd]; [|done].
  intros [= <- <-]. exists m.
  assert (Hm := mapped_ok (converter w) d category_column Hd). rewrite E in Hm. simpl in Hm.
  split; [simpl; lia|]. split; [unfold grow; simpl; by rewrite app_nil_r|].
  split; [apply Hm|]. split.
  - intros c i Hc Hi. unfold mapped in E.
    replace m with (map_rows (converter w) d category_column (seq 0 (nrows d)) (blank_ids d)).2
      by (by rewrite E).
    apply (cell_map_rows _ _ _ (nrows d)); try done.
    + split; [|split]; apply blank_ids_ok; simpl; auto.
    + apply Forall_forall. intros x Hx. apply list_elem_of_In, in_seq in Hx. lia.
    + by rewrite E.
    + left. apply in_seq. lia.
  - intros c Hc. unfold mapped in E.
    replace m with (map_rows (converter w) d category_column (seq 0 (nrows d)) (blank_ids d)).2
      by (by rewrite E).
    rewrite col_map_rows_other by done. by apply col_blank_ids_other.
Qed.

Lemma map_shopify_categories_fills_every_id_witness :
  exists l w' m,
    map_shopify_categories 0%nat "Product Category" shirt_world = (Ok l, w') /\
    l = length (frames shirt_world) /\
    w' = mkWorld (converter shirt_world) (frames shirt_world ++ [m]) (shown shirt_world) /\
    nrows m = nrows shirt /\
    (forall c i, In c id_columns -> (i < nrows shirt)%nat -> is_id (cell c i m)) /\
    (forall c, ~ In c id_columns -> col c m = col c shirt).
Proof.
  assert (H : map_shopify_categories 0%nat "Product Category" shirt_world =
              (Ok 1%nat, (map_shopify_categories 0%nat "Product Category" shirt_world).2))
    by (by vm_compute).
  destruct (map_shopify_categories_fills_every_id shirt_world 0%nat shirt
              "Product Category" _ _ eq_refl shirt_rectangular eq_refl H) as (m & Hm).
  by exists 1%nat, (map_shopify_categories 0%nat "Product Category" shirt_world).2, m.
Defined.


Section MoreShape.
Local Open Scope nat_scope.
Local Open Scope list_scope.

Lemma has_col_set_col_present c c' vs r :
  has_col c r = true -> has_col c' (set_col c vs r) = has_col c' r.
Proof.
  intros H. rewrite has_col_set_col.
  destruct (String.eqb_spec c c') as [<-|]; [by rewrite H|done].
Qed.

Lemma has_key_init c (ks : list string) (v : list value) : forall acc,
  has_key c (fold_left (fun result_data k => assoc_set k v result_data) ks acc) = true <->
  has_key c acc = true \/ In c ks.
Proof.
  induction ks as [|k ks IH]; intros acc; simpl; [tauto|].
  rewrite IH, has_key_set.
  destruct (String.eqb_spec k c) as [->|Hne]; simpl; [tauto|]. intuition congruence.
Qed.

Lemma has_col_result0 d mapping c :
  has_col c (result0 d mapping) = true <-> In c ALL_SALAAZ_COLUMNS \/ mapped_key d mapping c.
Proof.
  unfold result0, frame_of_dict, map_result_data, mapped_key.
  change (has_col c {| nrows := nrows d; columns := ?x |}) with (has_key c x).
  assert (H : forall acc,
    has_key c (fold_left (fun result_data m =>
        if negb (String.eqb m.2 "") && has_col m.2 d
        then assoc_set m.1 (col m.2 d) result_data else result_data) mapping acc) = true <->
    has_key c acc = true \/
    exists src, In (c, src) mapping /\ src <> "" /\ has_col src d = true).
  { induction mapping as [|[k src] mapping IH]; intros acc; cbn [fold_left fst snd].
    - split; [by left|]. intros [H|(src & [] & _)]; done.
    - rewrite IH. destruct (negb (String.eqb src "") && has_col src d) eqn:E.
      + apply andb_true_iff in E as [E1 E2].
        apply negb_true_iff, String.eqb_neq in E1.
        rewrite has_key_set. destruct (String.eqb_spec k c) as [->|Hne]; simpl.
        * split; [|by left]. intros _. right. exists src. auto.
        * split.
          -- intros [H|(s & Hs & Hr)]; [by left|]. right. exists s. auto.
          -- intros [H|(s & [[= -> ->]|Hs] & Hr)]; [by left|done|]. right. exists s. auto.
      + split.
        * intros [H|(s & Hs & Hr)]; [by left|]. right. exists s. simpl. auto.
        * intros [H|(s & [[= -> ->]|Hs] & Hne & Hr)]; [by left| |right; exists s; auto].
          apply String.eqb_neq in Hne. rewrite Hne, Hr in E. discriminate. }
  rewrite H. unfold init_result_data. rewrite has_key_init.
  change (has_key c []) with false. intuition discriminate.
Qed.

Lemma shaped_has n c r : shaped n c r -> has_col c r = true.
Proof. by intros (_ & _ & H). Qed.

Lemma has_col_copy_from c c' m r :
  has_col c r = true -> has_col c' (copy_from c m r) = has_col c' r.
Proof.
  intros H. unfold copy_from. destruct (has_col c m); [|done].
  by apply has_col_set_col_present.
Qed.

Lemma has_col_with_categories cv d mapping platform c :
  rectangular d ->
  has_col c (with_categories cv d mapping platform) = has_col c (result0 d mapping).
Proof.
  intros Hd. unfold with_categories.
  destruct (category_source_col d platform) as [cc|]; [|done].
  destruct (mapped cv d cc) as [[[]|e] m] eqn:E; [|done].
  destruct (mapped_ok cv d cc Hd) as (H1 & H2 & H3). rewrite E in H1, H2, H3.
  assert (K : forall k, In k ALL_SALAAZ_COLUMNS -> shaped (nrows d) k (result0 d mapping))
    by (intros; by apply result0_ok).
  unfold copy_ids.
  simpl in H1, H2, H3.
  rewrite has_col_copy_from, has_col_copy_from, has_col_copy_from; [done|..].
  - apply (shaped_has (nrows d)), K; cbn; auto 6.
  - apply (shaped_has (nrows d)), copy_from_ok; [apply K; cbn; auto 8|done].
  - apply (shaped_has (nrows d)).
    apply copy_from_ok; [apply copy_from_ok; [apply K; cbn; auto 8|done]|done].
Qed.

Lemma has_col_with_variants c s r :
  has_col "variant_attributes" r = true -> has_col c (with_variants s r) = has_col c r.
Proof.
  intros H. unfold with_variants. destruct (variant_columns s); [done|].
  by apply has_col_set_col_present.
Qed.

Lemma has_col_cleaned c s r :
  has_col "variant_attributes" r = true -> has_col c (cleaned s r) = has_col c r.
Proof.
  intros H. unfold cleaned, with_defaults.
  rewrite !has_col_map_col, has_col_with_variants, has_col_map_col; [done|].
  by rewrite has_col_map_col.
Qed.

Lemma has_col_required_rows c r : has_col c (required_rows r) = has_col c r.
Proof. unfold required_rows. destruct (_ && _); [apply has_col_select|done]. Qed.

Lemma has_col_transform_frame cv d mapping platform c :
  rectangular d ->
  has_col c (transform_frame cv d mapping platform) = has_col c (result0 d mapping).
Proof.
  intros Hd. unfold transform_frame, dropna_all.
  rewrite has_col_select, has_col_required_rows, has_col_cleaned.
  - by apply has_col_with_categories.
  - apply (shaped_has (nrows d)), with_categories_ok; [done|]. cbn. auto 20.
Qed.

Lemma nrows_required_rows r : nrows (required_rows r) <= nrows r.
Proof.
  unfold required_rows. destruct (_ && _); [|done]. simpl.
  etrans; [apply count_true_le|]. unfold required_mask. by rewrite row_mask_length.
Qed.

Lemma nrows_transform_frame cv d mapping platform :
  rectangular d -> nrows (transform_frame cv d mapping platform) <= nrows d.
Proof.
  intros Hd. unfold transform_frame, dropna_all. simpl.
  etrans; [apply count_true_le|]. rewrite row_mask_length.
  etrans; [apply nrows_required_rows|].
  assert (H : shaped (nrows d) "name" (cleaned d (with_categories cv d mapping platform))).
  { apply cleaned_ok; [done|]. apply with_categories_ok; [done|]. cbn; auto. }
  destruct H as (_ & -> & _). done.
Qed.

End MoreShape.

(** X7: the frame [transform_data] returns is rectangular, has no more
    rows than the source, and its columns are the fifteen target fields
    and the keys of the mapping whose source column is a non-empty name of
    a column of the source. *)
Theorem transform_data_output_shape w df d mapping platform :
  frames w !! df = Some d ->
  rectangular d ->
  exists l w' out,
    transform_data df mapping platform w = (Ok l, w') /\
    frames w' !! l = Some out /\
    rectangular out /\
    (nrows out <= nrows d)%nat /\
    forall c, has_col c out = true <->
              In c ALL_SALAAZ_COLUMNS \/ mapped_key d mapping c.
Proof.
  intros Hdf Hd.
  destruct (transform_data_run w df d mapping platform Hdf) as (l & G & S & Hrun & Hl).
  exists l, (grow w G S), (transform_frame (converter w) d mapping platform).
  split; [done|]. split; [done|]. split; [|split].
  - apply (transform_frame_ok (converter w) d mapping platform "name" Hd). cbn; auto.
  - by apply nrows_transform_frame.
  - intros c. rewrite has_col_transform_frame by done. apply has_col_result0.
Qed.

Lemma transform_data_output_shape_witness :
  exists l w' out,
    transform_data 0%nat shirt_mapping (Some "shopify") shirt_world = (Ok l, w') /\
    frames w' !! l = Some out /\
    rectangular out /\
    (nrows out <= nrows shirt)%nat /\
    forall c, has_col c out = true <->
              In c ALL_SALAAZ_COLUMNS \/ mapped_key shirt shirt_mapping c.
Proof.
  exact (transform_data_output_shape shirt_world 0%nat shirt shirt_mapping
           (Some "shopify") eq_refl shirt_rectangular).
Defined.

(** X8: in every row of the frame [transform_data] returns, name and
    description are present and not blank. *)
Theorem transform_data_drops_blank_rows w df d mapping platform :
  frames w !! df = Some d ->
  rectangular d ->
  exists l w' out,
    transform_data df mapping platform w = (Ok l, w') /\
    frames w' !! l = Some out /\
    forall i, (i < nrows out)%nat ->
      filled (cell "name" i out) = true /\ filled (cell "description" i out) = true.
Proof.
  intros Hdf Hd.
  destruct (transform_data_run w df d mapping platform Hdf) as (l & G & S & Hrun & Hl).
  exists l, (grow w G S), (transform_frame (converter w) d mapping platform).
  split; [done|]. split; [done|].
  set (C := cleaned d (with_categories (converter w) d mapping platform)).
  assert (HC : forall c, In c ALL_SALAAZ_COLUMNS -> shaped (nrows d) c C).
  { intros c Hc. apply cleaned_ok; [done|]. by apply with_categories_ok. }
  assert (K : forall c, c = "name" \/ c = "description" ->
            Forall (fun v => filled v = true)
                   (col c (transform_frame (converter w) d mapping platform))).
  { intros c Hc. unfold transform_frame, dropna_all. rewrite col_select.
    apply keep_Forall. fold C.
    apply (required_rows_filled c C (nrows d)); [apply HC; cbn; auto..|done]. }
  intros i Hi. split.
  - apply (Forall_cell (fun v => filled v = true)); try done.
    + apply (transform_frame_ok (converter w) d mapping platform "name" Hd). cbn; auto.
    + apply (transform_frame_ok (converter w) d mapping platform "name" Hd). cbn; auto.
    + apply K. by left.
  - apply (Forall_cell (fun v => filled v = true)); try done.
    + apply (transform_frame_ok (converter w) d mapping platform "name" Hd). cbn; auto.
    + apply (transform_frame_ok (converter w) d mapping platform "description" Hd). cbn; auto.
    + apply K. by right.
Qed.

Lemma transform_data_drops_blank_rows_witness :
  exists l w' out,
    transform_data 0%nat shirt_mapping (Some "shopify") shirt_world = (Ok l, w') /\
    frames w' !! l = Some out /\
    forall i, (i < nrows out)%nat ->
      filled (cell "name" i out) = true /\ filled (cell "description" i out) = true.
Proof.
  exact (transform_data_drops_blank_rows shirt_world 0%nat shirt shirt_mapping
           (Some "shopify") eq_refl shirt_rectangular).
Defined.


Section MoreCleaning.

Lemma sfilter_idem p s : sfilter p (sfilter p s) = sfilter p s.
Proof.
  induction s as [|c s IH]; simpl; [done|].
  destruct (p c) eqn:E; simpl; [by rewrite E, IH|done].
Qed.

Lemma clean_price_null_or_text v : null_or_text (_clean_price v).
Proof.
  unfold _clean_price. destruct (isna v); [by left|].
  destruct (str_float _) as [t|]; [right; by exists t|by left].
Qed.

(** *** Strings of dots are no float *)

Lemma lstrip_dots k : lstrip (dots k) = dots k.
Proof. by destruct k. Qed.

Lemma rstrip_dots k : rstrip (dots k) = dots k.
Proof. induction k as [|k IH]; simpl; [done|]. by rewrite IH. Qed.

Lemma underscores_ok_dots b k : underscores_ok b (dots k) = true.
Proof. revert b. induction k as [|k IH]; intros b; simpl; [done|apply IH]. Qed.

Lemma remove_underscore_dots k : remove_char "_" (dots k) = dots k.
Proof. unfold remove_char. induction k as [|k IH]; simpl; [done|]. by rewrite IH. Qed.

Lemma lower_dots k : lower (dots k) = dots k.
Proof. unfold lower. induction k as [|k IH]; simpl; [done|]. by rewrite IH. Qed.

Lemma read_digits_dots k : read_digits 0 0 (dots k) = (0, O, dots k).
Proof. by destruct k. Qed.

Lemma py_float_dots k : py_float (dots k) = FloatError.
Proof.
  unfold py_float, strip.
  rewrite lstrip_dots, rstrip_dots, underscores_ok_dots, remove_underscore_dots.
  cbn [negb].
  assert (Hs : read_sign (dots k) = (false, dots k)) by (by destruct k).
  rewrite Hs, lower_dots.
  assert (Hn : String.eqb (dots k) "inf" || String.eqb (dots k) "infinity" = false)
    by (by destruct k).
  assert (Hn' : String.eqb (dots k) "nan" = false) by (by destruct k).
  rewrite Hn, Hn', read_digits_dots.
  destruct k as [|k]; [done|]. cbn [dots]. by rewrite read_digits_dots.
Qed.

(** A text without a digit is, once the price characters are kept and the
    commas handled, a string of dots. *)
Lemma no_digit_dots s :
  sexists is_digit s = false ->
  exists k, (let price_str := sfilter keep_price_char s in
             if has_char "," price_str && has_char "." price_str
             then remove_char "," price_str
             else if has_char "," price_str then replace_char "," "." price_str
             else price_str) = dots k.
Proof.
  intros Hs. cbn zeta.
  assert (Hshape : forall t, sexists is_digit t = false ->
            (exists k, remove_char "," (sfilter keep_price_char t) = dots k) /\
            (exists k, replace_char "," "." (sfilter keep_price_char t) = dots k) /\
            (has_char "," (sfilter keep_price_char t) = false ->
             exists k, sfilter keep_price_char t = dots k)).
  { induction t as [|c t IH]; simpl.
    - intros _. repeat split; try intros _; by exists O.
    - intros H. apply orb_false_iff in H as [Hc Ht].
      destruct (IH Ht) as ((k1 & H1) & (k2 & H2) & H3).
      unfold keep_price_char. rewrite Hc. simpl.
      destruct (Ascii.eqb_spec c ".") as [->|Hdot]; simpl.
      + repeat split.
        * exists (S k1). simpl. by rewrite <- H1.
        * exists (S k2). simpl. by rewrite <- H2.
        * intros Hcomma. destruct (H3 Hcomma) as (k3 & H3'). exists (S k3). simpl.
          by rewrite <- H3'.
      + destruct (Ascii.eqb_spec c ",") as [->|Hcomma]; simpl.
        * repeat split; [by exists k1|exists (S k2); simpl; by rewrite <- H2|done].
        * repeat split; [by exists k1|by exists k2|done]. }
  destruct (Hshape s Hs) as (H1 & H2 & H3).
  destruct (has_char "," (sfilter keep_price_char s)) eqn:Ec.
  - destruct (has_char "." _); simpl; done.
  - simpl. by apply H3.
Qed.

(** *** Image texts *)

Lemma prefix_cons a p b s :
  String.prefix (String a p) (String b s) =
  if ascii_dec a b then String.prefix p s else false.
Proof. reflexivity. Qed.

Lemma prefix_shorter p q s :
  String.prefix (p ++ q) s = true -> String.prefix p s = true.
Proof.
  revert s. induction p as [|a p IH]; intros s.
  - by destruct s.
  - change (String a p +:+ q) with (String a (p +:+ q)).
    destruct s as [|b s]; [done|]. rewrite !prefix_cons.
    destruct (ascii_dec a b); [apply IH|done].
Qed.

Lemma prefix_https s : String.prefix "https" s = true -> String.prefix "http" s = true.
Proof. apply (prefix_shorter "http" "s"). Qed.

Lemma prefix_append p s t : String.prefix p s = true -> String.prefix p (s ++ t) = true.
Proof.
  revert s. induction p as [|a p IH]; intros s; [by destruct (s +:+ t)|].
  destruct s as [|b s]; [done|].
  change (String b s +:+ t) with (String b (s +:+ t)). rewrite !prefix_cons.
  destruct (ascii_dec a b); [apply IH|done].
Qed.

Lemma clean_image_urls_null_or_urls v : null_or_urls (_clean_image_urls v).
Proof.
  unfold _clean_image_urls. destruct (isna v); [by left|].
  destruct (String.eqb _ ""); [by left|].
  destruct (List.filter _ _) as [|u us] eqn:E; [by left|].
  right. eexists. split; [reflexivity|].
  assert (Hu : In u (u :: us)) by (by left).
  rewrite <- E in Hu. apply filter_In in Hu as [_ Hu].
  apply andb_true_iff in Hu as [_ Hu].
  assert (Hp : String.prefix "http" u = true).
  { apply orb_true_iff in Hu as [Hu|Hu]; [done|by apply prefix_https]. }
  unfold startswith, join. simpl. destruct us; [done|by apply prefix_append].
Qed.

End MoreCleaning.

(** X16: [_clean_price] reads digits, commas and dots only: a text
    and the text of its digits, commas and dots give the same price; a
    text without a digit gives no price; and a price is missing or a text. *)
Theorem clean_price_reads_digits_commas_dots :
  (forall s, _clean_price (VStr s) = _clean_price (VStr (sfilter keep_price_char s))) /\
  (forall s, sexists is_digit s = false -> _clean_price (VStr s) = VNull) /\
  (forall v, null_or_text (_clean_price v)).
Proof.
  split; [|split].
  - intros s. unfold _clean_price. cbn [isna py_str].
    by rewrite !(sfilter_strip _ _ space_not_kept), sfilter_idem.
  - intros s Hs. unfold _clean_price. cbn [isna py_str].
    rewrite (sfilter_strip _ _ space_not_kept).
    destruct (no_digit_dots s Hs) as (k & Hk). cbn zeta in Hk. rewrite Hk.
    unfold str_float. by rewrite py_float_dots.
  - apply clean_price_null_or_text.
Qed.


Section MoreDetect.
Local Open Scope list_scope.

Lemma mem_In s l : mem s l = true <-> In s l.
Proof.
  unfold mem. rewrite existsb_exists. split.
  - intros (x & Hx & E). apply String.eqb_eq in E. by subst.
  - intros H. exists s. split; [done|apply String.eqb_refl].
Qed.

Lemma mem_same s l1 l2 : (forall x, In x l1 <-> In x l2) -> mem s l1 = mem s l2.
Proof. intros H. apply eq_true_iff_eq. rewrite !mem_In. apply H. Qed.

Lemma field_hit_same l1 l2 cands :
  (forall x, In x l1 <-> In x l2) -> field_hit l1 cands = field_hit l2 cands.
Proof.
  intros H. unfold field_hit. induction cands as [|c cs IH]; simpl; [done|].
  by rewrite IH, (mem_same _ l1 l2 H).
Qed.

Lemma profile_score_same l1 l2 pm :
  (forall x, In x l1 <-> In x l2) -> profile_score l1 pm = profile_score l2 pm.
Proof.
  intros H. unfold profile_score. f_equal.
  induction pm as [|f pm IH]; simpl; [done|].
  by rewrite IH, (field_hit_same l1 l2 _ H).
Qed.

(** What [detect_platform] answers, through the scores alone. *)
Lemma detect_platform_score columns p :
  detect_platform columns = Some p ->
  exists pm, assoc p PLATFORM_MAPPINGS = Some pm /\
             (3 <= profile_score (List.map lower columns) pm)%nat.
Proof.
  destruct platforms_shape as (ps & pa & pw & HPM & Ls & La & Lw).
  unfold detect_platform, scores. rewrite HPM.
  cbn [List.map fst snd max_by_score assoc].
  unfold score_of. rewrite Ls, La, Lw. change (Z.of_nat 8) with 8.
  pose proof (profile_score_le (List.map lower columns) ps) as Bs.
  pose proof (profile_score_le (List.map lower columns) pa) as Ba.
  pose proof (profile_score_le (List.map lower columns) pw) as Bw.
  rewrite Ls in Bs. rewrite La in Ba. rewrite Lw in Bw.
  remember (profile_score (List.map lower columns) ps) as s eqn:Es.
  remember (profile_score (List.map lower columns) pa) as a eqn:Ea.
  remember (profile_score (List.map lower columns) pw) as w eqn:Ew.
  cbn [fst snd].
  destruct (double_ltb (int_truediv (Z.of_nat s) 8) (int_truediv (Z.of_nat a) 8));
    cbn [fst snd];
    match goal with |- context [if double_ltb ?x ?y then ("woocommerce", _) else _] =>
      destruct (double_ltb x y) end; cbn [fst snd];
    rewrite eighths_threshold by done;
    match goal with |- context [3 * 8 <? ?x * 10] =>
      destruct (Z.ltb_spec (3 * 8) (x * 10)) as [Hth|Hth] end;
    intros [= <-]; eexists; (split; [reflexivity|subst; lia]).
Qed.

End MoreDetect.

(** X12: [detect_platform] reads the column names as a set of lowercased
    names: two lists with the same lowercased names, in any order, case
    and multiplicity, get the same answer. *)
Theorem detect_platform_reads_a_set_of_names columns1 columns2 :
  (forall x, In x (List.map lower columns1) <-> In x (List.map lower columns2)) ->
  detect_platform columns1 = detect_platform columns2.
Proof.
  intros H. unfold detect_platform.
  replace (scores columns2) with (scores columns1); [done|].
  unfold scores. apply map_ext. intros [p pm]. cbn [fst snd]. f_equal.
  unfold score_of. by rewrite (profile_score_same _ _ pm H).
Qed.

Lemma detect_platform_reads_a_set_of_names_witness :
  detect_platform ["Title"; "Vendor"; "Variant Price"] =
  detect_platform ["VENDOR"; "variant price"; "title"; "Title"].
Proof.
  apply detect_platform_reads_a_set_of_names.
  intros x. cbn. tauto.
Defined.


Section MoreSuggest.
Local Open Scope list_scope.
Local Open Scope nat_scope.

Lemma first_some_In {A B} (f : A -> option B) l y :
  first_some f l = Some y -> exists x, In x l /\ f x = Some y.
Proof.
  induction l as [|x l IH]; simpl; [done|].
  destruct (f x) as [z|] eqn:E.
  - intros [= <-]. exists x. auto.
  - intros H. destruct (IH H) as (x' & Hx & Hf). exists x'. auto.
Qed.

Lemma lookup_In {A} (l : list A) i x : l !! i = Some x -> In x l.
Proof.
  revert i. induction l as [|y l IH]; intros [|i]; simpl; try done.
  - intros [= <-]. by left.
  - intros H. right. by eapply IH.
Qed.

Lemma index_of_lookup s l i : index_of s l = Some i -> l !! i = Some s.
Proof.
  revert i. induction l as [|x l IH]; simpl; intros i; [done|].
  destruct (String.eqb_spec x s) as [->|Hne]; [by intros [= <-]|].
  destruct (index_of s l) as [j|]; simpl; [|done].
  intros [= <-]. simpl. by apply IH.
Qed.

Lemma index_of_mem s l : mem s l = true -> is_Some (index_of s l).
Proof.
  unfold mem. induction l as [|x l IH]; simpl; [done|].
  rewrite (String.eqb_sym s x). destruct (String.eqb x s); simpl; [by eexists|].
  intros H. destruct (IH H) as [j ->]. by eexists.
Qed.

Lemma index_of_none s l : mem s l = false -> index_of s l = None.
Proof.
  unfold mem. induction l as [|x l IH]; simpl; [done|].
  rewrite (String.eqb_sym s x). destruct (String.eqb x s); simpl; [done|].
  intros H. by rewrite (IH H).
Qed.

Lemma lookup_lower (source_columns : list string) i s :
  List.map lower source_columns !! i = Some s ->
  exists c, source_columns !! i = Some c /\ lower c = s.
Proof.
  revert i. induction source_columns as [|c cs IH]; intros [|i]; simpl; try done.
  - intros [= <-]. by exists c.
  - apply IH.
Qed.

Lemma platform_pick_In source_columns source_lower possible_columns c :
  platform_pick source_columns source_lower possible_columns = Some c ->
  In c source_columns.
Proof.
  unfold platform_pick. intros H.
  apply first_some_In in H as (x & _ & H).
  destruct (index_of _ _) as [i|]; simpl in H; [|done].
  by eapply lookup_In.
Qed.

Lemma platform_pick_hit source_columns possible_columns :
  field_hit (List.map lower source_columns) possible_columns = true ->
  exists c,
    platform_pick source_columns (List.map lower source_columns) possible_columns = Some c /\
    In (lower c) (List.map lower possible_columns).
Proof.
  unfold field_hit, platform_pick.
  induction possible_columns as [|p ps IH]; simpl; [done|].
  destruct (mem (lower p) (List.map lower source_columns)) eqn:E; simpl.
  - intros _. destruct (index_of_mem _ _ E) as [i Hi]. rewrite Hi.
    cbn [mbind option_bind].
    destruct (lookup_lower _ _ _ (index_of_lookup _ _ _ Hi)) as (c & Hc & Hl).
    rewrite Hc. exists c. auto.
  - intros H. rewrite (index_of_none _ _ E). cbn [mbind option_bind].
    destruct (IH H) as (c & Hc & Hl). exists c. auto.
Qed.

Lemma fuzzy_match_In target source_columns c :
  _fuzzy_match_column target source_columns = Some c -> In c source_columns.
Proof.
  unfold _fuzzy_match_column.
  destruct (first_such _ _) as [x|] eqn:E1;
    [intros [= <-]; by eapply first_such_In|].
  destruct (first_such (fun c0 => contains _ _ || _) _) as [x|] eqn:E2;
    [intros [= <-]; by eapply first_such_In|].
  destruct (assoc target keywords) as [kws|]; [|done].
  intros H. apply first_some_In in H as (k & _ & H). by eapply first_such_In.
Qed.

Lemma fuzzy_match_exact target source_columns c :
  In c source_columns -> lower c = lower target ->
  exists c', _fuzzy_match_column target source_columns = Some c' /\
             lower c' = lower target.
Proof.
  intros Hc Hl. unfold _fuzzy_match_column.
  destruct (first_such _ _) as [x|] eqn:E1.
  - exists x. split; [done|].
    clear Hc Hl. induction source_columns as [|y l IH]; simpl in E1; [done|].
    destruct (String.eqb_spec (lower y) (lower target)); [by injection E1 as <-|auto].
  - exfalso. clear -Hc Hl E1.
    induction source_columns as [|y l IH]; simpl in *; [done|].
    destruct (String.eqb_spec (lower y) (lower target)); [done|].
    destruct Hc as [->|Hc]; [done|auto].
Qed.

(** Dictionaries *)

Lemma assoc_set_NoDup {A} k (v : A) l :
  List.NoDup l.*1 -> List.NoDup (assoc_set k v l).*1.
Proof.
  induction l as [|[k' v'] l IH]; simpl; intros H.
  - constructor; [by intros []|constructor].
  - destruct (String.eqb_spec k' k) as [->|Hne]; simpl; [done|].
    inversion H as [|? ? Hk Hl]; subst. constructor; [|by apply IH].
    intros Hin. destruct (assoc_set_keys _ _ _ _ Hin); [by subst|done].
Qed.

Lemma assoc_set_In {A} k (v : A) l k' v' :
  In (k', v') (assoc_set k v l) -> (k' = k /\ v' = v) \/ In (k', v') l.
Proof.
  induction l as [|[k0 v0] l IH]; simpl.
  - intros [[= <- <-]|[]]. by left.
  - destruct (String.eqb_spec k0 k) as [->|Hne]; simpl.
    + intros [[= <- <-]|H]; auto.
    + intros [[= <- <-]|H]; auto. destruct (IH H); auto.
Qed.

Lemma assoc_not_In {A} k (l : list (string * A)) : ~ In k l.*1 -> assoc k l = None.
Proof.
  induction l as [|[k' v'] l IH]; simpl; [done|]. intros H.
  destruct (String.eqb_spec k' k); [by destruct H; left|]. apply IH. auto.
Qed.

Lemma assoc_Some_In {A} k (v : A) l : assoc k l = Some v -> In (k, v) l.
Proof.
  induction l as [|[k' v'] l IH]; simpl; [done|].
  destruct (String.eqb_spec k' k) as [->|]; [intros [= <-]; by left|auto].
Qed.

(** The two loops of [suggest_mapping] *)

Lemma suggest_platform_sound source_columns pm :
  List.NoDup (suggest_platform source_columns pm).*1 /\
  forall k v, In (k, v) (suggest_platform source_columns pm) -> In v source_columns.
Proof.
  unfold suggest_platform.
  set (step := fun (mapping : list (string * string)) (f : string * list string) => _).
  assert (H : forall acc,
    List.NoDup acc.*1 /\ (forall k v, In (k, v) acc -> In v source_columns) ->
    List.NoDup (fold_left step pm acc).*1 /\
    forall k v, In (k, v) (fold_left step pm acc) -> In v source_columns).
  { induction pm as [|f pm IH]; simpl; intros acc [Hn Hv]; [done|].
    apply IH. unfold step.
    destruct (platform_pick _ _ _) as [c|] eqn:E; [|done].
    split; [by apply assoc_set_NoDup|].
    intros k v Hin. destruct (assoc_set_In _ _ _ _ _ Hin) as [[_ ->]|Hin'].
    - by eapply platform_pick_In.
    - by eapply Hv. }
  apply H. split; [constructor|by intros ? ? []].
Qed.

Lemma suggest_fallback_sound source_columns mapping :
  List.NoDup mapping.*1 -> (forall k v, In (k, v) mapping -> In v source_columns) ->
  List.NoDup (suggest_fallback source_columns mapping).*1 /\
  forall k v, In (k, v) (suggest_fallback source_columns mapping) ->
              In v source_columns.
Proof.
  unfold suggest_fallback. generalize ALL_SALAAZ_COLUMNS as fields.
  intros fields. revert mapping.
  induction fields as [|f fields IH]; simpl; intros mapping Hn Hv; [done|].
  destruct (has_key f mapping); [by apply IH|].
  destruct (_fuzzy_match_column f source_columns) as [b|] eqn:E; [|by apply IH].
  destruct (String.eqb b ""); [by apply IH|].
  apply IH; [by apply assoc_set_NoDup|].
  intros k v Hin. destruct (assoc_set_In _ _ _ _ _ Hin) as [[_ ->]|Hin'].
  - by eapply fuzzy_match_In.
  - by eapply Hv.
Qed.

(** A key once set is kept by the fallback loop. *)
Lemma suggest_fallback_keeps_from source_columns fields mapping k v :
  assoc k mapping = Some v ->
  assoc k (fold_left (fun mapping salaaz_field =>
      if has_key salaaz_field mapping then mapping
      else match _fuzzy_match_column salaaz_field source_columns with
           | Some best_match =>
               if String.eqb best_match "" then mapping
               else assoc_set salaaz_field best_match mapping
           | None => mapping
           end) fields mapping) = Some v.
Proof.
  revert mapping.
  induction fields as [|f fields IH]; simpl; intros mapping H; [done|].
  destruct (has_key f mapping) eqn:Ek; [by apply IH|].
  destruct (_fuzzy_match_column f source_columns) as [b|]; [|by apply IH].
  destruct (String.eqb b ""); [by apply IH|].
  apply IH. rewrite assoc_set_other; [done|].
  intros ->. unfold has_key in Ek. by rewrite H in Ek.
Qed.

Lemma suggest_fallback_keeps source_columns mapping k v :
  assoc k mapping = Some v ->
  assoc k (suggest_fallback source_columns mapping) = Some v.
Proof. apply suggest_fallback_keeps_from. Qed.

Lemma suggest_platform_keeps source_columns pm f c :
  List.NoDup pm.*1 -> In f pm ->
  platform_pick source_columns (List.map lower source_columns) f.2 = Some c ->
  assoc f.1 (suggest_platform source_columns pm) = Some c.
Proof.
  unfold suggest_platform.
  set (step := fun (mapping : list (string * string)) (f : string * list string) => _).
  assert (Hrest : forall rest acc k, ~ In k rest.*1 ->
            assoc k (fold_left step rest acc) = assoc k acc).
  { induction rest as [|g rest IH]; simpl; intros acc k Hk; [done|].
    rewrite IH by auto. unfold step.
    destruct (platform_pick _ _ _); [|done].
    apply assoc_set_other. auto. }
  intros Hn Hf Hp. generalize (@nil (string * string)) as acc.
  induction pm as [|g pm IH]; simpl in *; intros acc; [done|].
  inversion Hn as [|? ? Hg Hpm]; subst.
  destruct Hf as [->|Hf].
  - rewrite Hrest by done. unfold step. rewrite Hp. apply assoc_set_same.
  - by apply IH.
Qed.

Lemma all_columns_NoDup : List.NoDup ALL_SALAAZ_COLUMNS.
Proof.
  apply NoDup_ListNoDup.
  refine (bool_decide_unpack (NoDup ALL_SALAAZ_COLUMNS) _). by vm_compute.
Qed.

Lemma profile_NoDup p pm :
  assoc p PLATFORM_MAPPINGS = Some pm -> List.NoDup pm.*1.
Proof.
  unfold PLATFORM_MAPPINGS. cbn [assoc].
  repeat (destruct (String.eqb _ p);
          [intros [= <-]; apply NoDup_ListNoDup;
           refine (bool_decide_unpack (NoDup _) _); by vm_compute|]).
  done.
Qed.

Lemma profile_candidates p pm f cand :
  assoc p PLATFORM_MAPPINGS = Some pm -> In f pm -> In cand f.2 -> cand <> "".
Proof.
  unfold PLATFORM_MAPPINGS. cbn [assoc].
  repeat (destruct (String.eqb _ p);
          [intros [= <-]; cbn; intros Hf;
           repeat (destruct Hf as [<-|Hf]; [cbn; intuition (subst; discriminate)|]);
           done|]).
  done.
Qed.

Lemma profile_name p pm : assoc p PLATFORM_MAPPINGS = Some pm -> p <> "".
Proof. intros H ->. by vm_compute in H. Qed.

Lemma lower_nonempty c s : lower c = lower s -> s <> "" -> c <> "".
Proof. intros H Hs ->. destruct s; [done|discriminate H]. Qed.

Lemma platform_pick_lower source_columns possible_columns c :
  platform_pick source_columns (List.map lower source_columns) possible_columns = Some c ->
  exists cand, In cand possible_columns /\ lower c = lower cand.
Proof.
  unfold platform_pick. intros H.
  apply first_some_In in H as (x & Hx & H). exists x. split; [done|].
  destruct (index_of _ _) as [i|] eqn:Ei; cbn [mbind option_bind] in H; [|done].
  destruct (lookup_lower _ _ _ (index_of_lookup _ _ _ Ei)) as (c' & Hc' & Hl).
  congruence.
Qed.

Lemma suggest_platform_nonempty source_columns p pm k v :
  assoc p PLATFORM_MAPPINGS = Some pm ->
  In (k, v) (suggest_platform source_columns pm) -> v <> "".
Proof.
  intros Hp. pose proof (profile_candidates p pm) as Hc. specialize (Hc).
  assert (Hall : forall f cand, In f pm -> In cand f.2 -> cand <> "")
    by (intros; by eapply Hc).
  clear Hc Hp. unfold suggest_platform.
  set (step := fun (mapping : list (string * string)) (f : string * list string) => _).
  assert (H : forall acc,
    (forall k v, In (k, v) acc -> v <> "") ->
    forall k v, In (k, v) (fold_left step pm acc) -> v <> "").
  { induction pm as [|f pm IH]; simpl; intros acc Hv; [done|].
    apply IH; [intros; eapply Hall; [by right|done]|]. unfold step.
    destruct (platform_pick _ _ _) as [c|] eqn:E; [|done].
    intros k' v' Hin. destruct (assoc_set_In _ _ _ _ _ Hin) as [[_ ->]|Hin'].
    - destruct (platform_pick_lower _ _ _ E) as (cand & Hcand & Hl).
      eapply lower_nonempty; [done|]. eapply Hall; [by left|done].
    - by eapply Hv. }
  apply H. by intros ? ? [].
Qed.

Lemma suggest_fallback_nonempty source_columns mapping :
  (forall k v, In (k, v) mapping -> v <> "") ->
  forall k v, In (k, v) (suggest_fallback source_columns mapping) -> v <> "".
Proof.
  unfold suggest_fallback. generalize ALL_SALAAZ_COLUMNS as fields.
  intros fields. revert mapping.
  induction fields as [|f fields IH]; simpl; intros mapping Hv; [done|].
  destruct (has_key f mapping); [by apply IH|].
  destruct (_fuzzy_match_column f source_columns) as [b|] eqn:E; [|by apply IH].
  destruct (String.eqb_spec b ""); [by apply IH|].
  apply IH.
  intros k v Hin. destruct (assoc_set_In _ _ _ _ _ Hin) as [[_ ->]|Hin']; [done|].
  by eapply Hv.
Qed.

Lemma filter_fst_NoDup {A} (q : string * A -> bool) (l : list (string * A)) :
  List.NoDup l.*1 -> List.NoDup (List.filter q l).*1.
Proof.
  induction l as [|x l IH]; simpl; intros H; [constructor|].
  inversion H as [|? ? Hx Hl]; subst.
  destruct (q x); simpl; [|by apply IH].
  constructor; [|by apply IH].
  intros Hin. apply Hx. apply in_map_iff in Hin as (y & Hy & Hin).
  apply filter_In in Hin as [Hin _]. apply in_map_iff. by exists y.
Qed.

Lemma hit_fields_are_keys (pm : profile) column_set (m : list (string * string)) :
  List.NoDup pm.*1 ->
  (3 <= profile_score column_set pm)%nat ->
  (forall f, In f pm -> field_hit column_set f.2 = true -> is_Some (assoc f.1 m)) ->
  (3 <= length (List.filter (fun f => has_key f.1 m) pm))%nat /\
  (3 <= length m)%nat.
Proof.
  intros Hn Hscore Hhit.
  set (hits := List.filter (fun f => field_hit column_set f.2) pm).
  assert (Hlen : (3 <= length hits)%nat) by exact Hscore.
  assert (Hkeys : forall f, In f hits -> has_key f.1 m = true).
  { intros f Hf. apply filter_In in Hf as [Hf Hh].
    destruct (Hhit f Hf Hh) as (c & Hc). unfold has_key. by rewrite Hc. }
  split.
  - eapply Nat.le_trans; [exact Hlen|]. unfold hits. clear -Hhit.
    induction pm as [|f pm IH]; cbn [List.filter length]; [lia|].
    assert (IH' := IH (fun g Hg => Hhit g (or_intror Hg))).
    destruct (field_hit _ f.2) eqn:Eh.
    + destruct (Hhit f (or_introl eq_refl) Eh) as (c & Hc).
      unfold has_key at 1. rewrite Hc. cbn [length]. lia.
    + destruct (has_key _ _); cbn [length]; lia.
  - eapply Nat.le_trans; [exact Hlen|].
    rewrite <- (length_map fst hits), <- (length_map fst m).
    apply List.NoDup_incl_length; [by apply filter_fst_NoDup|].
    intros k Hk. apply in_map_iff in Hk as (f & <- & Hf).
    specialize (Hkeys f Hf). unfold has_key in Hkeys.
    destruct (assoc f.1 m) as [v|] eqn:E; [|done]. by eapply assoc_In.
Qed.

End MoreSuggest.

(** X13: the mapping [suggest_mapping] returns has no key twice, and
    each of its values is a non-empty name taken from the source columns. *)
Theorem suggest_mapping_points_at_source_columns source_columns platform :
  List.NoDup (suggest_mapping source_columns platform).*1 /\
  forall k v, In (k, v) (suggest_mapping source_columns platform) ->
              In v source_columns /\ v <> "".
Proof.
  unfold suggest_mapping.
  set (mapping := match platform with Some _ => _ | None => _ end).
  assert (H : List.NoDup mapping.*1 /\
              (forall k v, In (k, v) mapping -> In v source_columns) /\
              (forall k v, In (k, v) mapping -> v <> "")).
  { unfold mapping. destruct platform as [p|]; [|by repeat split; try constructor].
    destruct (negb (String.eqb p "")); [|by repeat split; try constructor].
    destruct (assoc p PLATFORM_MAPPINGS) as [pm|] eqn:E;
      [|by repeat split; try constructor].
    destruct (suggest_platform_sound source_columns pm) as [Hn Hv].
    split; [done|split; [done|]]. intros k v. by eapply suggest_platform_nonempty. }
  destruct H as (Hn & Hv & He).
  destruct (suggest_fallback_sound source_columns mapping Hn Hv) as [Hn' Hv'].
  split; [done|]. intros k v Hin. split; [by eapply Hv'|].
  by eapply (suggest_fallback_nonempty source_columns mapping He).
Qed.

(** X14: without a platform, [suggest_mapping] maps a target field to a
    source column of the same name, case put aside, whenever the source
    has one. *)
Theorem suggest_mapping_keeps_a_same_named_column source_columns t c :
  In t ALL_SALAAZ_COLUMNS -> In c source_columns -> lower c = lower t ->
  exists c',
    assoc t (suggest_mapping source_columns None) = Some c' /\
    lower c' = lower t /\ In c' source_columns.
Proof.
  change (suggest_mapping source_columns None)
    with (suggest_fallback source_columns []).
  intros Ht Hc Hl.
  assert (Hne : t <> "").
  { intros ->. revert Ht. unfold ALL_SALAAZ_COLUMNS. simpl. intuition discriminate. }
  pose proof all_columns_NoDup as Hn.
  assert (Hm : assoc t (@nil (string * string)) = None) by done.
  revert Hn Ht Hm. unfold suggest_fallback.
  generalize (@nil (string * string)) as mapping.
  generalize ALL_SALAAZ_COLUMNS as fields.
  induction fields as [|f fields IH]; intros mapping Hn Ht Hm; [done|].
  cbn [fold_left].
  inversion Hn as [|? ? Hf Hfs]; subst.
  destruct Ht as [->|Ht].
  - destruct (has_key t mapping) eqn:Ek;
      [unfold has_key in Ek; by rewrite Hm in Ek|].
    destruct (fuzzy_match_exact t source_columns c Hc Hl) as (c' & Hc' & Hl').
    rewrite Hc'.
    destruct (String.eqb_spec c' "") as [->|Hne'].
    { destruct t; [done|]. discriminate Hl'. }
    exists c'. split; [|split; [done|by eapply fuzzy_match_In]].
    apply (suggest_fallback_keeps_from source_columns fields).
    apply assoc_set_same.
  - assert (f <> t) by (by intros ->).
    destruct (has_key f mapping); [by apply IH|].
    destruct (_fuzzy_match_column f source_columns) as [b|]; [|by apply IH].
    destruct (String.eqb b ""); [by apply IH|].
    apply IH; [done|done|]. by rewrite assoc_set_other.
Qed.

Lemma suggest_mapping_keeps_a_same_named_column_witness :
  exists c',
    assoc "name" (suggest_mapping ["Product Name"; "NAME"] None) = Some c' /\
    lower c' = lower "name" /\ In c' ["Product Name"; "NAME"].
Proof.
  refine (suggest_mapping_keeps_a_same_named_column
            ["Product Name"; "NAME"] "name" "NAME" _ _ eq_refl).
  - cbn. auto.
  - cbn. auto.
Defined.

(** X15: a platform [detect_platform] answers has at least three fields
    with a candidate among the source columns, and [suggest_mapping] for
    that platform maps each such field to a source column that is one of
    its candidates, case put aside; so the mapping has at least three
    entries. *)
Theorem detected_platform_maps_three_fields source_columns p :
  detect_platform source_columns = Some p ->
  exists pm,
    assoc p PLATFORM_MAPPINGS = Some pm /\
    (forall f, In f pm -> field_hit (List.map lower source_columns) f.2 = true ->
       exists c, assoc f.1 (suggest_mapping source_columns (Some p)) = Some c /\
                 In (lower c) (List.map lower f.2)) /\
    (3 <= length (List.filter
                    (fun f => has_key f.1 (suggest_mapping source_columns (Some p))) pm))%nat /\
    (3 <= length (suggest_mapping source_columns (Some p)))%nat.
Proof.
  intros Hd. destruct (detect_platform_score _ _ Hd) as (pm & Hpm & Hscore).
  exists pm. split; [done|].
  pose proof (profile_NoDup p pm Hpm) as Hn.
  assert (Hmap : suggest_mapping source_columns (Some p) =
                 suggest_fallback source_columns (suggest_platform source_columns pm)).
  { unfold suggest_mapping. rewrite Hpm.
    destruct (String.eqb_spec p ""); [by destruct (profile_name p pm Hpm)|done]. }
  assert (Hhit : forall f, In f pm ->
            field_hit (List.map lower source_columns) f.2 = true ->
            exists c, assoc f.1 (suggest_mapping source_columns (Some p)) = Some c /\
                      In (lower c) (List.map lower f.2)).
  { intros f Hf Hh. destruct (platform_pick_hit _ _ Hh) as (c & Hc & Hl).
    exists c. split; [|done]. rewrite Hmap. apply suggest_fallback_keeps.
    by apply suggest_platform_keeps. }
  split; [exact Hhit|].
  apply (hit_fields_are_keys pm (List.map lower source_columns)); [done|done|].
  intros f Hf Hh. destruct (Hhit f Hf Hh) as (c & Hc & _). by exists c.
Qed.

Lemma detected_platform_maps_three_fields_witness :
  exists pm,
    assoc "shopify" PLATFORM_MAPPINGS = Some pm /\
    (forall f, In f pm ->
       field_hit (List.map lower ["Title"; "Vendor"; "Variant Price"]) f.2 = true ->
       exists c, assoc f.1 (suggest_mapping ["Title"; "Vendor"; "Variant Price"]
                              (Some "shopify")) = Some c /\
                 In (lower c) (List.map lower f.2)) /\
    (3 <= length (List.filter
                    (fun f => has_key f.1 (suggest_mapping ["Title"; "Vendor"; "Variant Price"]
                                             (Some "shopify"))) pm))%nat /\
    (3 <= length (suggest_mapping ["Title"; "Vendor"; "Variant Price"] (Some "shopify")))%nat.
Proof.
  apply detected_platform_maps_three_fields. by vm_compute.
Defined.


Section MoreOutput.
Local Open Scope nat_scope.
Local Open Scope list_scope.

Lemma col_with_variants c s r :
  c <> "variant_attributes" -> col c (with_variants s r) = col c r.
Proof.
  intros Hc. unfold with_variants. destruct (variant_columns s); [done|].
  by rewrite col_set_col_other.
Qed.

Lemma has_col_with_variants_present c s r :
  has_col c r = true -> has_col c (with_variants s r) = true.
Proof.
  intros H. unfold with_variants. destruct (variant_columns s); [done|].
  rewrite has_col_set_col, H. by destruct (String.eqb _ _).
Qed.

(** What holds of a column before the rows are filtered holds of it in
    the frame [transform_data] returns. *)
Lemma Forall_col_rows (P : value -> Prop) c r :
  Forall P (col c r) -> Forall P (col c (dropna_all (required_rows r))).
Proof.
  intros H. unfold dropna_all, required_rows.
  rewrite col_select. apply keep_Forall.
  destruct (_ && _); [|done].
  rewrite col_select. by apply keep_Forall.
Qed.

Lemma Forall_map_all {A B} (P : B -> Prop) (f : A -> B) l :
  (forall x, P (f x)) -> Forall P (List.map f l).
Proof. intros H. induction l; simpl; constructor; auto. Qed.

Lemma cleaned_cells s r :
  has_col "price" r = true -> has_col "image_urls" r = true ->
  has_col "variant_quantity" r = true ->
  Forall null_or_text (col "price" (cleaned s r)) /\
  Forall null_or_urls (col "image_urls" (cleaned s r)) /\
  Forall (fun v => isna v = false) (col "variant_quantity" (cleaned s r)).
Proof.
  intros Hp Hi Hq. unfold cleaned, with_defaults.
  assert (Hp' : has_col "price" (map_col "price" (List.map _clean_price) r) = true)
    by (by rewrite has_col_map_col).
  assert (Hi' : has_col "image_urls"
                  (with_variants s (map_col "price" (List.map _clean_price) r)) = true).
  { apply has_col_with_variants_present. by rewrite has_col_map_col. }
  split; [|split].
  - rewrite !col_map_col_other, col_with_variants, col_map_col_same by done.
    apply Forall_map_all, clean_price_null_or_text.
  - rewrite !col_map_col_other, col_map_col_same by done.
    apply Forall_map_all, clean_image_urls_null_or_urls.
  - rewrite col_map_col_same; [by apply fillna_notna|].
    rewrite !has_col_map_col. apply has_col_with_variants_present.
    by rewrite has_col_map_col.
Qed.

End MoreOutput.

(** X9: in every row of the frame [transform_data] returns, price is
    missing or a text, image_urls is missing or a text that begins with
    http, and variant_quantity is not missing. *)
Theorem transform_data_output_cells w df d mapping platform :
  frames w !! df = Some d ->
  rectangular d ->
  exists l w' out,
    transform_data df mapping platform w = (Ok l, w') /\
    frames w' !! l = Some out /\
    forall i, (i < nrows out)%nat ->
      null_or_text (cell "price" i out) /\
      null_or_urls (cell "image_urls" i out) /\
      isna (cell "variant_quantity" i out) = false.
Proof.
  intros Hdf Hd.
  destruct (transform_data_run w df d mapping platform Hdf) as (l & G & S & Hrun & Hl).
  exists l, (grow w G S), (transform_frame (converter w) d mapping platform).
  split; [done|]. split; [done|].
  set (r := with_categories (converter w) d mapping platform).
  assert (Hr : forall c, In c ALL_SALAAZ_COLUMNS -> shaped (nrows d) c r)
    by (intros c Hc; by apply with_categories_ok).
  destruct (cleaned_cells d r) as (Kp & Ki & Kq);
    [apply (Hr "price"); cbn; auto 20
    |apply (Hr "image_urls"); cbn; auto 20
    |apply (Hr "variant_quantity"); cbn; auto 20|].
  assert (Hout : forall c, In c ALL_SALAAZ_COLUMNS ->
            shaped (nrows (transform_frame (converter w) d mapping platform)) c
                   (transform_frame (converter w) d mapping platform))
    by (intros c Hc; by apply transform_frame_ok).
  intros i Hi. unfold transform_frame in *. fold r in Hout |- *.
  split; [|split].
  - apply (Forall_cell null_or_text); try done;
      [apply (Hout "price"); cbn; auto 20..|by apply Forall_col_rows].
  - apply (Forall_cell null_or_urls); try done;
      [apply (Hout "image_urls"); cbn; auto 20..|by apply Forall_col_rows].
  - apply (Forall_cell (fun v => isna v = false)); try done;
      [apply (Hout "variant_quantity"); cbn; auto 20..|by apply Forall_col_rows].
Qed.

Lemma transform_data_output_cells_witness :
  exists l w' out,
    transform_data 0%nat shirt_mapping (Some "shopify") shirt_world = (Ok l, w') /\
    frames w' !! l = Some out /\
    forall i, (i < nrows out)%nat ->
      null_or_text (cell "price" i out) /\
      null_or_urls (cell "image_urls" i out) /\
      isna (cell "variant_quantity" i out) = false.
Proof.
  exact (transform_data_output_cells shirt_world 0%nat shirt shirt_mapping
           (Some "shopify") eq_refl shirt_rectangular).
Defined.


Section MoreValidate.
Local Open Scope nat_scope.
Local Open Scope list_scope.

Lemma count_true_seq (f : nat -> bool) s n :
  count_true (List.map f (seq s n)) = n <-> forall i, s <= i < s + n -> f i = true.
Proof.
  revert s. induction n as [|n IH]; intros s; simpl.
  - split; [intros _ i Hi; lia|done].
  - unfold count_true in *. simpl.
    pose proof (count_true_le (List.map f (seq (S s) n))) as Hle.
    unfold count_true in Hle. rewrite length_map, length_seq in Hle.
    destruct (f s) eqn:Es; simpl.
    + split.
      * intros [= H] i Hi. destruct (Nat.eq_dec i s) as [->|Hne]; [done|].
        apply (proj1 (IH (S s)) H). lia.
      * intros H. f_equal. apply IH. intros i Hi. apply H. lia.
    + split; [lia|]. intros H. rewrite H in Es; [done|lia].
Qed.

Lemma count_na_zero vs : count_na vs = 0 <-> Forall (fun v => isna v = false) vs.
Proof.
  unfold count_na. induction vs as [|v vs IH]; simpl; [by split|].
  destruct (isna v) eqn:E; simpl.
  - split; [done|]. intros H. inversion H; congruence.
  - rewrite IH. split; [by constructor|]. intros H. by inversion H.
Qed.

Lemma col_cells (P : value -> Prop) c d :
  rectangular d -> has_col c d = true ->
  (Forall P (col c d) <-> forall i, i < nrows d -> P (cell c i d)).
Proof.
  intros Hd Hc. pose proof (rectangular_col _ _ Hd Hc) as Hlen. split.
  - intros H i Hi. by apply Forall_cell.
  - intros H. apply Forall_lookup_2. intros i v Hv.
    assert (Hi : i < nrows d) by (rewrite <- Hlen; by eapply lookup_lt_Some).
    specialize (H i Hi). unfold cell in H. by rewrite Hv in H.
Qed.

Lemma column_issues_none d c :
  has_col c d = true ->
  (column_issues d c = [] <-> count_na (col c d) = 0).
Proof.
  intros Hc. unfold column_issues. rewrite Hc. simpl.
  destruct (count_na (col c d)); by split.
Qed.

Lemma flat_map_nil {A B} (f : A -> list B) l :
  flat_map f l = [] <-> forall x, In x l -> f x = [].
Proof.
  induction l as [|x l IH]; simpl; [by split|]. split.
  - intros H y [<-|Hy]; apply app_eq_nil in H as [H1 H2]; [done|]. by apply IH.
  - intros H. rewrite (H x) by auto. simpl. apply IH. auto.
Qed.

Lemma required_present d :
  List.filter (fun c => negb (has_col c d)) SALAAZ_REQUIRED_COLUMNS = [] ->
  forall c, In c SALAAZ_REQUIRED_COLUMNS -> has_col c d = true.
Proof.
  intros H c Hc. destruct (has_col c d) eqn:E; [done|].
  assert (Hin : In c (List.filter (fun c => negb (has_col c d)) SALAAZ_REQUIRED_COLUMNS)).
  { apply filter_In. by rewrite E. }
  rewrite H in Hin. destruct Hin.
Qed.

(** The report of a call that returns. *)
Lemma validate_returns w df d r w' :
  frames w !! df = Some d ->
  validate_salaaz_data df w = (Ok r, w') ->
  w' = w /\
  (forall c, In c SALAAZ_REQUIRED_COLUMNS -> has_col c d = true) /\
  issues r = flat_map (column_issues d) SALAAZ_REQUIRED_COLUMNS /\
  valid r = match issues r with [] => true | _ => false end /\
  total_rows r = nrows d /\
  complete_rows r = nrows (dropna_subset SALAAZ_REQUIRED_COLUMNS d).
Proof.
  intros Hdf. unfold validate_salaaz_data.
  rewrite run_bind, (read_run _ _ _ Hdf).
  rewrite run_bind.
  pose proof (format_warning_world d "price" float_check "price" w) as H1.
  destruct (format_warning d "price" float_check "price" w) as [[w1|e1] w1'];
    simpl in H1; subst w1'; cbn beta iota; [|done].
  rewrite run_bind.
  pose proof (format_warning_world d "category_id" int_check "category_id" w) as H2.
  destruct (format_warning d "category_id" int_check "category_id" w) as [[w2|e2] w2'];
    simpl in H2; subst w2'; cbn beta iota; [|done].
  rewrite run_bind.
  destruct (List.filter _ SALAAZ_REQUIRED_COLUMNS) as [|m ms] eqn:E; [|done].
  intros [= <- <-]. split; [done|]. split; [by apply required_present|done].
Qed.

End MoreValidate.

(** X11: when [validate_salaaz_data] returns a report for a rectangular
    frame, the store is unchanged, total_rows is the number of rows,
    complete_rows does not exceed it, and valid holds exactly when there
    is no issue, exactly when no required cell is missing, and exactly when
    complete_rows equals total_rows. *)
Theorem validate_report_counts w df d r w' :
  frames w !! df = Some d ->
  rectangular d ->
  validate_salaaz_data df w = (Ok r, w') ->
  w' = w /\
  total_rows r = nrows d /\
  (complete_rows r <= total_rows r)%nat /\
  (valid r = true <-> issues r = []) /\
  (valid r = true <->
     forall c i, In c SALAAZ_REQUIRED_COLUMNS -> (i < nrows d)%nat ->
                 isna (cell c i d) = false) /\
  (valid r = true <-> complete_rows r = total_rows r).
Proof.
  intros Hdf Hd Hrun.
  destruct (validate_returns w df d r w' Hdf Hrun) as (Hw & Hcols & Hi & Hv & Ht & Hc).
  assert (Hval : valid r = true <-> issues r = []).
  { rewrite Hv. by destruct (issues r). }
  assert (Hfull : issues r = [] <->
            forall c i, In c SALAAZ_REQUIRED_COLUMNS -> (i < nrows d)%nat ->
                        isna (cell c i d) = false).
  { rewrite Hi, flat_map_nil. split.
    - intros H c i Hin Hlt. specialize (H c Hin).
      apply column_issues_none, count_na_zero in H; [|by apply Hcols].
      by apply (col_cells (fun v => isna v = false) c d Hd (Hcols c Hin)).
    - intros H c Hin. apply column_issues_none; [by apply Hcols|].
      apply count_na_zero, (col_cells _ c d Hd (Hcols c Hin)). intros i. by apply H. }
  assert (Hcomp : complete_rows r = count_true
            (row_mask (fun i => forallb (fun c => notna (cell c i d))
                                        SALAAZ_REQUIRED_COLUMNS) d)) by done.
  split; [done|]. split; [done|]. split; [|split; [done|split]].
  - rewrite Hcomp, Ht. etransitivity; [apply count_true_le|].
    unfold row_mask. by rewrite length_map, length_seq.
  - by rewrite Hval, Hfull.
  - rewrite Hval, Hfull, Hcomp, Ht. unfold row_mask. rewrite count_true_seq.
    split.
    + intros H i Hlt. apply forallb_forall. intros c Hin.
      unfold notna. rewrite H; [done|done|lia].
    + intros H c i Hin Hlt. specialize (H i (conj (Nat.le_0_l i) Hlt)).
      rewrite forallb_forall in H. specialize (H c Hin).
      unfold notna in H. by destruct (isna _).
Qed.

Lemma validate_report_counts_witness :
  exists r,
    validate_salaaz_data 0%nat listing_world = (Ok r, listing_world) /\
    total_rows r = nrows listing /\
    (complete_rows r <= total_rows r)%nat /\
    (valid r = true <-> issues r = []) /\
    (valid r = true <->
       forall c i, In c SALAAZ_REQUIRED_COLUMNS -> (i < nrows listing)%nat ->
                   isna (cell c i listing) = false) /\
    (valid r = true <-> complete_rows r = total_rows r).
Proof.
  assert (H : validate_salaaz_data 0%nat listing_world =
              (Ok (mkReport false ["Column 'brand' has 1 missing values"] [] 2 1),
               listing_world)) by (by vm_compute).
  assert (Hr : rectangular listing) by (by repeat constructor).
  exists (mkReport false ["Column 'brand' has 1 missing values"] [] 2 1).
  split; [exact H|].
  exact (proj2 (validate_report_counts listing_world 0%nat listing _ _ eq_refl Hr H)).
Defined.


Section MoreCompose.
Local Open Scope nat_scope.
Local Open Scope list_scope.

Lemma col_no_inf c d : no_inf d -> Forall (fun v => is_inf v = false) (col c d).
Proof.
  intros H. unfold col. destruct (assoc c (columns d)) as [vs|] eqn:E; simpl; [|done].
  exact (assoc_Forall _ _ _ _ H E).
Qed.

Lemma result0_no_inf d mapping : no_inf d -> no_inf (result0 d mapping).
Proof.
  intros Hd. unfold result0, frame_of_dict, no_inf. cbn [columns].
  unfold map_result_data.
  assert (H0 : Forall (fun cv : string * list value =>
                 Forall (fun v => is_inf v = false) cv.2) (init_result_data (nrows d))).
  { unfold init_result_data.
    generalize (@nil (string * list value)) (List.Forall_nil (fun cv : string * list value =>
                 Forall (fun v => is_inf v = false) cv.2)).
    generalize ALL_SALAAZ_COLUMNS as ks.
    induction ks as [|k ks IH]; intros acc Hacc; simpl; [done|].
    apply IH. apply assoc_set_Forall; [done|]. intros k'. simpl.
    by apply Forall_replicate. }
  revert H0. generalize (init_result_data (nrows d)) as acc.
  induction mapping as [|[k src] mapping IH]; intros acc Hacc; simpl; [done|].
  apply IH. destruct (_ && _); [|done].
  apply assoc_set_Forall; [done|]. intros k'. simpl. by apply col_no_inf.
Qed.

Lemma is_id_no_inf v : is_id v -> is_inf v = false.
Proof. by intros (z & -> & _). Qed.

Lemma category_id_with_categories cv d mapping platform :
  rectangular d -> no_inf d ->
  Forall (fun v => is_inf v = false)
         (col "category_id" (with_categories cv d mapping platform)).
Proof.
  intros Hd Hn. unfold with_categories.
  pose proof (col_no_inf "category_id" _ (result0_no_inf d mapping Hn)) as H0.
  destruct (category_source_col d platform) as [cc|]; [|done].
  destruct (mapped cv d cc) as [[[]|e] m] eqn:E; [|done].
  unfold copy_ids. rewrite !col_copy_from_other by done.
  pose proof (mapped_ok cv d cc Hd) as Hm. rewrite E in Hm. cbn [snd] in Hm.
  destruct Hm as (H1 & _). destruct H1 as (Hr & Hrows & Hc).
  unfold copy_from. rewrite Hc, col_set_col_same.
  apply (col_cells _ "category_id" m Hr Hc). intros i Hi.
  apply is_id_no_inf.
  replace m with (map_rows cv d cc (seq 0 (nrows d)) (blank_ids d)).2
    by (fold (mapped cv d cc); by rewrite E).
  apply (cell_map_rows cv d cc (nrows d)).
  - split; [|split]; apply blank_ids_ok; simpl; auto.
  - by left.
  - apply Forall_forall. intros x Hx. apply list_elem_of_In, in_seq in Hx. lia.
  - fold (mapped cv d cc). by rewrite E.
  - left. apply in_seq. lia.
Qed.

Lemma fillna_Forall (P : value -> Prop) v vs :
  P v -> Forall P vs -> Forall P (fillna v vs).
Proof.
  intros Hv H. unfold fillna. induction H as [|x l Hx Hl IH]; simpl; [done|].
  constructor; [by destruct (isna x)|done].
Qed.

Lemma category_id_cleaned s r :
  has_col "category_id" r = true ->
  Forall (fun v => is_inf v = false) (col "category_id" r) ->
  Forall (fun v => is_inf v = false) (col "category_id" (cleaned s r)).
Proof.
  intros Hc H. unfold cleaned, with_defaults.
  rewrite col_map_col_other by done.
  rewrite col_map_col_same.
  - apply fillna_Forall; [done|].
    by rewrite col_map_col_other, col_with_variants, col_map_col_other.
  - rewrite has_col_map_col. apply has_col_with_variants_present.
    by rewrite has_col_map_col.
Qed.

(** The checks of [validate_salaaz_data] on cells that raise nothing. *)
Lemma count_invalid_ok check vs :
  Forall (fun v => exists b, check v = Ok b) vs ->
  exists n, count_invalid check vs = Ok n.
Proof.
  induction 1 as [|v vs (b & Hb) Hvs (n & IH)]; simpl; [by eexists|].
  rewrite Hb, IH. by eexists.
Qed.

Lemma format_warning_ok d c check what w :
  Forall (fun v => exists b, check v = Ok b) (col c d) ->
  exists ws, format_warning d c check what w = (Ok ws, w).
Proof.
  intros H. unfold format_warning. destruct (has_col c d); [|by eexists].
  destruct (count_invalid_ok check (List.filter notna (col c d))) as (n & Hn).
  { apply Forall_forall. intros x Hx. apply list_elem_of_In, filter_In in Hx as [Hx _].
    rewrite Forall_forall in H. apply H. by apply list_elem_of_In. }
  rewrite run_bind, lift_run, Hn. destruct n; by eexists.
Qed.

Lemma validate_runs w l out :
  frames w !! l = Some out ->
  (forall c, In c SALAAZ_REQUIRED_COLUMNS -> has_col c out = true) ->
  Forall null_or_text (col "price" out) ->
  Forall (fun v => is_inf v = false) (col "category_id" out) ->
  exists r, validate_salaaz_data l w = (Ok r, w).
Proof.
  intros Hl Hcols Hp Hc. unfold validate_salaaz_data.
  rewrite run_bind, (read_run _ _ _ Hl).
  destruct (format_warning_ok out "price" float_check "price" w) as (w1 & H1).
  { eapply Forall_impl; [exact Hp|]. intros v [->|(t & ->)]; by eexists. }
  destruct (format_warning_ok out "category_id" int_check "category_id" w) as (w2 & H2).
  { eapply Forall_impl; [exact Hc|]. intros v Hv.
    destruct v as [| | |[]|]; try done; by eexists. }
  rewrite run_bind, H1. cbn beta iota. rewrite run_bind, H2. cbn beta iota.
  rewrite run_bind.
  assert (E : List.filter (fun c => negb (has_col c out)) SALAAZ_REQUIRED_COLUMNS = []).
  { destruct (List.filter _ _) as [|c cs] eqn:E; [done|]. exfalso.
    assert (Hin : In c (c :: cs)) by (by left).
    rewrite <- E in Hin. apply filter_In in Hin as [Hin Hn].
    by rewrite (Hcols c Hin) in Hn. }
  rewrite E. by eexists.
Qed.

Lemma filled_notna v : filled v = true -> isna v = false.
Proof. unfold filled, notna. by destruct (isna v). Qed.

End MoreCompose.

(** X10: [validate_salaaz_data] returns a report on the frame
    [transform_data] returns, for every source frame without an infinite
    float: the five required columns are there, the report counts the rows
    of the frame, and its issues are those of price and brand alone. *)
Theorem transform_data_output_validates w df d mapping platform :
  frames w !! df = Some d ->
  rectangular d ->
  no_inf d ->
  exists l w' out r,
    transform_data df mapping platform w = (Ok l, w') /\
    frames w' !! l = Some out /\
    validate_salaaz_data l w' = (Ok r, w') /\
    total_rows r = nrows out /\
    issues r = (column_issues out "price" ++ column_issues out "brand")%list.
Proof.
  intros Hdf Hd Hn.
  destruct (transform_data_run w df d mapping platform Hdf) as (l & G & S & Hrun & Hl).
  set (out := transform_frame (converter w) d mapping platform) in *.
  assert (Hout : forall c, In c ALL_SALAAZ_COLUMNS -> shaped (nrows out) c out)
    by (intros c Hc; by apply transform_frame_ok).
  assert (Hreq : forall c, In c SALAAZ_REQUIRED_COLUMNS -> has_col c out = true).
  { intros c Hc. apply (Hout c). unfold ALL_SALAAZ_COLUMNS. apply in_or_app. by left. }
  set (r0 := with_categories (converter w) d mapping platform).
  assert (Hr0 : forall c, In c ALL_SALAAZ_COLUMNS -> shaped (nrows d) c r0)
    by (intros c Hc; by apply with_categories_ok).
  destruct (cleaned_cells d r0) as (Kp & _ & _);
    [apply (Hr0 "price"); cbn; auto 20
    |apply (Hr0 "image_urls"); cbn; auto 20
    |apply (Hr0 "variant_quantity"); cbn; auto 20|].
  assert (Hprice : Forall null_or_text (col "price" out))
    by (by apply Forall_col_rows).
  assert (Hcat : Forall (fun v => is_inf v = false) (col "category_id" out)).
  { apply Forall_col_rows, category_id_cleaned.
    - apply (Hr0 "category_id"). cbn; auto 20.
    - by apply category_id_with_categories. }
  destruct (validate_runs (grow w G S) l out Hl Hreq Hprice Hcat) as (r & Hv).
  exists l, (grow w G S), out, r. split; [done|]. split; [done|]. split; [done|].
  destruct (validate_returns _ _ _ _ _ Hl Hv) as (_ & _ & Hi & _ & Ht & _).
  split; [done|]. rewrite Hi.
  assert (Hnone : forall c, In c SALAAZ_REQUIRED_COLUMNS ->
            Forall (fun v => isna v = false) (col c out) -> column_issues out c = []).
  { intros c Hc H. apply column_issues_none; [by apply Hreq|]. by apply count_na_zero. }
  assert (Hfilled : forall c, c = "name" \/ c = "description" ->
            Forall (fun v => isna v = false) (col c out)).
  { intros c Hc. unfold out, transform_frame, dropna_all. rewrite col_select.
    apply keep_Forall. fold r0.
    eapply Forall_impl;
      [apply (required_rows_filled c (cleaned d r0) (nrows d));
        [apply cleaned_ok; [done|]; apply Hr0; cbn; auto 20..|done]|].
    intros v. apply filled_notna. }
  unfold SALAAZ_REQUIRED_COLUMNS. cbn [flat_map].
  rewrite (Hnone "name"), (Hnone "description"), (Hnone "category_id");
    [by rewrite app_nil_r|cbn; auto 20|by apply category_id_filled
    |cbn; auto 20|apply Hfilled; by right|cbn; auto 20|apply Hfilled; by left].
Qed.

Lemma transform_data_output_validates_witness :
  exists l w' out r,
    transform_data 0%nat shirt_mapping (Some "shopify") shirt_world = (Ok l, w') /\
    frames w' !! l = Some out /\
    validate_salaaz_data l w' = (Ok r, w') /\
    total_rows r = nrows out /\
    issues r = (column_issues out "price" ++ column_issues out "brand")%list.
Proof.
  refine (transform_data_output_validates shirt_world 0%nat shirt shirt_mapping
            (Some "shopify") eq_refl shirt_rectangular _).
  by repeat constructor.
Defined.


Section MoreWarnings.
Local Open Scope nat_scope.
Local Open Scope list_scope.

(** The only exception of the resolver is that of [int] on a missing id. *)
Lemma find_best_match_raises term df e :
  _find_best_match term df = Raise e ->
  e = ValueError /\ exists r, In r df /\ row_id r = None.
Proof.
  intros H. destruct (find_best_match_row _ _ _ H) as [|(r & Hr & Hid)]; [done|].
  unfold int_of_id in Hid. destruct (row_id r) eqn:E; [done|].
  injection Hid as ->. split; [done|]. by exists r.
Qed.

Lemma find_top_raises name table e :
  find_top name table = Raise e ->
  e = ValueError /\ exists t r, table = Some t /\ In r t /\ row_id r = None.
Proof.
  unfold find_top. destruct (nonempty name) as [n|]; [|done].
  destruct table as [t|]; [|done]. intros H.
  destruct (find_best_match_raises _ _ _ H) as (-> & r & Hr & Hid).
  split; [done|]. by exists t, r.
Qed.

Lemma find_level_raises name table parent e :
  find_level name table parent = Raise e ->
  e = ValueError /\ exists t r, table = Some t /\ In r t /\ row_id r = None.
Proof.
  unfold find_level. destruct (nonempty name) as [n|]; [|done].
  destruct table as [t|]; [|done]. intros H.
  destruct (find_best_match_raises _ _ _ H) as (-> & r & Hr & Hid).
  split; [done|]. exists t, r. split; [done|]. split; [|done].
  destruct (id_truthy parent); [|done]. by apply with_parent_In in Hr as [Hr _].
Qed.

Lemma find_ids_raises cv a b c e :
  find_ids cv a b c = Raise e ->
  e = ValueError /\
  exists t r, In (Some t) [categories_df cv; sub_categories_df cv; sub_sub_categories_df cv] /\
              In r t /\ row_id r = None.
Proof.
  unfold find_ids.
  destruct (find_top a _) as [i|e1] eqn:E1; rewrite ?obind_ok, ?obind_raise.
  - destruct (find_level b _ i) as [j|e2] eqn:E2; rewrite ?obind_ok, ?obind_raise.
    + destruct (find_level c _ j) as [k|e3] eqn:E3; rewrite ?obind_ok, ?obind_raise;
        [done|].
      intros [= <-]. destruct (find_level_raises _ _ _ _ E3) as (-> & t & r & Ht & Hr).
      split; [done|]. exists t, r. rewrite <- Ht. simpl. auto.
    + intros [= <-]. destruct (find_level_raises _ _ _ _ E2) as (-> & t & r & Ht & Hr).
      split; [done|]. exists t, r. rewrite <- Ht. simpl. auto.
  - intros [= <-]. destruct (find_top_raises _ _ _ E1) as (-> & t & r & Ht & Hr).
    split; [done|]. exists t, r. rewrite <- Ht. simpl. auto.
Qed.

Lemma row_ids_raises cv d cc idx e :
  row_ids cv d cc idx = Raise e ->
  e = ValueError /\
  exists t r, In (Some t) [categories_df cv; sub_categories_df cv; sub_sub_categories_df cv] /\
              In r t /\ row_id r = None.
Proof.
  unfold row_ids. destruct (parse_shopify_category _) as [[x y] z].
  destruct (find_ids cv x y z) as [[[i j] k]|e'] eqn:E;
    rewrite ?obind_ok, ?obind_raise; [done|].
  intros [= <-]. by eapply find_ids_raises.
Qed.

Lemma map_rows_raises cv d cc idxs e : forall r,
  (map_rows cv d cc idxs r).1 = Raise e ->
  e = ValueError /\
  exists t r, In (Some t) [categories_df cv; sub_categories_df cv; sub_sub_categories_df cv] /\
              In r t /\ row_id r = None.
Proof.
  induction idxs as [|idx idxs IH]; intros r; simpl; [done|].
  destruct (row_ids cv d cc idx) as [ids|e'] eqn:E; [apply IH|].
  simpl. intros [= <-]. by eapply row_ids_raises.
Qed.

(** The category step with the warnings it shows. *)
Lemma category_step_shown w S df d mapping platform :
  frames w !! df = Some d ->
  exists G' ws,
    category_step df d (length (frames w) + 0) platform (grow w [result0 d mapping] S) =
    (Ok tt, grow w (with_categories (converter w) d mapping platform :: G') (S ++ ws)) /\
    (ws = [] \/
     exists c e, category_source_col d platform = Some c /\
                 (mapped (converter w) d c).1 = Raise e /\
                 ws = [WMappingFailed e]).
Proof.
  intros Hdf. unfold category_step, with_categories, category_source_col.
  destruct (known_platform platform) as [pm|]; simpl;
    [|exists [], []; rewrite app_nil_r; split; [done|by left]].
  destruct (nonempty _) as [c|] eqn:Hc; [|exists [], []; rewrite app_nil_r; split; [done|by left]].
  assert (Hcol : has_col c d = true).
  { apply nonempty_Some in Hc. by apply first_such_true in Hc. }
  rewrite try_except_run, run_bind.
  rewrite (map_shopify_categories_run _ _ _ _ _ _ Hdf Hcol).
  destruct (mapped (converter w) d c) as [[[]|e] m] eqn:Em; cbn [fst snd].
  - change (length [result0 d mapping]) with 1.
    assert (Hm : ([result0 d mapping] ++ [m]) !! 1 = Some m) by done.
    rewrite run_bind, (copy_col_run _ _ _ _ _ _ _ Hm); simpl.
    rewrite run_bind, (copy_col_run _ _ _ _ 0 1 m) by done; simpl.
    rewrite (copy_col_run _ _ _ _ 0 1 m) by done; simpl.
    exists [m], []. rewrite app_nil_r. split; [done|by left].
  - rewrite warn_grow. exists [m], [WMappingFailed e]. split; [done|].
    right. exists c, e. by rewrite Em.
Qed.

Lemma transform_data_shown w df d mapping platform :
  frames w !! df = Some d ->
  exists l G ws,
    transform_data df mapping platform w = (Ok l, grow w G ws) /\
    frames (grow w G ws) !! l =
      Some (transform_frame (converter w) d mapping platform) /\
    (ws = [] \/
     exists c e, category_source_col d platform = Some c /\
                 (mapped (converter w) d c).1 = Raise e /\
                 ws = [WMappingFailed e]).
Proof.
  intros Hdf.
  replace (transform_data df mapping platform w)
    with (transform_data df mapping platform (grow w [] [])) by (by rewrite grow_nil).
  unfold transform_data.
  rewrite run_bind, (read_old _ _ _ _ _ Hdf).
  rewrite run_bind, alloc_grow. simpl length. simpl app.
  fold (result0 d mapping).
  rewrite run_bind.
  destruct (category_step_shown w [] df d mapping platform Hdf) as (G' & ws & -> & Hws).
  rewrite (_post_process_data_run _ _ _ 0 _ _ d) by done.
  eexists _, _, _. split; [reflexivity|]. split; [|exact Hws].
  unfold grow at 1. cbn [frames]. simpl insert.
  rewrite lookup_app_r by lia.
  rewrite Nat.add_sub_swap, Nat.sub_diag by lia. simpl plus.
  unfold transform_frame.
  set (r := with_categories (converter w) d mapping platform).
  rewrite <- (post_frames_last (cleaned d r :: G') d r). f_equal; simpl; lia.
Qed.

End MoreWarnings.

(** X18: [transform_data] shows at most one warning, and that one is
    the warning of a failed category mapping; the frame it then returns is
    the one it returns without a platform; and it shows none when it
    settles on no category source column, or when no reference table is
    loaded. *)
Theorem transform_data_warnings w df d mapping platform :
  frames w !! df = Some d ->
  exists l w' ws,
    transform_data df mapping platform w = (Ok l, w') /\
    shown w' = (shown w ++ ws)%list /\
    (ws = [] \/ exists x, ws = [x] /\ mapping_failure x) /\
    (ws <> [] ->
       frames w' !! l = Some (transform_frame (converter w) d mapping None)) /\
    (category_source_col d platform = None -> ws = []) /\
    (categories_df (converter w) = None ->
     sub_categories_df (converter w) = None ->
     sub_sub_categories_df (converter w) = None -> ws = []).
Proof.
  intros Hdf.
  destruct (transform_data_shown w df d mapping platform Hdf)
    as (l & G & ws & Hrun & Hl & Hws).
  exists l, (grow w G ws), ws. split; [done|]. split; [done|].
  destruct Hws as [->|(c & e & Hc & He & ->)].
  - split; [by left|]. by repeat split.
  - split; [right; by eexists|]. split; [|split].
    + intros _. rewrite Hl. f_equal. unfold transform_frame. do 3 f_equal.
      unfold with_categories. rewrite Hc. cbn [category_source_col known_platform nonempty].
      destruct (mapped (converter w) d c) as [[[]|e'] m]; [done|reflexivity].
    + intros Hnone. congruence.
    + intros H1 H2 H3. unfold mapped in He.
      destruct (map_rows_raises _ _ _ _ _ _ He) as (_ & t & r & Ht & _).
      rewrite H1, H2, H3 in Ht. simpl in Ht. intuition congruence.
Qed.

Lemma transform_data_warnings_witness :
  exists l w' ws,
    transform_data 0%nat shirt_mapping (Some "shopify") shirt_world = (Ok l, w') /\
    shown w' = (shown shirt_world ++ ws)%list /\
    (ws = [] \/ exists x, ws = [x] /\ mapping_failure x) /\
    (ws <> [] ->
       frames w' !! l = Some (transform_frame (converter shirt_world) shirt shirt_mapping None)) /\
    (category_source_col shirt (Some "shopify") = None -> ws = []) /\
    (categories_df (converter shirt_world) = None ->
     sub_categories_df (converter shirt_world) = None ->
     sub_sub_categories_df (converter shirt_world) = None -> ws = []).
Proof.
  exact (transform_data_warnings shirt_world 0%nat shirt shirt_mapping
           (Some "shopify") eq_refl).
Defined.


Section MoreVariants.
Local Open Scope list_scope.

Lemma lower_char_not_upper c : is_upper (lower_char c) = false.
Proof. destruct c as [[] [] [] [] [] [] [] []]; by vm_compute. Qed.

Lemma underscore_for_space_not_upper c :
  is_upper c = false -> is_upper (if Ascii.eqb c " " then "_"%char else c) = false.
Proof. intros H. by destruct (Ascii.eqb c " "). Qed.

Lemma attr_name_chars c :
  sexists (fun ch => negb (is_word ch) || is_upper ch) (attr_name_of c) = false.
Proof.
  unfold attr_name_of, replace_char, lower.
  induction c as [|a s IH]; simpl; [done|].
  destruct (is_word _) eqn:E; [|done]. simpl. rewrite E, IH. simpl.
  rewrite underscore_for_space_not_upper; [done|apply lower_char_not_upper].
Qed.

Lemma row_attrs_entries d cs i :
  List.NoDup (row_attrs d cs i).*1 /\
  forall k v, In (k, v) (row_attrs d cs i) ->
    exists c, In c cs /\ k = attr_name_of c /\
              filled (row_cell c i d) = true /\ v = strip (py_str (row_cell c i d)).
Proof.
  unfold row_attrs.
  set (step := fun (attrs : list (string * string)) (c : string) => _).
  assert (H : forall acc,
    List.NoDup acc.*1 ->
    List.NoDup (fold_left step cs acc).*1 /\
    forall k v, In (k, v) (fold_left step cs acc) ->
      In (k, v) acc \/
      exists c, In c cs /\ k = attr_name_of c /\
                filled (row_cell c i d) = true /\ v = strip (py_str (row_cell c i d))).
  { induction cs as [|c cs IH]; simpl; intros acc Hn; [by auto|].
    assert (Hn' : List.NoDup (step acc c).*1).
    { unfold step. destruct (_ && _); [by apply assoc_set_NoDup|done]. }
    destruct (IH _ Hn') as [H1 H2]. split; [done|].
    intros k v Hin. destruct (H2 k v Hin) as [Hacc|(c' & Hc' & Hk)].
    - unfold step in Hacc.
      destruct (notna (row_cell c i d) &&
                negb (String.eqb (strip (py_str (row_cell c i d))) ""))
        eqn:E; [|by left].
      destruct (assoc_set_In _ _ _ _ _ Hacc) as [[-> ->]|Hold]; [|by left].
      right. exists c. auto.
    - right. exists c'. auto. }
  destruct (H [] (List.NoDup_nil _)) as [H1 H2]. split; [done|].
  intros k v Hin. by destruct (H2 k v Hin) as [[]|].
Qed.

End MoreVariants.

(** X17: the attributes [_process_variant_attributes] collects for a
    row have distinct names; each name is the sanitized name of a variant
    column whose cell in the row is not missing, made of word characters
    with no uppercase letter; each value is trimmed and not empty; and in
    a frame that holds a text, where [iterrows] gives the cells as they
    are stored, the value is the trimmed text of that cell. *)
Theorem variant_attribute_entries d cs i :
  List.NoDup (row_attrs d cs i).*1 /\
  forall k v, In (k, v) (row_attrs d cs i) ->
    (exists c, In c cs /\ k = attr_name_of c /\ isna (cell c i d) = false /\
               (has_text d = true -> v = strip (py_str (cell c i d)))) /\
    sexists (fun ch => negb (is_word ch) || is_upper ch) k = false /\
    v <> "" /\ strip v = v.
Proof.
  destruct (row_attrs_entries d cs i) as [Hn H]. split; [done|].
  intros k v Hin. destruct (H k v Hin) as (c & Hc & -> & Hf & ->).
  unfold filled in Hf. apply andb_true_iff in Hf as [Hna Hf].
  split; [|split; [apply attr_name_chars|split; [|apply strip_idem]]].
  - exists c. split; [done|]. split; [done|]. split.
    + unfold notna in Hna. rewrite isna_row_cell in Hna. by destruct (isna (cell c i d)).
    + intros Ht. by rewrite (row_cell_text d c i Ht).
  - apply negb_true_iff in Hf. by apply String.eqb_neq in Hf.
Qed.


Section MoreImages.
Local Open Scope list_scope.

Lemma append_cons x (a b : string) : String x a +:+ b = String x (a +:+ b).
Proof. reflexivity. Qed.

Lemma sexists_app p a b : sexists p (a +:+ b) = sexists p a || sexists p b.
Proof.
  induction a as [|c a IH]; [done|].
  rewrite append_cons. simpl. by rewrite IH, orb_assoc.
Qed.

Lemma sexists_lstrip p s : sexists p s = false -> sexists p (lstrip s) = false.
Proof.
  induction s as [|c s IH]; simpl; [done|]. intros H.
  apply orb_false_iff in H as [H1 H2].
  destruct (is_space c); [by apply IH|]. simpl. by rewrite H1, H2.
Qed.

Lemma sexists_rstrip p s : sexists p s = false -> sexists p (rstrip s) = false.
Proof.
  induction s as [|c s IH]; simpl; [done|]. intros H.
  apply orb_false_iff in H as [H1 H2].
  destruct (is_space c && String.eqb (rstrip s) ""); [done|]. simpl.
  by rewrite H1, IH.
Qed.

Lemma sexists_strip p s : sexists p s = false -> sexists p (strip s) = false.
Proof. intros H. unfold strip. by apply sexists_rstrip, sexists_lstrip. Qed.

Lemma append_assoc (a b c : string) : (a +:+ b) +:+ c = a +:+ (b +:+ c).
Proof. induction a as [|x a IH]; [done|]. by rewrite !append_cons, IH. Qed.

Lemma append_nil_r (a : string) : a +:+ "" = a.
Proof. induction a as [|x a IH]; [done|]. by rewrite append_cons, IH. Qed.

(** The pieces of [re.split] hold no separator. *)
Lemma split_chars_go_free p s : forall cur,
  sexists p cur = false ->
  Forall (fun u => sexists p u = false) (split_chars_go p cur s).
Proof.
  induction s as [|c s IH]; intros cur Hcur; simpl.
  - by repeat constructor.
  - destruct (p c) eqn:E.
    + constructor; [done|]. by apply IH.
    + apply IH. rewrite sexists_app, Hcur. simpl. by rewrite E.
Qed.

(** Reading a piece that holds no separator. *)
Lemma split_chars_go_piece p u : forall cur rest,
  sexists p u = false ->
  split_chars_go p cur (u +:+ rest) = split_chars_go p (cur +:+ u) rest.
Proof.
  induction u as [|c u IH]; intros cur rest H.
  - by rewrite append_nil_r.
  - simpl in H. apply orb_false_iff in H as [H1 H2].
    rewrite append_cons. cbn [split_chars_go]. rewrite H1.
    rewrite IH by done. by rewrite append_assoc.
Qed.

Lemma join_one sep u : join sep [u] = u.
Proof. reflexivity. Qed.

Lemma join_cons sep u u' us :
  join sep (u :: u' :: us) = u +:+ sep +:+ join sep (u' :: us).
Proof. reflexivity. Qed.

Lemma split_chars_join p (sep : ascii) us :
  p sep = true -> us <> [] -> Forall (fun u => sexists p u = false) us ->
  split_chars p (join (String sep "") us) = us.
Proof.
  intros Hsep Hne H. unfold split_chars.
  induction H as [|u us Hu Hus IH]; [done|].
  destruct us as [|u' us'].
  - rewrite join_one. rewrite <- (append_nil_r u) at 1.
    by rewrite split_chars_go_piece.
  - rewrite join_cons, split_chars_go_piece by done.
    rewrite append_cons. cbn [split_chars_go]. rewrite Hsep. f_equal.
    change ("" +:+ ?x) with x. by apply IH.
Qed.

(** Trimmed, non-empty texts *)

Lemma length_lstrip s : (String.length (lstrip s) <= String.length s)%nat.
Proof. induction s as [|c s IH]; simpl; [done|]. destruct (is_space c); simpl; lia. Qed.

Lemma length_rstrip s : (String.length (rstrip s) <= String.length s)%nat.
Proof.
  induction s as [|c s IH]; simpl; [done|].
  destruct (is_space c && _); simpl; lia.
Qed.

Lemma stripped_head c s : strip (String c s) = String c s -> is_space c = false.
Proof.
  unfold strip. simpl. destruct (is_space c) eqn:E; [|done]. intros H.
  pose proof (length_rstrip (lstrip s)) as H1. pose proof (length_lstrip s) as H2.
  rewrite H in H1. simpl in H1. lia.
Qed.

Lemma stripped_rstrip u : strip u = u -> rstrip u = u.
Proof.
  destruct u as [|c s]; [done|]. intros H.
  pose proof (stripped_head c s H) as Hc. unfold strip in H. simpl in H.
  by rewrite Hc in H.
Qed.

Lemma lstrip_app_stripped u x : strip u = u -> u <> "" -> lstrip (u +:+ x) = u +:+ x.
Proof.
  destruct u as [|c s]; [done|]. intros H _. rewrite append_cons. simpl.
  by rewrite (stripped_head c s H).
Qed.

Lemma rstrip_app a b : rstrip b = b -> b <> "" -> rstrip (a +:+ b) = a +:+ b.
Proof.
  intros Hb Hne. induction a as [|c a IH]; [done|].
  rewrite append_cons. cbn [rstrip].
  rewrite IH. destruct (String.eqb_spec (a +:+ b) "") as [E|_].
  - destruct a; [done|discriminate E].
  - by rewrite andb_false_r.
Qed.

Lemma join_nonempty sep u us : u <> "" -> join sep (u :: us) <> "".
Proof.
  intros Hu. destruct us; [by rewrite join_one|].
  rewrite join_cons. destruct u; [done|discriminate].
Qed.

Lemma rstrip_join sep us :
  us <> [] -> Forall (fun u => strip u = u /\ u <> "") us ->
  rstrip (join sep us) = join sep us.
Proof.
  intros Hne H. induction H as [|u us [Hu Hu'] Hus IH]; [done|].
  destruct us as [|u' us'].
  - rewrite join_one. by apply stripped_rstrip.
  - rewrite join_cons, <- append_assoc.
    inversion Hus as [|? ? [_ Hne'] _]; subst.
    apply rstrip_app; [by apply IH|]. apply (join_nonempty sep u' us' Hne').
Qed.

Lemma strip_join sep us :
  us <> [] -> Forall (fun u => strip u = u /\ u <> "") us ->
  strip (join sep us) = join sep us.
Proof.
  intros Hne H. unfold strip.
  assert (Hl : lstrip (join sep us) = join sep us).
  { destruct H as [|u us [Hu Hu'] Hus]; [done|].
    destruct us; [|rewrite join_cons; by apply lstrip_app_stripped].
    rewrite join_one, <- (append_nil_r u). by apply lstrip_app_stripped. }
  rewrite Hl. apply rstrip_join; [done|]. done.
Qed.

Lemma filter_all {A} (q : A -> bool) l :
  Forall (fun x => q x = true) l -> List.filter q l = l.
Proof. induction 1 as [|x l Hx Hl IH]; simpl; [done|]. by rewrite Hx, IH. Qed.

Lemma map_fixed {A} (f : A -> A) l : Forall (fun x => f x = x) l -> List.map f l = l.
Proof. induction 1 as [|x l Hx Hl IH]; simpl; [done|]. by rewrite Hx, IH. Qed.

Lemma url_separator_comma : url_separator "," = true.
Proof. reflexivity. Qed.

(** The urls [_clean_image_urls] keeps. *)
Lemma kept_urls s :
  let clean_urls :=
    List.filter (fun url => negb (String.eqb url "") &&
                            (startswith "http" url || startswith "https" url))
                (List.map strip (split_chars url_separator s)) in
  Forall (fun u => strip u = u /\ u <> "" /\ sexists url_separator u = false /\
                   (startswith "http" u || startswith "https" u) = true) clean_urls.
Proof.
  cbn zeta. apply Forall_forall. intros u Hu.
  apply list_elem_of_In, filter_In in Hu as [Hin Hq].
  apply andb_true_iff in Hq as [Hne Hp].
  apply in_map_iff in Hin as (x & <- & Hx).
  split; [apply strip_idem|]. split.
  - apply negb_true_iff in Hne. by apply String.eqb_neq in Hne.
  - split; [|done]. apply sexists_strip.
    pose proof (split_chars_go_free url_separator s "" eq_refl) as H.
    rewrite Forall_forall in H. apply H. by apply list_elem_of_In.
Qed.

Lemma clean_image_urls_shape v :
  _clean_image_urls v = VNull \/
  exists urls,
    _clean_image_urls v = VStr (join "," urls) /\ urls <> [] /\
    Forall (fun u => strip u = u /\ u <> "" /\ sexists url_separator u = false /\
                     (startswith "http" u || startswith "https" u) = true) urls.
Proof.
  unfold _clean_image_urls.
  destruct (isna v); [by left|].
  destruct (String.eqb _ ""); [by left|].
  pose proof (kept_urls (strip (py_str v))) as H. cbn zeta in H.
  destruct (List.filter _ _) as [|u us] eqn:E; [by left|].
  right. by exists (u :: us).
Qed.

End MoreImages.

(** X19: [_clean_image_urls] is idempotent: cleaning a cleaned cell
    changes nothing. *)
Theorem clean_image_urls_idempotent v :
  _clean_image_urls (_clean_image_urls v) = _clean_image_urls v.
Proof.
  destruct (clean_image_urls_shape v) as [->|(urls & -> & Hne & H)]; [done|].
  unfold _clean_image_urls. cbn [isna py_str].
  assert (Hs : Forall (fun u => strip u = u /\ u <> "") urls).
  { eapply Forall_impl; [exact H|]. by intros x (? & ? & _). }
  rewrite (strip_join "," urls Hne Hs).
  destruct (String.eqb_spec (join "," urls) "") as [E|_].
  { destruct urls as [|u us]; [done|]. inversion Hs as [|? ? [_ Hu] _]; subst.
    by destruct (join_nonempty "," u us Hu). }
  rewrite (split_chars_join url_separator "," urls url_separator_comma Hne).
  2: { eapply Forall_impl; [exact H|]. by intros x (? & ? & ? & _). }
  rewrite map_fixed by (eapply Forall_impl; [exact H|]; by intros x (? & _)).
  rewrite filter_all.
  2: { eapply Forall_impl; [exact H|]. intros x (_ & Hx & _ & Hp). cbn beta.
       rewrite Hp. apply String.eqb_neq in Hx. by rewrite Hx. }
  by destruct urls.
Qed.
